(** * Marketplace cores: SkillSwap (gig bidding) and ShareStuff (item sharing)

    Shallow embedding of the data-access functions of the two Streamlit
    applications ([task#11/app.py] and [task#10/app.py]) and proofs about
    their lifecycle operations and the match scorer.

    Modelling conventions
    - A SQLite table is the list of its rows in rowid order.  [INSERT]
      appends a row whose id is one more than the largest id in the table
      (AUTOINCREMENT; neither application deletes from the modelled gig
      tables), [UPDATE ... WHERE] rewrites every row satisfying the
      condition, [SELECT ... WHERE] followed by [fetchone()] is the first
      row satisfying the condition.
    - INTEGER columns and Python ints are [Z]; TEXT columns and Python
      strings are [string] (ASCII text); nullable columns are [option].
    - REAL columns and Python floats are exact rationals [Q]: the
      expressions keep the shape they have in the source, rounding is not
      modelled.
    - Every function opens its own connection and commits at the end, or
      returns early before any write: a call is a function from the store
      before to the returned value and the store after.  Failures of the
      storage engine itself ([sqlite3.Error]) are not modelled. *)

From Stdlib Require Import ZArith QArith Qabs Qminmax List String Ascii Bool Lia.
From Stdlib Require Import Sorting.Sorted Sorting.Permutation Lqa.
From stdpp Require Import gmap strings.
Import ListNotations.

Local Open Scope string_scope.
Local Open Scope Z_scope.
Local Open Scope list_scope.

(** ** Tables *)

Section Table.
Context {row : Type}.
Variable key : row -> Z.

(** [c.execute('SELECT ... WHERE p'); c.fetchone()] *)
Definition fetchone (p : row -> bool) (t : list row) : option row :=
  List.find p t.

(** [UPDATE t SET f WHERE p] *)
Definition update_where (p : row -> bool) (f : row -> row) (t : list row)
  : list row :=
  List.map (fun r => if p r then f r else r) t.

(** The id an AUTOINCREMENT primary key gives to the next inserted row. *)
Definition next_id (t : list row) : Z :=
  List.fold_right Z.max 0 (List.map key t) + 1.

(** Number of rows satisfying [p]: [SELECT COUNT( * ) ... WHERE p]. *)
Definition count_where (p : row -> bool) (t : list row) : nat :=
  List.length (List.filter p t).
End Table.

(** SQL arithmetic on nullable REAL values: NULL propagates, and a division
    by zero yields NULL. *)
Definition sql_add (a b : option Q) : option Q :=
  match a, b with
  | Some x, Some y => Some (x + y)%Q
  | _, _ => None
  end.

Definition sql_mul (a b : option Q) : option Q :=
  match a, b with
  | Some x, Some y => Some (x * y)%Q
  | _, _ => None
  end.

Definition sql_div (a b : option Q) : option Q :=
  match a, b with
  | Some x, Some y => if Qeq_bool y 0 then None else Some (x / y)%Q
  | _, _ => None
  end.

(** ** SkillSwap: the gig marketplace ([task#11/app.py]) *)

Module SkillSwap.

(** Rows of the tables the lifecycle functions read or write.  Columns no
    modelled function touches (password hash, e-mail, urgency, ...) are
    left out. *)
Record user := mkUser {
  u_id : Z;
  u_username : string;
  u_skills : option string;
  u_rating : option Q;
  u_completed_tasks : Z;
  u_total_earnings : Q
}.

Record gig := mkGig {
  g_id : Z;
  g_user_id : Z;
  g_title : string;
  g_description : string;
  g_category : string;
  g_budget_type : string;
  g_budget_amount : option Q;
  g_status : string
}.

Record bid := mkBid {
  b_id : Z;
  b_gig_id : Z;
  b_bidder_id : Z;
  b_amount : Q;
  b_estimated_time : string;
  b_proposal : string;
  b_status : string
}.

Record task := mkTask {
  t_id : Z;
  t_gig_id : Z;
  t_bid_id : Z;
  t_client_id : Z;
  t_freelancer_id : Z;
  t_amount : Q;
  t_status : string;
  t_completed_at : option Z;
  t_client_rating : option Z;
  t_client_review : option string
}.

Record portfolio_item := mkPortfolio {
  p_id : Z;
  p_user_id : Z;
  p_task_id : Z;
  p_title : string;
  p_description : string;
  p_skills_used : option string;
  p_completion_date : option Z;
  p_client_feedback : option string;
  p_rating : option Z
}.

Record store := mkStore {
  users : list user;
  gigs : list gig;
  bids : list bid;
  tasks : list task;
  portfolio : list portfolio_item
}.

(** [init_db()] on a fresh database file: every table exists and is empty. *)
Definition empty_store : store := mkStore [] [] [] [] [].

(** What a function hands back to the page: [(success, message)]. *)
Definition result : Type := bool * string.

(** *** Column setters *)

Definition set_g_status (st : string) (g : gig) : gig :=
  mkGig (g_id g) (g_user_id g) (g_title g) (g_description g) (g_category g)
        (g_budget_type g) (g_budget_amount g) st.

Definition set_b_status (st : string) (b : bid) : bid :=
  mkBid (b_id b) (b_gig_id b) (b_bidder_id b) (b_amount b)
        (b_estimated_time b) (b_proposal b) st.

Definition set_t_status (st : string) (t : task) : task :=
  mkTask (t_id t) (t_gig_id t) (t_bid_id t) (t_client_id t)
         (t_freelancer_id t) (t_amount t) st (t_completed_at t)
         (t_client_rating t) (t_client_review t).

(** [SET status = "completed", completed_at = CURRENT_TIMESTAMP] *)
Definition set_t_completed (now : Z) (t : task) : task :=
  mkTask (t_id t) (t_gig_id t) (t_bid_id t) (t_client_id t)
         (t_freelancer_id t) (t_amount t) "completed" (Some now)
         (t_client_rating t) (t_client_review t).

(** [SET client_rating = ?, client_review = ?] *)
Definition set_t_review (rating : Z) (review : option string) (t : task)
  : task :=
  mkTask (t_id t) (t_gig_id t) (t_bid_id t) (t_client_id t)
         (t_freelancer_id t) (t_amount t) (t_status t) (t_completed_at t)
         (Some rating) review.

(** The freelancer statistics update of [complete_task]:
    [completed_tasks = completed_tasks + 1,
     total_earnings = total_earnings + ?,
     rating = (rating * completed_tasks + ?) / (completed_tasks + 1)].
    Every right-hand side is evaluated on the row as it was before the
    statement. *)
Definition reward (amount : Q) (new_rating : Z) (u : user) : user :=
  mkUser (u_id u) (u_username u) (u_skills u)
         (sql_div
            (sql_add (sql_mul (u_rating u)
                              (Some (inject_Z (u_completed_tasks u))))
                     (Some (inject_Z new_rating)))
            (Some (inject_Z (u_completed_tasks u + 1))))
         (u_completed_tasks u + 1)
         (u_total_earnings u + amount)%Q.

(** *** Gig management *)

(** Python truthiness of a string. *)
Definition truthy (s : string) : bool := negb (String.eqb s "").

Definition create_gig (user_id : Z) (title description category budget_type : string)
    (budget_amount : option Q) (urgency : string) (s : store)
  : result * store :=
  if negb (truthy title && truthy description && truthy category
           && truthy budget_type && truthy urgency)
  then ((false, "Please fill all required fields"), s)
  else if String.eqb budget_type "fixed"
          && match budget_amount with
             | None => true
             | Some a => Qle_bool a 0
             end
  then ((false, "Please enter a valid budget amount"), s)
  else ((true, "Gig created successfully!"),
        mkStore (users s)
                (gigs s ++ [mkGig (next_id g_id (gigs s)) user_id title
                                  description category budget_type
                                  budget_amount "open"])
                (bids s) (tasks s) (portfolio s)).

Definition update_gig_status (gig_id : Z) (status : string) (s : store)
  : bool * store :=
  (true,
   mkStore (users s)
           (update_where (fun g => g_id g =? gig_id) (set_g_status status)
                         (gigs s))
           (bids s) (tasks s) (portfolio s)).

(** *** Bid management *)

Definition place_bid (gig_id bidder_id : Z) (amount : Q)
    (estimated_time proposal : string) (s : store) : result * store :=
  if Qle_bool amount 0
  then ((false, "Please enter a valid bid amount"), s)
  else
    match fetchone (fun b => (b_gig_id b =? gig_id)
                             && (b_bidder_id b =? bidder_id)) (bids s) with
    | Some _ => ((false, "You have already placed a bid on this gig"), s)
    | None =>
      let insert :=
        ((true, "Bid placed successfully!"),
         mkStore (users s) (gigs s)
                 (bids s ++ [mkBid (next_id b_id (bids s)) gig_id bidder_id
                                   amount estimated_time proposal "pending"])
                 (tasks s) (portfolio s)) in
      match fetchone (fun g => g_id g =? gig_id) (gigs s) with
      | Some g =>
        if String.eqb (g_budget_type g) "fixed"
        then
          match g_budget_amount g with
          | None =>
            (* [None * 1.5] raises TypeError, caught by [except Exception] *)
            ((false, "Error placing bid: unsupported operand type(s) for *: 'NoneType' and 'float'"), s)
          | Some budget_amount =>
            if negb (Qle_bool amount (budget_amount * 1.5))
            then ((false, "Your bid exceeds the maximum allowed amount (150% of budget)"), s)
            else insert
          end
        else insert
      | None => insert
      end
    end.

Definition accept_bid (bid_id : Z) (s : store) : result * store :=
  match fetchone (fun b => b_id b =? bid_id) (bids s) with
  | None => ((false, "Bid not found"), s)
  | Some bid =>
    let gig_id := b_gig_id bid in
    let bidder_id := b_bidder_id bid in
    let amount := b_amount bid in
    match fetchone (fun g => g_id g =? gig_id) (gigs s) with
    | None => ((false, "Gig not found"), s)
    | Some gig =>
      let client_id := g_user_id gig in
      (* Create task *)
      let tasks1 :=
        tasks s ++ [mkTask (next_id t_id (tasks s)) gig_id bid_id client_id
                           bidder_id amount "in_progress" None None None] in
      (* Update bid status *)
      let bids1 :=
        update_where (fun b => b_id b =? bid_id) (set_b_status "accepted")
                     (bids s) in
      (* Update other bids status *)
      let bids2 :=
        update_where (fun b => (b_gig_id b =? gig_id)
                               && negb (b_id b =? bid_id))
                     (set_b_status "rejected") bids1 in
      (* Update gig status *)
      let gigs1 :=
        update_where (fun g => g_id g =? gig_id)
                     (set_g_status "in_progress") (gigs s) in
      ((true, "Bid accepted! Task has started."),
       mkStore (users s) gigs1 bids2 tasks1 (portfolio s))
    end
  end.

(** *** Task management *)

(** Python's [rating or 5]. *)
Definition rating_or_5 (rating : option Z) : Z :=
  match rating with
  | Some r => if r =? 0 then 5 else r
  | None => 5
  end.

(** SQLite's [DATE(ts)] on a timestamp counted in seconds: the day. *)
Definition sql_date (ts : Z) : Z := ts / 86400.

(** [INSERT INTO portfolio (...) SELECT ?, t.id, g.title, g.description,
    (SELECT skills FROM users WHERE id = ?), DATE(t.completed_at),
    t.client_review, t.client_rating
    FROM tasks t JOIN gigs g ON t.gig_id = g.id WHERE t.id = ?]:
    the rows the SELECT produces, still without their ids. *)
Definition portfolio_rows (freelancer_id task_id : Z) (us : list user)
    (gs : list gig) (ts : list task) : list (Z -> portfolio_item) :=
  let skills :=
    match fetchone (fun u => u_id u =? freelancer_id) us with
    | Some u => u_skills u
    | None => None
    end in
  List.flat_map
    (fun t =>
       List.map
         (fun g pid =>
            mkPortfolio pid freelancer_id (t_id t) (g_title g)
                        (g_description g) skills
                        (option_map sql_date (t_completed_at t))
                        (t_client_review t) (t_client_rating t))
         (List.filter (fun g => g_id g =? t_gig_id t) gs))
    (List.filter (fun t => t_id t =? task_id) ts).

Definition insert_portfolio (rows : list (Z -> portfolio_item))
    (tbl : list portfolio_item) : list portfolio_item :=
  List.fold_left (fun tbl mk => tbl ++ [mk (next_id p_id tbl)]) rows tbl.

(** [now] is the reading of CURRENT_TIMESTAMP during the call. *)
Definition complete_task (now : Z) (task_id user_id : Z) (rating : option Z)
    (review : option string) (s : store) : result * store :=
  match fetchone (fun t => t_id t =? task_id) (tasks s) with
  | None => ((false, "Task not found"), s)
  | Some tsk =>
    let client_id := t_client_id tsk in
    let freelancer_id := t_freelancer_id tsk in
    let status := t_status tsk in
    let amount := t_amount tsk in
    (* Check if user is authorized *)
    if negb ((user_id =? client_id) || (user_id =? freelancer_id))
    then ((false, "Unauthorized access"), s)
    else
      (* Update task based on user role; [None] is the early return *)
      let role_update : option (list task) :=
        if user_id =? client_id then
          match rating with
          | Some r =>
            if (r <? 1) || (r >? 5) then None
            else Some (update_where (fun t => t_id t =? task_id)
                                    (set_t_review r review) (tasks s))
          | None =>
            Some (update_where (fun t => t_id t =? task_id)
                               (set_t_completed now) (tasks s))
          end
        else if user_id =? freelancer_id then
          Some (update_where (fun t => t_id t =? task_id)
                             (set_t_status "pending_review") (tasks s))
        else Some (tasks s) in
      match role_update with
      | None => ((false, "Rating must be between 1 and 5"), s)
      | Some tasks1 =>
        (* If both parties have completed their parts, update portfolio
           and user stats *)
        if String.eqb status "pending_review" && (user_id =? client_id)
        then
          let users1 :=
            update_where (fun u => u_id u =? freelancer_id)
                         (reward amount (rating_or_5 rating)) (users s) in
          let portfolio1 :=
            insert_portfolio
              (portfolio_rows freelancer_id task_id users1 (gigs s) tasks1)
              (portfolio s) in
          let gigs1 :=
            match fetchone (fun t => t_id t =? task_id) tasks1 with
            | Some t =>
              update_where (fun g => g_id g =? t_gig_id t)
                           (set_g_status "completed") (gigs s)
            | None => gigs s
            end in
          ((true, "Task updated successfully!"),
           mkStore users1 gigs1 (bids s) tasks1 portfolio1)
        else
          ((true, "Task updated successfully!"),
           mkStore (users s) (gigs s) (bids s) tasks1 (portfolio s))
      end
  end.

(** *** Reachable stores *)

(** The store effect of a successful [register_user]: a fresh row with the
    column defaults.  (Password and e-mail validation only decide whether
    the row is inserted.) *)
Definition insert_user (username : string) (skills : option string)
    (s : store) : store :=
  mkStore (users s ++ [mkUser (next_id u_id (users s)) username skills
                              (Some 0%Q) 0 0%Q])
          (gigs s) (bids s) (tasks s) (portfolio s).

(** One call of a writing function of the application. *)
Inductive step : store -> store -> Prop :=
| step_register_user : forall s username skills,
    step s (insert_user username skills s)
| step_create_gig : forall s uid title descr cat bt ba urg,
    step s (snd (create_gig uid title descr cat bt ba urg s))
| step_update_gig_status : forall s gid st,
    step s (snd (update_gig_status gid st s))
| step_place_bid : forall s gid bidder amount et prop,
    step s (snd (place_bid gid bidder amount et prop s))
| step_accept_bid : forall s bid_id,
    step s (snd (accept_bid bid_id s))
| step_complete_task : forall s now tid uid rating review,
    step s (snd (complete_task now tid uid rating review s)).

Inductive reachable : store -> Prop :=
| reachable_init : reachable empty_store
| reachable_step : forall s s', reachable s -> step s s' -> reachable s'.

(** *** Vocabulary of the claims *)

Definition is_accepted_on (gig_id : Z) (b : bid) : bool :=
  (b_gig_id b =? gig_id) && String.eqb (b_status b) "accepted".

(** The primary key of [bids] is unique. *)
Definition bids_keyed (s : store) : Prop :=
  List.NoDup (List.map b_id (bids s)).

(** The state the specification promises after a successful
    [accept_bid B] on a bid of gig [G]. *)
Definition accepted_state (B G : Z) (s' : store) : Prop :=
  count_where (is_accepted_on G) (bids s') = 1%nat
  /\ (forall b, In b (bids s') -> b_gig_id b = G ->
                b_status b = "accepted" -> b_id b = B)
  /\ (forall b, In b (bids s') -> b_gig_id b = G -> b_id b <> B ->
                b_status b = "rejected")
  /\ (exists g, fetchone (fun g => g_id g =? G) (gigs s') = Some g
                /\ g_status g = "in_progress")
  /\ (forall g, In g (gigs s') -> g_id g = G -> g_status g = "in_progress").

Definition tasks_referencing (B : Z) (s : store) : nat :=
  count_where (fun t => t_bid_id t =? B) (tasks s).

(** What one row of [bids] becomes in [accept_bid B] on a bid of gig [G]. *)
Definition settle (B G : Z) (b : bid) : bid :=
  let b1 := if b_id b =? B then set_b_status "accepted" b else b in
  if (b_gig_id b1 =? G) && negb (b_id b1 =? B)
  then set_b_status "rejected" b1 else b1.

(** The invariant of the bids table. *)
Definition bids_inv (s : store) : Prop :=
  bids_keyed s
  /\ forall G, (count_where (is_accepted_on G) (bids s) <= 1)%nat.

(** The store after the client side of [complete_task] fired the
    completion effects, given the updated task table. *)
Definition completion_effects (tsk : task) (task_id : Z) (rating : option Z)
    (tasks1 : list task) (s : store) : store :=
  let users1 :=
    update_where (fun u => u_id u =? t_freelancer_id tsk)
                 (reward (t_amount tsk) (rating_or_5 rating)) (users s) in
  mkStore users1
          (match fetchone (fun t => t_id t =? task_id) tasks1 with
           | Some t => update_where (fun g => g_id g =? t_gig_id t)
                                    (set_g_status "completed") (gigs s)
           | None => gigs s
           end)
          (bids s) tasks1
          (insert_portfolio
             (portfolio_rows (t_freelancer_id tsk) task_id users1 (gigs s)
                             tasks1)
             (portfolio s)).

(** C1 as the specification states it: every successful [accept_bid B] in
    a reachable store ends in the accepted state with exactly one task
    referencing [B]. *)
Definition accept_bid_claim : Prop :=
  forall s B,
    reachable s -> fst (fst (accept_bid B s)) = true ->
    exists G,
      accepted_state B G (snd (accept_bid B s))
      /\ tasks_referencing B (snd (accept_bid B s)) = 1%nat.

(** C8 as the specification states it: [accept_bid] fails, changing
    nothing, when the gig of the bid is not open. *)
Definition accept_bid_open_claim : Prop :=
  forall s B bid gig,
    fetchone (fun b => b_id b =? B) (bids s) = Some bid ->
    fetchone (fun g => g_id g =? b_gig_id bid) (gigs s) = Some gig ->
    g_status gig <> "open" ->
    fst (fst (accept_bid B s)) = false /\ snd (accept_bid B s) = s.

(** A small history: three students register, the first posts a fixed
    budget gig, the others bid, and the first bid is accepted. *)
Definition demo_users : store :=
  insert_user "carol" (Some "design")
    (insert_user "bob" (Some "python")
       (insert_user "alice" None empty_store)).
Definition demo_gig : store :=
  snd (create_gig 1 "Logo" "Draw a logo" "Design" "fixed" (Some 100%Q)
                  "high" demo_users).
Definition demo_bids : store :=
  snd (place_bid 1 3 120%Q "3 days" "me too"
                 (snd (place_bid 1 2 90%Q "2 days" "I can do it" demo_gig))).
Definition demo_accepted : store := snd (accept_bid 1 demo_bids).

(** Bob, the freelancer of task 1, declares the work done. *)
Definition demo_review : store :=
  snd (complete_task 86400 1 2 None None demo_accepted).

End SkillSwap.

(** ** Python built-ins used by the match scorer *)

(** Stable sort in descending key order: the behaviour of
    [sorted(l, key=..., reverse=True)] (elements with equal keys keep their
    relative order), also used for [ORDER BY ... DESC]. *)
Section SortDesc.
Context {A : Type}.
Variable key : A -> Z.

Fixpoint insert_desc (x : A) (l : list A) : list A :=
  match l with
  | [] => [x]
  | y :: l' => if key x <? key y then y :: insert_desc x l' else x :: l
  end.

Definition sorted_desc (l : list A) : list A :=
  List.fold_right insert_desc [] l.

(** Descending order of keys. *)
Definition desc (a b : A) : Prop := key b <= key a.
End SortDesc.

(** [s.split(sep)] for a one-character separator: never empty. *)
Fixpoint py_split (sep : ascii) (s : string) : list string :=
  match s with
  | EmptyString => [EmptyString]
  | String c r =>
    if Ascii.eqb c sep then EmptyString :: py_split sep r
    else match py_split sep r with
         | h :: t => String c h :: t
         | [] => [String c EmptyString]
         end
  end.

(** The ASCII characters [str.strip()] removes. *)
Definition is_space (c : ascii) : bool :=
  let n := nat_of_ascii c in
  ((9 <=? n) && (n <=? 13) || (28 <=? n) && (n <=? 32))%nat.

Fixpoint py_lstrip (s : string) : string :=
  match s with
  | EmptyString => EmptyString
  | String c r => if is_space c then py_lstrip r else s
  end.

Fixpoint string_rev (s : string) : string :=
  match s with
  | EmptyString => EmptyString
  | String c r => String.append (string_rev r) (String c EmptyString)
  end.

Definition py_strip (s : string) : string :=
  string_rev (py_lstrip (string_rev (py_lstrip s))).

Definition lower_ascii (c : ascii) : ascii :=
  let n := nat_of_ascii c in
  if ((65 <=? n) && (n <=? 90))%nat then ascii_of_nat (n + 32) else c.

Fixpoint py_lower (s : string) : string :=
  match s with
  | EmptyString => EmptyString
  | String c r => String (lower_ascii c) (py_lower r)
  end.

(** [x in [a, b, ...]] on strings. *)
Definition str_in (x : string) (l : list string) : bool :=
  List.existsb (String.eqb x) l.

(** ** ShareStuff: the item-sharing application ([task#10/app.py]) *)

Module ShareStuff.

Record user := mkUser {
  u_id : Z;
  u_username : string;
  u_rating : Q
}.

Record item := mkItem {
  it_id : Z;
  it_user_id : Z;
  it_title : string;
  it_price : Q;
  it_category : string;
  it_condition : string;
  it_location : option string;
  it_tags : option string;
  it_available_for : string;
  it_status : string;
  it_created_at : Z
}.

Record transaction := mkTransaction {
  tr_id : Z;
  tr_item_id : Z;
  tr_requested_by : Z;
  tr_type : string;
  tr_status : string;
  tr_matched_item_id : option Z
}.

Record store := mkStore {
  users : list user;
  items : list item;
  transactions : list transaction
}.

(** One entry of the list [find_matches] returns (a Python dict). *)
Record scored_match := mkMatch {
  m_id : Z;
  m_title : string;
  m_price : Q;
  m_category : string;
  m_condition : string;
  m_username : string;
  m_user_rating : Q;
  match_score : Z;
  m_type : string;
  m_available_for : string
}.

Inductive exn : Type := ZeroDivisionError.

Definition set_it_status (st : string) (i : item) : item :=
  mkItem (it_id i) (it_user_id i) (it_title i) (it_price i) (it_category i)
         (it_condition i) (it_location i) (it_tags i) (it_available_for i)
         st (it_created_at i).

Definition set_tr_status (st : string) (t : transaction) : transaction :=
  mkTransaction (tr_id t) (tr_item_id t) (tr_requested_by t) (tr_type t) st
                (tr_matched_item_id t).

(** *** Smart matching algorithm *)

(** [abs(item_price - match_price) / max(item_price, match_price)]:
    Python's float division raises when the divisor is zero. *)
Definition price_diff (item_price match_price : Q) : exn + Q :=
  if Qeq_bool (Qmax item_price match_price) 0
  then inl ZeroDivisionError
  else inr (Qabs (item_price - match_price) / Qmax item_price match_price)%Q.

(** Truthiness of a nullable TEXT value. *)
Definition text_truthy (o : option string) : bool :=
  match o with
  | Some s => negb (String.eqb s "")
  | None => false
  end.

(** [str(x)] of a TEXT value that passed the truthiness test. *)
Definition text (o : option string) : string :=
  match o with
  | Some s => s
  | None => "None"
  end.

Definition first_token (loc : string) : string :=
  py_lower (py_strip (List.hd "" (py_split "," loc))).

Definition tag_set (tags : string) : gset string :=
  list_to_set (List.map (fun tag => py_lower (py_strip tag))
                        (py_split "," tags)).

(** The score of one candidate after the four factors, or the exception
    raised on the way. *)
Definition candidate_score (it match_item : item) : exn + Z :=
  let score := 0 in
  (* Category match (40%) *)
  let score :=
    if String.eqb (it_category it) (it_category match_item)
    then score + 40 else score in
  (* Price match (30%) *)
  match price_diff (it_price it) (it_price match_item) with
  | inl e => inl e
  | inr d =>
    let score :=
      if Qle_bool d 0.2 then score + 30
      else if Qle_bool d 0.5 then score + 15
      else score in
    (* Location match (20%) *)
    let score :=
      if text_truthy (it_location it) && text_truthy (it_location match_item)
      then
        if String.eqb (first_token (text (it_location it)))
                      (first_token (text (it_location match_item)))
        then score + 20 else score
      else score in
    (* Tags match (10%) *)
    let score :=
      if text_truthy (it_tags it) && text_truthy (it_tags match_item)
      then
        let common :=
          tag_set (text (it_tags it)) ∩ tag_set (text (it_tags match_item)) in
        if negb (Nat.eqb (size common) 0)
        then score + Z.min (Z.of_nat (size common) * 5) 10
        else score
      else score in
    inr score
  end.

(** Determine transaction type *)
Definition trans_type (it match_item : item) : string :=
  if str_in (it_available_for it) ["rental"; "both"]
     && str_in (it_available_for match_item) ["rental"; "both"]
  then "rental"
  else if str_in (it_available_for it) ["barter"; "both"]
          && str_in (it_available_for match_item) ["barter"; "both"]
  then "barter"
  else "rental".

(** [float(x or 0)] *)
Definition or_zero (x : Q) : Q := if Qeq_bool x 0 then 0%Q else x.

Definition match_entry (it : item) (row : item * user) (score : Z)
  : scored_match :=
  let match_item := fst row in
  mkMatch (it_id match_item) (it_title match_item) (it_price match_item)
          (it_category match_item) (it_condition match_item)
          (u_username (snd row)) (or_zero (u_rating (snd row)))
          (Z.min score 100) (trans_type it match_item)
          (it_available_for match_item).

(** The loop over [potential_items.iterrows()], appending to [matches]. *)
Fixpoint score_loop (it : item) (pool : list (item * user))
    (matches : list scored_match) : exn + list scored_match :=
  match pool with
  | [] => inr matches
  | row :: rest =>
    match candidate_score it (fst row) with
    | inl e => inl e
    | inr score =>
      if 30 <=? score
      then score_loop it rest (matches ++ [match_entry it row score])
      else score_loop it rest matches
    end
  end.

(** [SELECT i.*, u.username, u.rating as user_rating
     FROM items i JOIN users u ON i.user_id = u.id
     WHERE i.user_id != ? AND i.status = "available" AND i.user_id != ?
     ORDER BY i.created_at DESC].
    Rows with equal [created_at] are kept in table order. *)
Definition potential_items (s : store) (owner_id current_user_id : Z)
  : list (item * user) :=
  sorted_desc (fun row => it_created_at (fst row))
    (List.flat_map
       (fun i =>
          List.map (fun u => (i, u))
                   (List.filter (fun u => u_id u =? it_user_id i) (users s)))
       (List.filter
          (fun i => negb (it_user_id i =? owner_id)
                    && String.eqb (it_status i) "available"
                    && negb (it_user_id i =? current_user_id))
          (items s))).

(** The [try] block of [find_matches]. *)
Definition find_matches_body (s : store) (item_id current_user_id : Z)
  : exn + list scored_match :=
  match fetchone (fun i => it_id i =? item_id) (items s) with
  | None => inr []
  | Some it =>
    match score_loop it (potential_items s (it_user_id it) current_user_id)
                     [] with
    | inl e => inl e
    | inr matches => inr (List.firstn 5 (sorted_desc match_score matches))
    end
  end.

(** [except Exception as e: st.error(...); return []] *)
Definition find_matches (s : store) (item_id current_user_id : Z)
  : list scored_match :=
  match find_matches_body s item_id current_user_id with
  | inl _ => []
  | inr matches => matches
  end.

(** *** Transactions *)

Definition update_transaction_status (transaction_id : Z) (status : string)
    (s : store) : bool * store :=
  let transactions1 :=
    update_where (fun t => tr_id t =? transaction_id) (set_tr_status status)
                 (transactions s) in
  (* If transaction is completed or cancelled, free up the item *)
  let items1 :=
    if str_in status ["completed"; "cancelled"]
    then
      match fetchone (fun t => tr_id t =? transaction_id) transactions1 with
      | Some r =>
        update_where (fun i => it_id i =? tr_item_id r)
                     (set_it_status "available") (items s)
      | None => items s
      end
    else items s in
  (true, mkStore (users s) items1 transactions1).

(** The buttons [transactions_page] shows for a transaction, as the
    statuses they pass to [update_transaction_status]. *)
Definition offered_statuses (status : string) (is_owner : bool)
  : list string :=
  if String.eqb status "pending"
  then if is_owner then ["accepted"; "cancelled"] else []
  else if String.eqb status "accepted" then ["completed"]
  else [].

(** *** Vocabulary of the claims *)

(** The transitions the specification calls legal. *)
Definition legal_transition (from to : string) : bool :=
  String.eqb from "pending" && str_in to ["accepted"; "cancelled"]
  || String.eqb from "accepted" && String.eqb to "completed".

Definition items_keyed (s : store) : Prop :=
  List.NoDup (List.map it_id (items s)).

(** The entries of the pool's candidates whose reported score is [v], in
    pool order. *)
Definition entries_scoring (it : item) (pool : list (item * user)) (v : Z)
  : list scored_match :=
  List.flat_map
    (fun row =>
       match candidate_score it (fst row) with
       | inr score =>
         if (30 <=? score) && (Z.min score 100 =? v)
         then [match_entry it row score] else []
       | inl _ => []
       end)
    pool.

(** What one pool row contributes to [matches]. *)
Definition kept (it : item) (row : item * user) : list scored_match :=
  match candidate_score it (fst row) with
  | inr score => if 30 <=? score then [match_entry it row score] else []
  | inl _ => []
  end.

(** C3 as the specification states it: a request that is not a legal
    transition fails and leaves the transaction as it was. *)
Definition transition_claim : Prop :=
  forall s tid t st,
    fetchone (fun t => tr_id t =? tid) (transactions s) = Some t ->
    legal_transition (tr_status t) st = false ->
    fst (update_transaction_status tid st s) = false
    /\ fetchone (fun t => tr_id t =? tid)
                (transactions (snd (update_transaction_status tid st s)))
       = Some t.

(** Four neighbours and their listings, as rows of the tables; a finished
    rental of the ladder.  Listings 3 and 5 have price 0, which [add_item]
    stores and the listing form refuses. *)
Definition demo : store :=
  mkStore
    [mkUser 1 "ann" 0; mkUser 2 "ben" 4.5; mkUser 3 "cat" 0; mkUser 4 "dan" 0]
    [mkItem 1 1 "Drill" 50 "Tools" "good" (Some "Boston, MA")
            (Some "drill,cordless") "rental" "available" 10;
     mkItem 2 2 "Power drill" 55 "Tools" "new" (Some "Boston, MA")
            (Some "drill,electric") "both" "available" 20;
     mkItem 3 3 "Old saw" 0 "Tools" "used" (Some "boston") None
            "barter" "available" 30;
     mkItem 4 4 "Tent" 45 "Outdoor Gear" "good" (Some "Salem") None
            "rental" "available" 40;
     mkItem 5 1 "Free hammer" 0 "Tools" "used" None None
            "rental" "available" 50;
     mkItem 6 2 "Ladder" 52 "Tools" "good" None None
            "rental" "rented" 60]
    [mkTransaction 1 6 1 "rental" "completed" None].

(** A market with more good matches for the drill than [find_matches]
    returns: listings 2, 3, 5, 7 and 8 score 70, listing 4 scores 90 and
    listing 6 scores 0. *)
Definition demo_crowded : store :=
  let tool id price loc created :=
    mkItem id 2 "Drill" price "Tools" "good" loc None "rental" "available"
           created in
  mkStore
    [mkUser 1 "ann" 0; mkUser 2 "ben" 4.5]
    [mkItem 1 1 "Drill" 50 "Tools" "good" (Some "Boston, MA") None "rental"
            "available" 10;
     tool 2 50%Q None 20; tool 3 50%Q None 30; tool 4 52%Q (Some "boston") 40;
     tool 5 48%Q None 50;
     mkItem 6 2 "Novel" 200 "Books" "good" None None "rental" "available" 60;
     tool 7 50%Q None 70; tool 8 45%Q None 80]
    [].

End ShareStuff.

(** ** ShareStuff: listings and requests *)

Module ShareStuffListings.
Import ShareStuff.

(** [items JOIN users ON items.user_id = users.id] over some item rows. *)
Definition join_owner (s : store) (rows : list item) : list (item * user) :=
  List.flat_map
    (fun i =>
       List.map (fun u => (i, u))
                (List.filter (fun u => u_id u =? it_user_id i) (users s)))
    rows.

(** [get_item_by_id]: the joined row as a dictionary, or [None]. *)
Definition get_item_by_id (s : store) (item_id : Z) : option (item * user) :=
  List.head (join_owner s (List.filter (fun i => it_id i =? item_id) (items s))).

(** [get_all_items(exclude_user_id=None)] *)
Definition get_all_items (s : store) (exclude_user_id : option Z)
  : list (item * user) :=
  match exclude_user_id with
  | Some n =>
    if negb (n =? 0)
    then
      sorted_desc (fun row => it_created_at (fst row))
        (join_owner s
           (List.filter (fun i => negb (it_user_id i =? n)
                                  && String.eqb (it_status i) "available")
                        (items s)))
    else
      sorted_desc (fun row => it_created_at (fst row))
        (join_owner s
           (List.filter (fun i => String.eqb (it_status i) "available")
                        (items s)))
  | None =>
    sorted_desc (fun row => it_created_at (fst row))
      (join_owner s
         (List.filter (fun i => String.eqb (it_status i) "available")
                      (items s)))
  end.

(** [delete_item]: [DELETE FROM items WHERE id = ?] *)
Definition delete_item (item_id : Z) (s : store) : bool * store :=
  (true,
   mkStore (users s)
           (List.filter (fun i => negb (it_id i =? item_id)) (items s))
           (transactions s)).

(** [create_transaction]; the two date columns are not part of the modelled
    row. *)
Definition create_transaction (item_id requested_by : Z) (trans_type : string)
    (matched_item_id : option Z) (s : store) : bool * store :=
  (true,
   mkStore (users s) (items s)
           (transactions s
            ++ [mkTransaction (next_id tr_id (transactions s)) item_id
                              requested_by trans_type "pending"
                              matched_item_id])).

(** The transaction types [request_item] offers for a listing. *)
Definition available_types (available_for : string) : list string :=
  (if str_in available_for ["rental"; "both"] then ["rental"] else [])
  ++ (if str_in available_for ["barter"; "both"] then ["barter"] else []).

End ShareStuffListings.

(** ** ShareStuff: the forms that write the items table *)

Module ShareStuffForms.
Import ShareStuff ShareStuffListings.

(** The items table is AUTOINCREMENT and the application deletes from it:
    [items_seq] is its entry in [sqlite_sequence], the largest id given so
    far. *)
Record catalogue := mkCatalogue {
  shop : store;
  items_seq : Z
}.

Definition empty_catalogue : catalogue := mkCatalogue (mkStore [] [] []) 0.

(** [add_item]; [description] and [image] are not columns of the modelled
    row, [status] and [created_at] take their defaults ([now] is the reading
    of CURRENT_TIMESTAMP). *)
Definition add_item (now user_id : Z) (title description : string)
    (price : Q) (category condition location tags available_for : string)
    (c : catalogue) : bool * catalogue :=
  let id := Z.max (items_seq c + 1) (next_id it_id (items (shop c))) in
  (true,
   mkCatalogue
     (mkStore (users (shop c))
              (items (shop c)
               ++ [mkItem id user_id title price category condition
                          (Some location) (Some tags) available_for
                          "available" now])
              (transactions (shop c)))
     id).

(** [update_item] with the keyword arguments [edit_item] passes. *)
Definition update_item (item_id : Z) (title description : string) (price : Q)
    (category condition location tags available_for status : string)
    (s : store) : bool * store :=
  (true,
   mkStore (users s)
           (update_where (fun i => it_id i =? item_id)
                         (fun i => mkItem (it_id i) (it_user_id i) title price
                                          category condition (Some location)
                                          (Some tags) available_for status
                                          (it_created_at i))
                         (items s))
           (transactions s)).

(** Truthiness of a form value. *)
Definition filled (s : string) : bool := negb (String.eqb s "").

(** [all([title, description, price, category, condition, location])]:
    a price of [0.0] is falsy. *)
Definition required_fields (title description : string) (price : Q)
    (category condition location : string) : bool :=
  filled title && filled description && negb (Qeq_bool price 0)
  && filled category && filled condition && filled location.

(** What a page reports after a submit. *)
Inductive feedback : Type :=
| ItemListed | ItemUpdated | MissingFields | NotLoggedIn | ItemNotFound
| WriteFailed.

(** The submit branch of [list_item]; [user] is the id of
    [get_current_user()]. *)
Definition list_item (now : Z) (user : option Z) (title description : string)
    (price : Q) (category condition location tags available_for : string)
    (c : catalogue) : feedback * catalogue :=
  if negb (required_fields title description price category condition
                           location)
  then (MissingFields, c)
  else
    match user with
    | None => (NotLoggedIn, c)
    | Some user_id =>
      let '(success, c') :=
        add_item now user_id title description price category condition
                 location tags available_for c in
      if success then (ItemListed, c') else (WriteFailed, c)
    end.

(** The submit branch of [edit_item] (without a new image). *)
Definition edit_item (item_id : Z) (title description : string) (price : Q)
    (category condition location tags available_for status : string)
    (c : catalogue) : feedback * catalogue :=
  match get_item_by_id (shop c) item_id with
  | None => (ItemNotFound, c)
  | Some _ =>
    if negb (required_fields title description price category condition
                             location)
    then (MissingFields, c)
    else
      let '(success, s') :=
        update_item item_id title description price category condition
                    location tags available_for status (shop c) in
      if success then (ItemUpdated, mkCatalogue s' (items_seq c))
      else (WriteFailed, c)
  end.

(** What the application does to the items table: the two forms, whose
    price widget ([st.number_input(min_value=0.0)]) yields no negative
    number, the Delete button, and a transaction that ends.  The other
    writers ([register_user], [add_review], [create_transaction]) change the
    users and the transactions only. *)
Inductive step : catalogue -> catalogue -> Prop :=
| step_list_item :
    forall c now user title description price category condition location
           tags available_for,
      (0 <= price)%Q ->
      step c (snd (list_item now user title description price category
                             condition location tags available_for c))
| step_edit_item :
    forall c item_id title description price category condition location
           tags available_for status,
      (0 <= price)%Q ->
      step c (snd (edit_item item_id title description price category
                             condition location tags available_for status c))
| step_delete_item :
    forall c item_id,
      step c (mkCatalogue (snd (delete_item item_id (shop c))) (items_seq c))
| step_update_transaction_status :
    forall c transaction_id status,
      step c (mkCatalogue
                (snd (update_transaction_status transaction_id status
                                                (shop c)))
                (items_seq c))
| step_other_tables :
    forall c us ts,
      step c (mkCatalogue (mkStore us (items (shop c)) ts) (items_seq c)).

Inductive reachable : catalogue -> Prop :=
| reachable_init : reachable empty_catalogue
| reachable_step : forall c c', reachable c -> step c c' -> reachable c'.

(** C4 as the specification states it: when the source listing and a
    candidate both have price 0, scoring still completes. *)
Definition zero_price_guard_claim : Prop :=
  forall s item_id uid it row,
    fetchone (fun i => it_id i =? item_id) (items s) = Some it ->
    In row (potential_items s (it_user_id it) uid) ->
    (it_price it == 0)%Q -> (it_price (fst row) == 0)%Q ->
    exists out, find_matches_body s item_id uid = inr out.

Definition demo_members : catalogue :=
  mkCatalogue (mkStore [mkUser 1 "ann" 0; mkUser 2 "ben" 4.5] [] []) 0.

(** Ann and ben list a drill each through the form. *)
Definition demo_listed : catalogue :=
  snd (list_item 20 (Some 2) "Power drill" "Corded, 800 W" 55 "Tools" "New"
                 "Boston, MA" "drill,electric" "both"
         (snd (list_item 10 (Some 1) "Drill" "Cordless drill" 50 "Tools"
                         "Good" "Boston, MA" "drill,cordless" "rental"
                         demo_members))).

(** [add_item] called without the form, with a price of 0, twice. *)
Definition demo_free : catalogue :=
  snd (add_item 20 2 "Old saw" "Rusty" 0 "Tools" "Fair" "Boston" "" "barter"
         (snd (add_item 10 1 "Free hammer" "Take it" 0 "Tools" "Good"
                        "Boston" "" "rental" demo_members))).

End ShareStuffForms.

(** ** ShareStuff: accounts and reviews *)

Module ShareStuffReviews.

(** The full row of [users] (the scorer only reads three of its columns). *)
Record account := mkAccount {
  a_id : Z;
  a_username : string;
  a_email : string;
  a_password_hash : string;
  a_location : string;
  a_bio : string;
  a_rating : Q;
  a_total_ratings : Z
}.

Record review := mkReview {
  r_id : Z;
  r_user_id : Z;
  r_reviewer_id : Z;
  r_transaction_id : Z;
  r_rating : Z;
  r_comment : string
}.

Record store := mkStore {
  accounts : list account;
  reviews : list review
}.

Definition set_a_rating (rating : Q) (total : Z) (a : account) : account :=
  mkAccount (a_id a) (a_username a) (a_email a) (a_password_hash a)
            (a_location a) (a_bio a) rating total.

Definition set_r_rating (rating : Z) (comment : string) (r : review) : review :=
  mkReview (r_id r) (r_user_id r) (r_reviewer_id r) (r_transaction_id r)
           rating comment.

Section Hashing.
(** [hash_password]: the hexadecimal SHA-256 digest, taken as given. *)
Variable hash_password : string -> string.

(** [register_user]: the INSERT raises IntegrityError, and the function
    returns [False], when the username or the e-mail is already there. *)
Definition register_user (username email password location bio : string)
    (s : store) : bool * store :=
  if List.existsb (fun a => String.eqb (a_username a) username
                            || String.eqb (a_email a) email) (accounts s)
  then (false, s)
  else (true,
        mkStore (accounts s
                 ++ [mkAccount (next_id a_id (accounts s)) username email
                               (hash_password password) location bio 0 0])
                (reviews s)).

Definition login_user (email password : string) (s : store)
  : option account :=
  fetchone (fun a => String.eqb (a_email a) email
                     && String.eqb (a_password_hash a)
                                   (hash_password password))
           (accounts s).

End Hashing.

(** [get_user_rating] *)
Definition get_user_rating (user_id : Z) (s : store) : Q :=
  match fetchone (fun a => a_id a =? user_id) (accounts s) with
  | Some a => a_rating a
  | None => 0
  end.

(** [get_user_id_by_username] *)
Definition get_user_id_by_username (username : string) (s : store)
  : option Z :=
  option_map a_id
             (fetchone (fun a => String.eqb (a_username a) username)
                       (accounts s)).

(** [has_user_reviewed] *)
Definition has_user_reviewed (transaction_id reviewer_id : Z) (s : store)
  : bool :=
  match fetchone (fun r => (r_transaction_id r =? transaction_id)
                           && (r_reviewer_id r =? reviewer_id)) (reviews s) with
  | Some _ => true
  | None => false
  end.

Definition sum_ratings (rs : list review) : Z :=
  List.fold_right Z.add 0 (List.map r_rating rs).

(** [SELECT AVG(rating), COUNT( * ) FROM reviews WHERE user_id = ?]:
    the average is NULL over no rows. *)
Definition rating_aggregate (user_id : Z) (rs : list review)
  : option Q * Z :=
  let mine := List.filter (fun r => r_user_id r =? user_id) rs in
  let count := Z.of_nat (List.length mine) in
  (if count =? 0 then None
   else Some (inject_Z (sum_ratings mine) / inject_Z count)%Q,
   count).

(** [add_review] *)
Definition add_review (user_id reviewer_id transaction_id rating : Z)
    (comment : string) (s : store) : bool * store :=
  (* Check if review already exists *)
  let existing :=
    fetchone (fun r => (r_user_id r =? user_id)
                       && (r_reviewer_id r =? reviewer_id)
                       && (r_transaction_id r =? transaction_id))
             (reviews s) in
  let reviews1 :=
    match existing with
    | Some e =>
      update_where (fun r => r_id r =? r_id e) (set_r_rating rating comment)
                   (reviews s)
    | None =>
      reviews s ++ [mkReview (next_id r_id (reviews s)) user_id reviewer_id
                             transaction_id rating comment]
    end in
  (* Update user's average rating *)
  let result := rating_aggregate user_id reviews1 in
  let avg_rating :=
    match fst result with
    | Some q => if Qeq_bool q 0 then 0%Q else q
    | None => 0%Q
    end in
  let count := snd result in
  (true,
   mkStore (update_where (fun a => a_id a =? user_id)
                         (set_a_rating avg_rating count) (accounts s))
           reviews1).

Definition reviews_of (user_id : Z) (s : store) : list review :=
  List.filter (fun r => r_user_id r =? user_id) (reviews s).

(** A stand-in digest for the examples. *)
Definition demo_hash (password : string) : string := "sha256:" ++ password.

(** Two members; ben has been reviewed twice (5 and 4 stars). *)
Definition demo_accounts : store :=
  mkStore [mkAccount 1 "ann" "ann@x.org" (demo_hash "pw1") "Boston" "" 0 0;
           mkAccount 2 "ben" "ben@x.org" (demo_hash "pw2") "Salem" "" 4.5 2]
          [mkReview 1 2 1 7 5 "great"; mkReview 2 2 3 8 4 "good"].

End ShareStuffReviews.

(** ** SkillSwap: what every reachable store satisfies *)

Module SkillSwapInvariants.
Import SkillSwap.

Definition keys_ok (s : store) : Prop :=
  List.NoDup (List.map u_id (users s))
  /\ List.NoDup (List.map g_id (gigs s))
  /\ List.NoDup (List.map b_id (bids s))
  /\ List.NoDup (List.map t_id (tasks s))
  /\ List.NoDup (List.map p_id (portfolio s)).

Definition bid_ok (b : bid) : Prop :=
  (0 < b_amount b)%Q
  /\ In (b_status b) ["pending"; "accepted"; "rejected"].

Definition one_bid_per_bidder (s : store) : Prop :=
  List.NoDup (List.map (fun b => (b_gig_id b, b_bidder_id b)) (bids s)).

Definition gig_ok (g : gig) : Prop :=
  g_budget_type g = "fixed" ->
  exists a, g_budget_amount g = Some a /\ (0 < a)%Q.

(** A task stands on the bid it was created from and on the gig of that
    bid. *)
Definition task_ok (s : store) (t : task) : Prop :=
  In (t_status t) ["in_progress"; "pending_review"; "completed"]
  /\ (0 < t_amount t)%Q
  /\ exists b g,
      In b (bids s) /\ In g (gigs s)
      /\ b_id b = t_bid_id t /\ b_gig_id b = t_gig_id t
      /\ g_id g = t_gig_id t
      /\ b_bidder_id b = t_freelancer_id t
      /\ g_user_id g = t_client_id t
      /\ b_amount b = t_amount t
      /\ b_status b <> "pending".

Definition user_ok (u : user) : Prop :=
  (exists q, u_rating u = Some q /\ (0 <= q)%Q /\ (q <= 5)%Q)
  /\ 0 <= u_completed_tasks u
  /\ (0 <= u_total_earnings u)%Q.

(** The change [complete_task] makes to the row of the task. *)
Definition task_change (now : Z) (review : option string) (f : task -> task)
  : Prop :=
  (exists r, f = set_t_review r review)
  \/ f = set_t_completed now
  \/ f = set_t_status "pending_review".

Definition bids_carried (bs bs' : list bid) : Prop :=
  forall b, In b bs ->
    exists b', In b' bs' /\ b_id b' = b_id b /\ b_gig_id b' = b_gig_id b
               /\ b_bidder_id b' = b_bidder_id b /\ b_amount b' = b_amount b
               /\ (b_status b <> "pending" -> b_status b' <> "pending").

Definition gigs_carried (gs gs' : list gig) : Prop :=
  forall g, In g gs ->
    exists g', In g' gs' /\ g_id g' = g_id g /\ g_user_id g' = g_user_id g.

(** Everything the functions of the application maintain. *)
Definition store_ok (s : store) : Prop :=
  keys_ok s
  /\ List.Forall bid_ok (bids s)
  /\ one_bid_per_bidder s
  /\ List.Forall gig_ok (gigs s)
  /\ List.Forall (task_ok s) (tasks s)
  /\ List.Forall user_ok (users s).

(** The client of task 1 reviews bob's work with four stars. *)
Definition demo_rated : store :=
  snd (complete_task 90000 1 1 (Some 4) (Some "great") demo_review).

(** The client of task 1 confirms bob's work without a rating. *)
Definition demo_done : store :=
  snd (complete_task 90000 1 1 None None demo_review).

End SkillSwapInvariants.

(** ** Regular expressions, as far as the validators use them *)

(** The patterns of [validate_password] and [validate_email] are built from
    character classes, concatenation and repetition.  [re_match] decides
    whether a whole string belongs to the pattern, by derivatives. *)
Inductive regex : Type :=
| Eps : regex
| Cls : (ascii -> bool) -> regex
| Seq : regex -> regex -> regex
| Alt : regex -> regex -> regex
| Star : regex -> regex.

Fixpoint nullable (r : regex) : bool :=
  match r with
  | Eps => true
  | Cls _ => false
  | Seq r1 r2 => nullable r1 && nullable r2
  | Alt r1 r2 => nullable r1 || nullable r2
  | Star _ => true
  end.

(** The derivatives of [r] by [c]: together they match the strings [s]
    such that [r] matches [c :: s]. *)
Fixpoint deriv (c : ascii) (r : regex) : list regex :=
  match r with
  | Eps => []
  | Cls p => if p c then [Eps] else []
  | Seq r1 r2 =>
    List.map (fun d => Seq d r2) (deriv c r1)
    ++ (if nullable r1 then deriv c r2 else [])
  | Alt r1 r2 => deriv c r1 ++ deriv c r2
  | Star r1 => List.map (fun d => Seq d (Star r1)) (deriv c r1)
  end.

Fixpoint re_match_any (rs : list regex) (s : list ascii) : bool :=
  match s with
  | [] => List.existsb nullable rs
  | c :: s' => re_match_any (List.flat_map (deriv c) rs) s'
  end.

Definition re_match (r : regex) (s : list ascii) : bool := re_match_any [r] s.

(** The strings a pattern matches. *)
Inductive lang : regex -> list ascii -> Prop :=
| lang_eps : lang Eps []
| lang_cls : forall p c, p c = true -> lang (Cls p) [c]
| lang_seq : forall r1 r2 s1 s2,
    lang r1 s1 -> lang r2 s2 -> lang (Seq r1 r2) (s1 ++ s2)
| lang_alt_l : forall r1 r2 s, lang r1 s -> lang (Alt r1 r2) s
| lang_alt_r : forall r1 r2 s, lang r2 s -> lang (Alt r1 r2) s
| lang_star_nil : forall r, lang (Star r) []
| lang_star_cons : forall r s1 s2,
    lang r s1 -> lang (Star r) s2 -> lang (Star r) (s1 ++ s2).

(** ** SkillSwap: accounts *)

Module SkillSwapAccounts.

Definition in_range (lo hi c : ascii) : bool :=
  ((nat_of_ascii lo <=? nat_of_ascii c)
   && (nat_of_ascii c <=? nat_of_ascii hi))%nat.

Definition one_of (cs : string) (c : ascii) : bool :=
  List.existsb (Ascii.eqb c) (list_ascii_of_string cs).

Definition is_upper (c : ascii) : bool := in_range "A" "Z" c.
Definition is_lower (c : ascii) : bool := in_range "a" "z" c.
Definition is_digit (c : ascii) : bool := in_range "0" "9" c.
Definition is_letter (c : ascii) : bool := is_lower c || is_upper c.
Definition is_alnum (c : ascii) : bool := is_letter c || is_digit c.

(** The class of the last rule of [validate_password]; the double quote is
    character 34. *)
Definition is_special (c : ascii) : bool :=
  one_of "!@#$%^&*(),.?:{}|<>" c || Ascii.eqb c (ascii_of_nat 34).

(** [re.search] with a pattern that is one character class.  Strings are
    sequences of 8-bit characters: the model follows Python on ASCII text
    (on other text [len] counts code points and [\d] also matches the other
    Unicode digits). *)
Definition re_search_class (p : ascii -> bool) (s : string) : bool :=
  List.existsb p (list_ascii_of_string s).

Definition validate_password (password : string) : bool * string :=
  if (String.length password <? 8)%nat
  then (false, "Password must be at least 8 characters long")
  else if negb (re_search_class is_upper password)
  then (false, "Password must contain at least one uppercase letter")
  else if negb (re_search_class is_lower password)
  then (false, "Password must contain at least one lowercase letter")
  else if negb (re_search_class is_digit password)
  then (false, "Password must contain at least one digit")
  else if negb (re_search_class is_special password)
  then (false, "Password must contain at least one special character")
  else (true, "").

Definition plus (r : regex) : regex := Seq r (Star r).

Definition newline : ascii := ascii_of_nat 10.

(** [$] without the MULTILINE flag: the end of the string, or just before a
    newline that ends the string. *)
Definition dollar : regex := Alt Eps (Cls (Ascii.eqb newline)).

Definition local_class (c : ascii) : bool := is_alnum c || one_of "._%+-" c.
Definition domain_class (c : ascii) : bool := is_alnum c || one_of ".-" c.

(** [^[a-zA-Z0-9._%+-]+@[a-zA-Z0-9.-]+\.[a-zA-Z]{2,}$] *)
Definition email_pattern : regex :=
  Seq (plus (Cls local_class))
      (Seq (Cls (Ascii.eqb "@"))
           (Seq (plus (Cls domain_class))
                (Seq (Cls (Ascii.eqb "."))
                     (Seq (Cls is_letter)
                          (Seq (Cls is_letter)
                               (Seq (Star (Cls is_letter)) dollar)))))).

(** [re.match(pattern, email) is not None] *)
Definition validate_email (email : string) : bool :=
  re_match email_pattern (list_ascii_of_string email).

(** The full row of [users]. *)
Record account := mkAccount {
  a_id : Z;
  a_username : string;
  a_email : string;
  a_password_hash : string;
  a_university : string;
  a_major : string;
  a_skills : string;
  a_bio : string;
  a_rating : Q;
  a_completed_tasks : Z;
  a_total_earnings : Q;
  a_is_verified : Z
}.

Section Hashing.
Variable hash_password : string -> string.

Definition register_user (username email password university major skills
                          bio : string) (accounts : list account)
  : (bool * string) * list account :=
  (* Validate email *)
  if negb (validate_email email)
  then ((false, "Invalid email format"), accounts)
  else
    (* Validate password *)
    let '(is_valid, msg) := validate_password password in
    if negb is_valid then ((false, msg), accounts)
    else
      (* Check if username or email already exists *)
      match fetchone (fun a => String.eqb (a_username a) username
                               || String.eqb (a_email a) email) accounts with
      | Some _ => ((false, "Username or email already exists"), accounts)
      | None =>
        ((true, "Registration successful!"),
         accounts
         ++ [mkAccount (next_id a_id accounts) username email
                       (hash_password password) university major skills bio
                       0 0 0 0])
      end.

Definition login_user (email password : string) (accounts : list account)
  : option account :=
  fetchone (fun a => String.eqb (a_email a) email
                     && String.eqb (a_password_hash a)
                                   (hash_password password))
           accounts.

End Hashing.

(** The columns of an account that the gig functions read. *)
Definition to_user (a : account) : SkillSwap.user :=
  SkillSwap.mkUser (a_id a) (a_username a) (Some (a_skills a))
                   (Some (a_rating a)) (a_completed_tasks a)
                   (a_total_earnings a).

End SkillSwapAccounts.

(** ** SkillSwap: messages *)

Module SkillSwapMessages.
Import SkillSwap.

Record message := mkMessage {
  msg_id : Z;
  msg_sender_id : Z;
  msg_receiver_id : Z;
  msg_task_id : option Z;
  msg_text : string;
  msg_is_read : Z;
  msg_created_at : Z
}.

(** The gig store together with the [messages] table. *)
Record mailbox := mkMailbox {
  db : store;
  messages : list message
}.

Definition set_msg_read (m : message) : message :=
  mkMessage (msg_id m) (msg_sender_id m) (msg_receiver_id m) (msg_task_id m)
            (msg_text m) 1 (msg_created_at m).

(** [now] is the reading of CURRENT_TIMESTAMP during the call. *)
Definition send_message (now : Z) (sender_id receiver_id : Z)
    (task_id : option Z) (text : string) (mb : mailbox) : result * mailbox :=
  if negb (truthy (py_strip text))
  then ((false, "Message cannot be empty"), mb)
  else ((true, "Message sent!"),
        mkMailbox (db mb)
                  (messages mb
                   ++ [mkMessage (next_id msg_id (messages mb)) sender_id
                                 receiver_id task_id text 0 now])).

(** Python truthiness of an optional integer argument. *)
Definition id_given (o : option Z) : bool :=
  match o with
  | Some n => negb (n =? 0)
  | None => false
  end.

Definition same_id (o : option Z) (n : Z) : bool :=
  match o with
  | Some k => k =? n
  | None => false
  end.

(** The WHERE clause [get_user_messages] builds. *)
Definition message_selected (user_id : Z) (other_user_id task_id : option Z)
    (m : message) : bool :=
  ((msg_sender_id m =? user_id) || (msg_receiver_id m =? user_id))
  && (if id_given other_user_id
      then same_id other_user_id (msg_sender_id m)
           || same_id other_user_id (msg_receiver_id m)
      else true)
  && (if id_given task_id
      then match msg_task_id m, task_id with
           | Some k, Some n => k =? n
           | _, _ => false
           end
      else true).

(** [LEFT JOIN tasks t ON m.task_id = t.id LEFT JOIN gigs g ON
    t.gig_id = g.id]: the titles joined to one message. *)
Definition task_titles (s : store) (m : message) : list (option string) :=
  match List.filter (fun t => same_id (msg_task_id m) (t_id t)) (tasks s) with
  | [] => [None]
  | ts =>
    List.flat_map
      (fun t =>
         match List.filter (fun g => g_id g =? t_gig_id t) (gigs s) with
         | [] => [None]
         | gs => List.map (fun g => Some (g_title g)) gs
         end)
      ts
  end.

(** One row of the frame: the message, [sender_name], [receiver_name],
    [task_title]. *)
Definition message_row : Type := message * string * string * option string.

Definition row_message (r : message_row) : message := fst (fst (fst r)).

Definition message_rows (user_id : Z) (other_user_id task_id : option Z)
    (mb : mailbox) : list message_row :=
  sorted_desc (fun r => - msg_created_at (row_message r))
    (List.flat_map
       (fun m =>
          List.flat_map
            (fun s =>
               List.flat_map
                 (fun r =>
                    List.map (fun title =>
                                (m, u_username s, u_username r, title))
                             (task_titles (db mb) m))
                 (List.filter (fun r => u_id r =? msg_receiver_id m)
                              (users (db mb))))
            (List.filter (fun s => u_id s =? msg_sender_id m)
                         (users (db mb))))
       (List.filter (message_selected user_id other_user_id task_id)
                    (messages mb))).

Definition get_user_messages (user_id : Z) (other_user_id task_id : option Z)
    (mb : mailbox) : list message_row * mailbox :=
  let df := message_rows user_id other_user_id task_id mb in
  (* Mark messages as read *)
  match df with
  | [] => (df, mb)
  | _ :: _ =>
    (df,
     mkMailbox (db mb)
               (update_where (fun m => (msg_receiver_id m =? user_id)
                                       && (msg_is_read m =? 0))
                             set_msg_read (messages mb)))
  end.

Definition get_unread_message_count (user_id : Z) (mb : mailbox) : Z :=
  Z.of_nat (count_where (fun m => (msg_receiver_id m =? user_id)
                                  && (msg_is_read m =? 0)) (messages mb)).

End SkillSwapMessages.

(** * Proofs *)

(** Destruct the scrutinees of the goal's matches, outermost first. *)
Ltac split_matches :=
  repeat match goal with
         | |- context [match ?x with _ => _ end] => destruct x eqn:?
         end.

Section ListFacts.
Context {A : Type}.

Lemma firstn_in n (l : list A) y : In y (List.firstn n l) -> In y l.
Proof.
  revert n. induction l as [|x l IH]; intros [|n]; simpl; try tauto.
  intros [->|Hy]; [left; reflexivity|right; exact (IH n Hy)].
Qed.

Lemma filter_firstn_prefix (p : A -> bool) n l :
  exists rest,
    List.filter p l = List.filter p (List.firstn n l) ++ rest.
Proof.
  exists (List.filter p (List.skipn n l)).
  rewrite <- List.filter_app, List.firstn_skipn. reflexivity.
Qed.
End ListFacts.

Section SortDescFacts.
Context {A : Type}.
Variable key : A -> Z.

Lemma insert_desc_in x y l :
  In y (insert_desc key x l) <-> y = x \/ In y l.
Proof.
  induction l as [|z l IH]; simpl.
  - intuition.
  - destruct (key x <? key z); simpl; rewrite ?IH; intuition.
Qed.

Lemma sorted_desc_in y l : In y (sorted_desc key l) <-> In y l.
Proof.
  induction l as [|x l IH]; simpl; [reflexivity|].
  rewrite insert_desc_in, IH. intuition.
Qed.

Lemma insert_desc_sorted x l :
  StronglySorted (desc key) l -> StronglySorted (desc key) (insert_desc key x l).
Proof.
  induction 1 as [|z l Hs IH Hall]; simpl.
  - constructor; constructor.
  - destruct (Z.ltb_spec (key x) (key z)) as [Hlt|Hge].
    + constructor; [exact IH|].
      apply List.Forall_forall. intros y Hy.
      apply insert_desc_in in Hy. destruct Hy as [->|Hy].
      * unfold desc. lia.
      * rewrite List.Forall_forall in Hall. apply Hall. exact Hy.
    + constructor; [constructor; assumption|].
      constructor; [unfold desc; lia|].
      eapply List.Forall_impl; [|exact Hall].
      intros y Hy. unfold desc in *. lia.
Qed.

Lemma sorted_desc_sorted l : StronglySorted (desc key) (sorted_desc key l).
Proof.
  induction l as [|x l IH]; simpl; [constructor|].
  apply insert_desc_sorted. exact IH.
Qed.

(** Stability: among the elements of one key the order is kept. *)
Lemma filter_insert_desc v x l :
  List.filter (fun y => key y =? v) (insert_desc key x l) =
  List.filter (fun y => key y =? v) (x :: l).
Proof.
  induction l as [|z l IH]; [reflexivity|].
  simpl insert_desc.
  destruct (Z.ltb_spec (key x) (key z)) as [Hlt|Hge]; [|reflexivity].
  simpl in *. rewrite IH.
  destruct (Z.eqb_spec (key x) v), (Z.eqb_spec (key z) v);
    try reflexivity; lia.
Qed.

Lemma filter_sorted_desc v l :
  List.filter (fun y => key y =? v) (sorted_desc key l) =
  List.filter (fun y => key y =? v) l.
Proof.
  induction l as [|x l IH]; [reflexivity|].
  simpl sorted_desc. rewrite filter_insert_desc. simpl. rewrite IH.
  reflexivity.
Qed.

Lemma firstn_sorted n l :
  StronglySorted (desc key) l -> StronglySorted (desc key) (List.firstn n l).
Proof.
  intros Hs. revert n.
  induction Hs as [|x l Hs IH Hall]; intros [|n]; simpl; try constructor.
  - apply IH.
  - apply List.Forall_forall. intros y Hy.
    rewrite List.Forall_forall in Hall. apply Hall.
    exact (firstn_in n l y Hy).
Qed.

End SortDescFacts.

Section TableFacts.
Context {row : Type}.
Variable key : row -> Z.
Implicit Types (t : list row) (p q : row -> bool) (f g : row -> row).

Lemma fetchone_some p t r :
  fetchone p t = Some r -> In r t /\ p r = true.
Proof. apply List.find_some. Qed.

Lemma fetchone_none p t r :
  fetchone p t = None -> In r t -> p r = false.
Proof. intros H Hin. exact (List.find_none p t H r Hin). Qed.

Lemma fetchone_app p t t' :
  fetchone p (t ++ t') =
  match fetchone p t with Some r => Some r | None => fetchone p t' end.
Proof.
  induction t as [|r t IH]; simpl; [reflexivity|].
  destruct (p r); [reflexivity|exact IH].
Qed.

Lemma fetchone_map_key g k t :
  (forall r, key (g r) = key r) ->
  fetchone (fun r => key r =? k) (List.map g t) =
  option_map g (fetchone (fun r => key r =? k) t).
Proof.
  intros Hg. induction t as [|r t IH]; simpl; [reflexivity|].
  rewrite Hg. destruct (key r =? k); [reflexivity|exact IH].
Qed.

Lemma fetchone_update_where q f k t :
  (forall r, key (f r) = key r) ->
  fetchone (fun r => key r =? k) (update_where q f t) =
  option_map (fun r => if q r then f r else r)
             (fetchone (fun r => key r =? k) t).
Proof.
  intros Hf. unfold update_where. apply fetchone_map_key.
  intros r. destruct (q r); [apply Hf|reflexivity].
Qed.

Lemma keys_update_where q f t :
  (forall r, key (f r) = key r) ->
  List.map key (update_where q f t) = List.map key t.
Proof.
  intros Hf. unfold update_where. rewrite List.map_map.
  apply List.map_ext. intros r. destruct (q r); [apply Hf|reflexivity].
Qed.

Lemma in_update_where q f t r' :
  In r' (update_where q f t) ->
  exists r, In r t /\ r' = if q r then f r else r.
Proof.
  unfold update_where. rewrite List.in_map_iff.
  intros [r [E Hin]]. exists r. split; [exact Hin|symmetry; exact E].
Qed.

Lemma count_where_app p t t' :
  count_where p (t ++ t') = (count_where p t + count_where p t')%nat.
Proof. unfold count_where. rewrite List.filter_app. apply List.length_app. Qed.

Lemma count_where_map p g t :
  count_where p (List.map g t) = count_where (fun r => p (g r)) t.
Proof.
  unfold count_where. induction t as [|r t IH]; simpl; [reflexivity|].
  destruct (p (g r)); simpl; congruence.
Qed.

Lemma count_where_ext p q t :
  (forall r, In r t -> p r = q r) -> count_where p t = count_where q t.
Proof.
  unfold count_where. intros H. f_equal. apply List.filter_ext_in. exact H.
Qed.

Lemma count_where_none p t :
  (forall r, In r t -> p r = false) -> count_where p t = 0%nat.
Proof.
  intros H. unfold count_where.
  induction t as [|r t IH]; simpl; [reflexivity|].
  rewrite (H r (or_introl eq_refl)). apply IH.
  intros r' Hr'. apply H. right. exact Hr'.
Qed.

Lemma count_key_le_1 k t :
  List.NoDup (List.map key t) ->
  (count_where (fun r => (key r =? k)%Z) t <= 1)%nat.
Proof.
  induction t as [|r t IH]; simpl; intros Hnd; [unfold count_where; simpl; lia|].
  inversion Hnd as [|x l Hnotin Hnd']; subst.
  unfold count_where in *. simpl.
  destruct (Z.eqb_spec (key r) k) as [E|NE]; [|apply IH; exact Hnd'].
  simpl. fold (count_where (fun r => key r =? k) t).
  rewrite count_where_none; [lia|].
  intros r' Hr'. apply Z.eqb_neq. intros E'. apply Hnotin.
  rewrite E, <- E'. apply List.in_map. exact Hr'.
Qed.

Lemma count_key_present k t r :
  List.NoDup (List.map key t) -> In r t -> key r = k ->
  count_where (fun r => key r =? k) t = 1%nat.
Proof.
  intros Hnd Hin Hk.
  pose proof (count_key_le_1 k t Hnd) as Hle.
  assert (0 < count_where (fun r => (key r =? k)%Z) t)%nat; [|lia].
  unfold count_where.
  assert (Hf : In r (List.filter (fun r => key r =? k) t)).
  { apply List.filter_In. split; [exact Hin|apply Z.eqb_eq; exact Hk]. }
  destruct (List.filter (fun r => key r =? k) t); [destruct Hf|simpl; lia].
Qed.

Lemma keyed_unique t r r' :
  List.NoDup (List.map key t) -> In r t -> In r' t -> key r = key r' ->
  r = r'.
Proof.
  induction t as [|x t IH]; simpl; intros Hnd Hr Hr' E; [destruct Hr|].
  inversion Hnd as [|y l Hnotin Hnd']; subst.
  destruct Hr as [->|Hr], Hr' as [->|Hr'].
  - reflexivity.
  - exfalso. apply Hnotin. rewrite E. apply List.in_map. exact Hr'.
  - exfalso. apply Hnotin. rewrite <- E. apply List.in_map. exact Hr.
  - apply IH; assumption.
Qed.

Lemma next_id_above t r : In r t -> key r < next_id key t.
Proof.
  unfold next_id. induction t as [|x t IH]; simpl; intros Hin; [destruct Hin|].
  destruct Hin as [->|Hin]; [lia|]. specialize (IH Hin). lia.
Qed.

Lemma keyed_insert t r :
  List.NoDup (List.map key t) -> key r = next_id key t ->
  List.NoDup (List.map key (t ++ [r])).
Proof.
  intros Hnd Hk. rewrite List.map_app. simpl.
  apply List.NoDup_app.
  - exact Hnd.
  - constructor; [intros []|constructor].
  - intros k Hin [<-|[]].
    apply List.in_map_iff in Hin. destruct Hin as [x [E Hx]].
    pose proof (next_id_above t x Hx). lia.
Qed.
End TableFacts.

(** ** SkillSwap *)

Module SkillSwapProofs.
Import SkillSwap.

Lemma set_b_status_id st b : b_id (set_b_status st b) = b_id b.
Proof. reflexivity. Qed.

Lemma set_g_status_id st g : g_id (set_g_status st g) = g_id g.
Proof. reflexivity. Qed.

Lemma settle_id B G b : b_id (settle B G b) = b_id b.
Proof. unfold settle. split_matches; reflexivity. Qed.

Lemma settle_gig B G b : b_gig_id (settle B G b) = b_gig_id b.
Proof. unfold settle. split_matches; reflexivity. Qed.

Lemma accept_bid_inv B s :
  fst (fst (accept_bid B s)) = true ->
  exists bid gig,
    fetchone (fun b => b_id b =? B) (bids s) = Some bid
    /\ fetchone (fun g => g_id g =? b_gig_id bid) (gigs s) = Some gig
    /\ accept_bid B s =
       ((true, "Bid accepted! Task has started."),
        mkStore (users s)
                (update_where (fun g => g_id g =? b_gig_id bid)
                              (set_g_status "in_progress") (gigs s))
                (List.map (settle B (b_gig_id bid)) (bids s))
                (tasks s ++ [mkTask (next_id t_id (tasks s)) (b_gig_id bid) B
                                    (g_user_id gig) (b_bidder_id bid)
                                    (b_amount bid) "in_progress"
                                    None None None])
                (portfolio s)).
Proof.
  unfold accept_bid.
  destruct (fetchone (fun b => b_id b =? B) (bids s)) as [bid|] eqn:Hb;
    [|discriminate].
  destruct (fetchone (fun g => g_id g =? b_gig_id bid) (gigs s))
    as [gig|] eqn:Hg; [|discriminate].
  intros _. exists bid, gig. split; [reflexivity|]. split; [exact Hg|].
  unfold update_where. rewrite List.map_map. reflexivity.
Qed.

Lemma settle_at_bid B G bid :
  b_id bid = B -> b_gig_id bid = G ->
  settle B G bid = set_b_status "accepted" bid.
Proof.
  intros HB HG. unfold settle. rewrite HB, Z.eqb_refl. cbn.
  rewrite HB, Z.eqb_refl, andb_false_r. reflexivity.
Qed.

Lemma settle_at_rival B G b :
  b_id b <> B -> b_gig_id b = G ->
  settle B G b = set_b_status "rejected" b.
Proof.
  intros HB HG. unfold settle. apply Z.eqb_neq in HB. rewrite HB. cbn.
  rewrite HB, HG, Z.eqb_refl. reflexivity.
Qed.

Lemma settle_elsewhere B G b :
  b_id b <> B -> b_gig_id b <> G -> settle B G b = b.
Proof.
  intros HB HG. unfold settle. apply Z.eqb_neq in HB, HG. rewrite HB. cbn.
  rewrite HG. reflexivity.
Qed.

Lemma settle_accepted_same B G bid l b :
  List.NoDup (List.map b_id l) -> In bid l -> b_id bid = B ->
  b_gig_id bid = G -> In b l ->
  is_accepted_on G (settle B G b) = (b_id b =? B).
Proof.
  intros Hnd Hbid HB HG Hin.
  destruct (Z.eqb_spec (b_id b) B) as [E|NE].
  - assert (b = bid) by (eapply (keyed_unique b_id); eauto; congruence).
    subst b. rewrite settle_at_bid by assumption.
    unfold is_accepted_on. cbn. rewrite HG, Z.eqb_refl. reflexivity.
  - destruct (Z.eq_dec (b_gig_id b) G) as [E'|NE'].
    + rewrite settle_at_rival by assumption.
      unfold is_accepted_on. cbn. apply andb_false_r.
    + rewrite settle_elsewhere by assumption.
      unfold is_accepted_on. apply Z.eqb_neq in NE'. rewrite NE'.
      reflexivity.
Qed.

Lemma settle_accepted_other B G G' bid l b :
  List.NoDup (List.map b_id l) -> In bid l -> b_id bid = B ->
  b_gig_id bid = G -> G' <> G -> In b l ->
  is_accepted_on G' (settle B G b) = is_accepted_on G' b.
Proof.
  intros Hnd Hbid HB HG HG' Hin.
  destruct (Z.eq_dec (b_id b) B) as [E|NE].
  - assert (b = bid) by (eapply (keyed_unique b_id); eauto; congruence).
    subst b. rewrite settle_at_bid by assumption.
    unfold is_accepted_on. cbn.
    assert (Hne : (b_gig_id bid =? G') = false) by (apply Z.eqb_neq; congruence).
    rewrite Hne. reflexivity.
  - destruct (Z.eq_dec (b_gig_id b) G) as [E'|NE'].
    + rewrite settle_at_rival by assumption.
      unfold is_accepted_on. cbn.
      assert (Hne : (b_gig_id b =? G') = false) by (apply Z.eqb_neq; congruence).
      rewrite Hne. reflexivity.
    + rewrite settle_elsewhere by assumption. reflexivity.
Qed.

Lemma place_bid_bids gid bidder amount et prop s :
  bids (snd (place_bid gid bidder amount et prop s)) = bids s
  \/ bids (snd (place_bid gid bidder amount et prop s)) =
     bids s ++ [mkBid (next_id b_id (bids s)) gid bidder amount et prop
                      "pending"].
Proof. unfold place_bid. split_matches; simpl; auto. Qed.

Lemma complete_task_bids now tid uid rating review s :
  bids (snd (complete_task now tid uid rating review s)) = bids s.
Proof. unfold complete_task. split_matches; reflexivity. Qed.

Lemma create_gig_bids uid title descr cat bt ba urg s :
  bids (snd (create_gig uid title descr cat bt ba urg s)) = bids s.
Proof. unfold create_gig. split_matches; reflexivity. Qed.

Lemma accept_bid_bids_inv B s : bids_inv s -> bids_inv (snd (accept_bid B s)).
Proof.
  intros [Hk Hc].
  destruct (fst (fst (accept_bid B s))) eqn:Hok.
  - destruct (accept_bid_inv B s Hok) as [bid [gig [Hb [Hg ->]]]].
    cbn [snd bids].
    apply (fetchone_some (row:=SkillSwap.bid)) in Hb. destruct Hb as [Hin HB]. apply Z.eqb_eq in HB.
    split.
    + unfold bids_keyed. simpl (bids _). rewrite List.map_map.
      erewrite List.map_ext; [exact Hk|]. intros b. apply settle_id.
    + intros G. simpl (bids _). rewrite count_where_map.
      destruct (Z.eq_dec G (b_gig_id bid)) as [->|NE].
      * erewrite count_where_ext.
        2:{ intros b Hb'.
            exact (settle_accepted_same B _ bid (bids s) b Hk Hin HB
                                        eq_refl Hb'). }
        apply count_key_le_1. exact Hk.
      * erewrite count_where_ext; [apply (Hc G)|].
        intros b Hb'.
        exact (settle_accepted_other B _ G bid (bids s) b Hk Hin HB
                                     eq_refl NE Hb').
  - unfold accept_bid in *. split_matches; simpl in *;
      try discriminate; split; assumption.
Qed.

Lemma step_bids_inv s s' : step s s' -> bids_inv s -> bids_inv s'.
Proof.
  intros Hstep Hinv. destruct Hstep.
  - exact Hinv.
  - unfold bids_inv, bids_keyed in *. rewrite create_gig_bids. exact Hinv.
  - exact Hinv.
  - destruct Hinv as [Hk Hc]. unfold bids_inv, bids_keyed.
    destruct (place_bid_bids gid bidder amount et prop s) as [-> | ->];
      [split; assumption|].
    split.
    + apply keyed_insert; [exact Hk|reflexivity].
    + intros G. rewrite count_where_app.
      unfold count_where at 2. unfold is_accepted_on at 2. simpl.
      rewrite andb_false_r. simpl. specialize (Hc G). lia.
  - apply accept_bid_bids_inv. exact Hinv.
  - unfold bids_inv, bids_keyed in *. rewrite complete_task_bids.
    exact Hinv.
Qed.

Lemma reachable_bids_inv s : reachable s -> bids_inv s.
Proof.
  induction 1 as [|s s' _ IH Hstep].
  - split; [constructor|]. intros G. unfold count_where. simpl. lia.
  - eapply step_bids_inv; eauto.
Qed.

Lemma demo_bids_reachable : reachable demo_bids.
Proof.
  unfold demo_bids, demo_gig, demo_users.
  repeat (eapply reachable_step; [|constructor]).
  apply reachable_init.
Qed.

Lemma demo_accepted_reachable : reachable demo_accepted.
Proof.
  eapply reachable_step; [exact demo_bids_reachable|constructor].
Qed.

Lemma accept_bid_accepted_state B s bid gig :
  bids_keyed s ->
  fetchone (fun b => b_id b =? B) (bids s) = Some bid ->
  fetchone (fun g => g_id g =? b_gig_id bid) (gigs s) = Some gig ->
  accepted_state B (b_gig_id bid)
    (mkStore (users s)
             (update_where (fun g => g_id g =? b_gig_id bid)
                           (set_g_status "in_progress") (gigs s))
             (List.map (settle B (b_gig_id bid)) (bids s))
             (tasks s ++ [mkTask (next_id t_id (tasks s)) (b_gig_id bid) B
                                 (g_user_id gig) (b_bidder_id bid)
                                 (b_amount bid) "in_progress"
                                 None None None])
             (portfolio s)).
Proof.
  intros Hk Hb Hg.
  apply (fetchone_some (row:=SkillSwap.bid)) in Hb as [Hin HB].
  apply Z.eqb_eq in HB.
  unfold accepted_state. simpl (bids _). simpl (gigs _).
  repeat apply conj.
  - rewrite count_where_map.
    erewrite count_where_ext.
    2:{ intros b Hb'.
        exact (settle_accepted_same B _ bid (bids s) b Hk Hin HB
                                    eq_refl Hb'). }
    exact (count_key_present b_id B (bids s) bid Hk Hin HB).
  - intros b' Hb' Hgig Hst.
    apply List.in_map_iff in Hb'. destruct Hb' as [b [<- Hb']].
    rewrite settle_id. rewrite settle_gig in Hgig.
    destruct (Z.eq_dec (b_id b) B) as [E|NE]; [exact E|].
    rewrite settle_at_rival in Hst by assumption. discriminate.
  - intros b' Hb' Hgig Hid.
    apply List.in_map_iff in Hb'. destruct Hb' as [b [<- Hb']].
    rewrite settle_id in Hid. rewrite settle_gig in Hgig.
    rewrite settle_at_rival by assumption. reflexivity.
  - rewrite (fetchone_update_where g_id) by (intros; reflexivity).
    rewrite Hg. cbn [option_map].
    apply (fetchone_some (row:=SkillSwap.gig)) in Hg as [_ Hid].
    rewrite Hid. eexists. split; reflexivity.
  - intros g' Hg' Hid.
    apply in_update_where in Hg'. destruct Hg' as [g [Hgin ->]].
    destruct (g_id g =? b_gig_id bid) eqn:E; [reflexivity|].
    apply Z.eqb_neq in E. contradiction.
Qed.

(** C1, as amended.  A successful [accept_bid B] on a store whose bid ids
    are unique leaves exactly one accepted bid on the gig of [B], namely [B];
    every other bid on that gig is rejected; the gig is in progress; and one
    task row referencing [B] is appended to [tasks], so that the number of
    tasks referencing [B] grows by exactly one.  In every reachable store the
    bid ids are unique and at most one bid per gig is accepted. *)
Theorem accept_bid_settles_gig :
  (forall s B,
      bids_keyed s -> fst (fst (accept_bid B s)) = true ->
      exists bid gig,
        fetchone (fun b => b_id b =? B) (bids s) = Some bid
        /\ fetchone (fun g => g_id g =? b_gig_id bid) (gigs s) = Some gig
        /\ accepted_state B (b_gig_id bid) (snd (accept_bid B s))
        /\ tasks (snd (accept_bid B s)) =
           tasks s ++ [mkTask (next_id t_id (tasks s)) (b_gig_id bid) B
                              (g_user_id gig) (b_bidder_id bid)
                              (b_amount bid) "in_progress" None None None]
        /\ tasks_referencing B (snd (accept_bid B s)) =
           S (tasks_referencing B s))
  /\ (forall s, reachable s ->
                bids_keyed s
                /\ forall G, (count_where (is_accepted_on G) (bids s) <= 1)%nat).
Proof.
  split.
  - intros s B Hk Hok.
    destruct (accept_bid_inv B s Hok) as [bid [gig [Hb [Hg Heq]]]].
    exists bid, gig. rewrite Heq. cbn [snd].
    split; [exact Hb|]. split; [exact Hg|].
    split; [apply accept_bid_accepted_state; assumption|].
    split; [reflexivity|].
    unfold tasks_referencing. simpl (tasks _).
    rewrite count_where_app. unfold count_where at 2. simpl.
    rewrite Z.eqb_refl. simpl. lia.
  - intros s Hr. exact (reachable_bids_inv s Hr).
Qed.

(** On the demo history: bid 1 of [demo_bids] is accepted, which settles
    gig 1 and creates the one task referencing the bid. *)
Lemma accept_bid_settles_gig_witness :
  bids_keyed demo_bids
  /\ fst (fst (accept_bid 1 demo_bids)) = true
  /\ accepted_state 1 1 demo_accepted
  /\ tasks_referencing 1 demo_accepted = 1%nat
  /\ (count_where (is_accepted_on 1) (bids demo_accepted) <= 1)%nat.
Proof.
  assert (Hk : bids_keyed demo_bids).
  { exact (proj1 (proj2 accept_bid_settles_gig demo_bids
                              demo_bids_reachable)). }
  assert (Hok : fst (fst (accept_bid 1 demo_bids)) = true)
    by (vm_compute; reflexivity).
  split; [exact Hk|]. split; [exact Hok|].
  destruct (proj1 accept_bid_settles_gig demo_bids 1 Hk Hok)
    as [bid [gig [Hb [_ [Hstate [_ Hn]]]]]].
  vm_compute in Hb. injection Hb as <-.
  split; [exact Hstate|]. split.
  - unfold demo_accepted. rewrite Hn. vm_compute. reflexivity.
  - exact (proj2 (proj2 accept_bid_settles_gig demo_accepted
                        demo_accepted_reachable) 1).
Defined.

(** C1 as stated does not hold: in the reachable store [demo_accepted] bid 1
    is already accepted, accepting it again succeeds, and two task rows
    reference it afterwards. *)
Lemma accept_bid_claim_fails : ~ accept_bid_claim.
Proof.
  intros H.
  destruct (H demo_accepted 1 demo_accepted_reachable) as [G [_ Hn]].
  - vm_compute. reflexivity.
  - vm_compute in Hn. discriminate Hn.
Qed.

(** C8 as stated does not hold: in [demo_accepted] the gig is in progress
    because bid 1 was accepted, and [accept_bid 2] still succeeds. *)
Lemma accept_bid_open_claim_fails : ~ accept_bid_open_claim.
Proof.
  intros H.
  destruct (H demo_accepted 2
              (mkBid 2 1 3 120%Q "3 days" "me too" "rejected")
              (mkGig 1 1 "Logo" "Draw a logo" "Design" "fixed"
                     (Some 100%Q) "in_progress")) as [Hf _].
  - vm_compute. reflexivity.
  - vm_compute. reflexivity.
  - discriminate.
  - vm_compute in Hf. discriminate Hf.
Qed.

(** C8, as amended.  [accept_bid] checks that the bid row exists and that
    the gig row it references exists, and nothing else: it succeeds exactly
    in that case, whatever the status of the gig.  When it fails the store is
    unchanged (no task is created, no bid or gig status is modified); when
    it succeeds one more task references the bid. *)
Theorem accept_bid_validates_existence s B :
  (fst (fst (accept_bid B s)) = true <->
   exists bid gig,
     fetchone (fun b => b_id b =? B) (bids s) = Some bid
     /\ fetchone (fun g => g_id g =? b_gig_id bid) (gigs s) = Some gig)
  /\ (fst (fst (accept_bid B s)) = false -> snd (accept_bid B s) = s)
  /\ (fst (fst (accept_bid B s)) = true ->
      tasks_referencing B (snd (accept_bid B s)) =
      S (tasks_referencing B s)).
Proof.
  split; [split|split].
  - intros Hok. destruct (accept_bid_inv B s Hok) as [bid [gig [Hb [Hg _]]]].
    exists bid, gig. split; assumption.
  - intros [bid [gig [Hb Hg]]]. unfold accept_bid. rewrite Hb, Hg.
    reflexivity.
  - unfold accept_bid. split_matches; simpl; intros; congruence.
  - intros Hok.
    destruct (accept_bid_inv B s Hok) as [bid [gig [_ [_ ->]]]].
    unfold tasks_referencing. simpl (tasks _).
    rewrite count_where_app. unfold count_where at 2. simpl.
    rewrite Z.eqb_refl. simpl. lia.
Qed.

(** On the demo history: there is no bid 7, so accepting it changes nothing;
    bid 2 exists and is accepted although its gig is already in progress. *)
Lemma accept_bid_validates_existence_witness :
  fst (fst (accept_bid 7 demo_accepted)) = false
  /\ snd (accept_bid 7 demo_accepted) = demo_accepted
  /\ tasks_referencing 2 (snd (accept_bid 2 demo_accepted)) = 1%nat.
Proof.
  assert (Hf : fst (fst (accept_bid 7 demo_accepted)) = false)
    by (vm_compute; reflexivity).
  assert (Ht : fst (fst (accept_bid 2 demo_accepted)) = true)
    by (vm_compute; reflexivity).
  split; [exact Hf|]. split.
  - exact (proj1 (proj2 (accept_bid_validates_existence demo_accepted 7)) Hf).
  - rewrite (proj2 (proj2 (accept_bid_validates_existence demo_accepted 2)) Ht).
    vm_compute. reflexivity.
Defined.

Lemma complete_task_client_review now tid r review s tsk :
  fetchone (fun t => t_id t =? tid) (tasks s) = Some tsk ->
  t_status tsk = "pending_review" -> 1 <= r <= 5 ->
  complete_task now tid (t_client_id tsk) (Some r) review s =
  ((true, "Task updated successfully!"),
   completion_effects tsk tid (Some r)
     (update_where (fun t => t_id t =? tid) (set_t_review r review)
                   (tasks s)) s).
Proof.
  intros Ht Hst Hr. unfold complete_task. rewrite Ht. cbn zeta.
  rewrite Z.eqb_refl. cbn [orb negb].
  assert (E1 : (r <? 1) = false) by (apply Z.ltb_ge; lia).
  assert (E2 : (r >? 5) = false) by (rewrite Z.gtb_ltb; apply Z.ltb_ge; lia).
  rewrite E1, E2, Hst. reflexivity.
Qed.

Lemma complete_task_client_confirm now tid review s tsk :
  fetchone (fun t => t_id t =? tid) (tasks s) = Some tsk ->
  t_status tsk = "pending_review" ->
  complete_task now tid (t_client_id tsk) None review s =
  ((true, "Task updated successfully!"),
   completion_effects tsk tid None
     (update_where (fun t => t_id t =? tid) (set_t_completed now)
                   (tasks s)) s).
Proof.
  intros Ht Hst. unfold complete_task. rewrite Ht. cbn zeta.
  rewrite Z.eqb_refl. cbn [orb negb]. rewrite Hst. reflexivity.
Qed.

Lemma reward_id a r u : u_id (reward a r u) = u_id u.
Proof. reflexivity. Qed.

Lemma fetch_rewarded fid a r us u :
  fetchone (fun u => u_id u =? fid) us = Some u ->
  fetchone (fun u => u_id u =? fid)
           (update_where (fun u => u_id u =? fid) (reward a r) us) =
  Some (reward a r u).
Proof.
  intros Hu. rewrite (fetchone_update_where u_id) by (intros; reflexivity).
  rewrite Hu. cbn [option_map].
  apply (fetchone_some (row:=user)) in Hu as [_ ->]. reflexivity.
Qed.

Lemma reward_rating a r u q :
  u_rating u = Some q -> 0 <= u_completed_tasks u ->
  u_rating (reward a r u) =
  Some ((q * inject_Z (u_completed_tasks u) + inject_Z r)
        / inject_Z (u_completed_tasks u + 1))%Q.
Proof.
  intros Hq Hc. unfold reward. cbn [u_rating]. rewrite Hq. cbn [sql_mul sql_add sql_div].
  destruct (Qeq_bool (inject_Z (u_completed_tasks u + 1)) 0) eqn:E;
    [|reflexivity].
  apply Qeq_bool_iff in E. unfold Qeq in E. simpl in E. lia.
Qed.

(** C6.  When the client completes a task whose status is pending_review,
    with a rating from 1 to 5 or with none, the call succeeds and the
    freelancer's row gets the rating
    [(old_rating * old_completed + new_rating) / (old_completed + 1)], where
    [new_rating] is 5 when no rating is given; the completed-task count grows
    by one and the task amount is added to the total earnings.  The average
    uses the count from before the increment. *)
Theorem complete_task_rating_average now tid rating review s tsk u q :
  fetchone (fun t => t_id t =? tid) (tasks s) = Some tsk ->
  t_status tsk = "pending_review" ->
  (rating = None \/ exists r, rating = Some r /\ 1 <= r <= 5) ->
  fetchone (fun u => u_id u =? t_freelancer_id tsk) (users s) = Some u ->
  u_rating u = Some q -> 0 <= u_completed_tasks u ->
  let new_rating := match rating with Some r => r | None => 5 end in
  let out := complete_task now tid (t_client_id tsk) rating review s in
  fst (fst out) = true
  /\ exists u',
      fetchone (fun u => u_id u =? t_freelancer_id tsk) (users (snd out))
      = Some u'
      /\ u_rating u' =
         Some ((q * inject_Z (u_completed_tasks u) + inject_Z new_rating)
               / inject_Z (u_completed_tasks u + 1))%Q
      /\ u_completed_tasks u' = u_completed_tasks u + 1
      /\ u_total_earnings u' = (u_total_earnings u + t_amount tsk)%Q.
Proof.
  intros Ht Hst Hrating Hu Hq Hc new_rating out. subst out.
  assert (Hnew : rating_or_5 rating = new_rating).
  { destruct Hrating as [->|[r [-> Hr]]]; [reflexivity|].
    unfold rating_or_5, new_rating.
    destruct (Z.eqb_spec r 0); [lia|reflexivity]. }
  assert (Hout : complete_task now tid (t_client_id tsk) rating review s =
                 ((true, "Task updated successfully!"),
                  completion_effects tsk tid rating
                    (tasks (snd (complete_task now tid (t_client_id tsk)
                                               rating review s))) s)).
  { destruct Hrating as [->|[r [-> Hr]]].
    - rewrite (complete_task_client_confirm now tid review s tsk Ht Hst).
      reflexivity.
    - rewrite (complete_task_client_review now tid r review s tsk Ht Hst Hr).
      reflexivity. }
  rewrite Hout. cbn [fst snd]. split; [reflexivity|].
  exists (reward (t_amount tsk) new_rating u).
  unfold completion_effects. cbn [users]. rewrite Hnew.
  split; [apply fetch_rewarded; exact Hu|].
  split; [apply reward_rating; assumption|]. split; reflexivity.
Qed.

(** On the demo history: alice confirms task 1 without a rating, and bob,
    who had no completed task, gets the rating 5. *)
Lemma complete_task_rating_average_witness :
  let out := complete_task 90000 1 1 None None demo_review in
  fst (fst out) = true
  /\ exists u',
      fetchone (fun u => u_id u =? 2) (users (snd out)) = Some u'
      /\ u_rating u' =
         Some ((0 * inject_Z 0 + inject_Z 5) / inject_Z (0 + 1))%Q
      /\ u_completed_tasks u' = 0 + 1
      /\ u_total_earnings u' = (0 + 90)%Q.
Proof.
  exact (complete_task_rating_average
           90000 1 None None demo_review
           (mkTask 1 1 1 1 2 90%Q "pending_review" None None None)
           (mkUser 2 "bob" (Some "python") (Some 0%Q) 0 0%Q) 0%Q
           eq_refl eq_refl (or_introl eq_refl) eq_refl eq_refl
           ltac:(cbn; lia)).
Defined.

Lemma insert_portfolio_length rows tbl :
  List.length (insert_portfolio rows tbl) =
  (List.length tbl + List.length rows)%nat.
Proof.
  unfold insert_portfolio. revert tbl.
  induction rows as [|mk rows IH]; intros tbl; simpl; [lia|].
  rewrite IH, List.length_app. simpl. lia.
Qed.

Lemma insert_portfolio_keeps rows tbl p :
  In p tbl -> In p (insert_portfolio rows tbl).
Proof.
  unfold insert_portfolio. revert tbl.
  induction rows as [|mk rows IH]; intros tbl Hin; simpl; [exact Hin|].
  apply IH. apply List.in_or_app. left. exact Hin.
Qed.

Lemma insert_portfolio_adds rows tbl mk :
  In mk rows -> exists pid, In (mk pid) (insert_portfolio rows tbl).
Proof.
  revert tbl. induction rows as [|mk' rows IH]; intros tbl Hin;
    [destruct Hin|].
  destruct Hin as [->|Hin].
  - exists (next_id p_id tbl). unfold insert_portfolio. simpl.
    apply (insert_portfolio_keeps rows). apply List.in_or_app. right.
    left. reflexivity.
  - unfold insert_portfolio. simpl. apply IH. exact Hin.
Qed.

Lemma complete_task_tasks now tid uid rating review s tsk :
  fetchone (fun t => t_id t =? tid) (tasks s) = Some tsk ->
  let tasks' := tasks (snd (complete_task now tid uid rating review s)) in
  tasks' = tasks s
  \/ (exists r, tasks' = update_where (fun t => t_id t =? tid)
                                      (set_t_review r review) (tasks s))
  \/ (uid = t_client_id tsk /\ rating = None
      /\ tasks' = update_where (fun t => t_id t =? tid)
                               (set_t_completed now) (tasks s))
  \/ tasks' = update_where (fun t => t_id t =? tid)
                           (set_t_status "pending_review") (tasks s).
Proof.
  intros Ht. unfold complete_task. rewrite Ht. cbn zeta.
  destruct (Z.eqb_spec uid (t_client_id tsk)) as [E|NE].
  - cbn [orb negb]. destruct rating as [r|].
    + destruct ((r <? 1) || (r >? 5)); [left; reflexivity|].
      right. left. exists r. split_matches; reflexivity.
    + right. right. left. split; [exact E|]. split; [reflexivity|].
      split_matches; reflexivity.
  - cbn [orb]. destruct (uid =? t_freelancer_id tsk);
      cbn [negb]; [|left; reflexivity].
    right. right. right. rewrite andb_false_r. reflexivity.
Qed.

(** C9.  When the client calls [complete_task] with a rating from 1 to 5
    on a task whose status is pending_review, the call succeeds, stores the
    rating and the review on the task and leaves its status pending_review;
    the freelancer's statistics are updated, a portfolio row for the task is
    added when the gig exists, and the gig becomes completed.  A call moves a
    task to completed only if it is made by the client without a rating, and
    such a call does move it. *)
Theorem complete_task_review_leaves_status :
  (forall now tid r review s tsk,
      fetchone (fun t => t_id t =? tid) (tasks s) = Some tsk ->
      t_status tsk = "pending_review" -> 1 <= r <= 5 ->
      let out := complete_task now tid (t_client_id tsk) (Some r) review s in
      fst out = (true, "Task updated successfully!")
      /\ (exists t',
            fetchone (fun t => t_id t =? tid) (tasks (snd out)) = Some t'
            /\ t_status t' = "pending_review"
            /\ t_client_rating t' = Some r
            /\ t_client_review t' = review)
      /\ (forall u,
            fetchone (fun u => u_id u =? t_freelancer_id tsk) (users s)
            = Some u ->
            exists u',
              fetchone (fun u => u_id u =? t_freelancer_id tsk)
                       (users (snd out)) = Some u'
              /\ u_completed_tasks u' = u_completed_tasks u + 1
              /\ u_total_earnings u' = (u_total_earnings u + t_amount tsk)%Q)
      /\ (forall g,
            In g (gigs s) -> g_id g = t_gig_id tsk ->
            (List.length (portfolio s) < List.length (portfolio (snd out)))%nat
            /\ exists p,
                In p (portfolio (snd out))
                /\ p_task_id p = tid
                /\ p_user_id p = t_freelancer_id tsk
                /\ p_title p = g_title g
                /\ p_rating p = Some r
                /\ p_client_feedback p = review)
      /\ (forall g,
            In g (gigs (snd out)) -> g_id g = t_gig_id tsk ->
            g_status g = "completed"))
  /\ (forall now tid uid rating review s tsk t',
         fetchone (fun t => t_id t =? tid) (tasks s) = Some tsk ->
         fetchone (fun t => t_id t =? tid)
                  (tasks (snd (complete_task now tid uid rating review s)))
         = Some t' ->
         t_status tsk <> "completed" -> t_status t' = "completed" ->
         uid = t_client_id tsk /\ rating = None)
  /\ (forall now tid review s tsk,
         fetchone (fun t => t_id t =? tid) (tasks s) = Some tsk ->
         exists t',
           fetchone (fun t => t_id t =? tid)
                    (tasks (snd (complete_task now tid (t_client_id tsk)
                                               None review s)))
           = Some t'
           /\ t_status t' = "completed").
Proof.
  split; [|split].
  - intros now tid r review s tsk Ht Hst Hr out. subst out.
    rewrite (complete_task_client_review now tid r review s tsk Ht Hst Hr).
    cbn [fst snd]. unfold completion_effects.
    cbn [users gigs tasks portfolio].
    pose proof (fetchone_some _ _ _ Ht) as [Hin Hid]. apply Z.eqb_eq in Hid.
    assert (Ht' : fetchone (fun t => t_id t =? tid)
                    (update_where (fun t => t_id t =? tid)
                                  (set_t_review r review) (tasks s)) =
                  Some (set_t_review r review tsk)).
    { rewrite (fetchone_update_where t_id) by (intros; reflexivity).
      rewrite Ht. cbn [option_map]. rewrite Hid, Z.eqb_refl. reflexivity. }
    split; [reflexivity|]. split; [|split; [|split]].
    + exists (set_t_review r review tsk). split; [exact Ht'|].
      cbn. split; [exact Hst|]. split; reflexivity.
    + intros u Hu. exists (reward (t_amount tsk) (rating_or_5 (Some r)) u).
      split; [apply fetch_rewarded; exact Hu|]. split; reflexivity.
    + intros g Hg Hgid.
      set (rows := portfolio_rows _ _ _ _ _).
      set (mk := fun pid =>
                   mkPortfolio pid (t_freelancer_id tsk) tid (g_title g)
                     (g_description g)
                     (match fetchone (fun u => u_id u =? t_freelancer_id tsk)
                              (update_where
                                 (fun u => u_id u =? t_freelancer_id tsk)
                                 (reward (t_amount tsk) (rating_or_5 (Some r)))
                                 (users s)) with
                      | Some u => u_skills u
                      | None => None
                      end)
                     (option_map sql_date (t_completed_at tsk))
                     review (Some r)).
      assert (Hmk : In mk rows).
      { subst rows. unfold portfolio_rows. apply List.in_flat_map.
        exists (set_t_review r review tsk). split.
        - apply List.filter_In. split.
          + unfold update_where. apply List.in_map_iff. exists tsk.
            rewrite Hid, Z.eqb_refl. split; [reflexivity|exact Hin].
          + cbn. apply Z.eqb_eq. exact Hid.
        - apply List.in_map_iff. exists g. split.
          + subst mk. cbn. rewrite Hid. reflexivity.
          + apply List.filter_In. split; [exact Hg|].
            cbn. apply Z.eqb_eq. exact Hgid. }
      split.
      * rewrite insert_portfolio_length.
        destruct rows; [destruct Hmk|simpl; lia].
      * destruct (insert_portfolio_adds rows (portfolio s) mk Hmk)
          as [pid Hp].
        exists (mk pid). split; [exact Hp|]. subst mk. cbn.
        repeat split; reflexivity.
    + intros g Hg Hgid. rewrite Ht' in Hg. cbn in Hg.
      apply in_update_where in Hg. destruct Hg as [g0 [_ ->]].
      destruct (g_id g0 =? t_gig_id tsk) eqn:E; [reflexivity|].
      apply Z.eqb_neq in E. contradiction.
  - intros now tid uid rating review s tsk t' Ht Ht' Hnot Hdone.
    pose proof (fetchone_some _ _ _ Ht) as [_ Hid].
    destruct (complete_task_tasks now tid uid rating review s tsk Ht)
      as [E|[[r E]|[[Hu [Hr E]]|E]]].
    + rewrite E, Ht in Ht'. congruence.
    + rewrite E in Ht'.
      rewrite (fetchone_update_where t_id) in Ht' by (intros; reflexivity).
      rewrite Ht in Ht'. cbn [option_map] in Ht'. rewrite Hid in Ht'.
      injection Ht' as <-. cbn in Hdone. contradiction.
    + split; assumption.
    + rewrite E in Ht'.
      rewrite (fetchone_update_where t_id) in Ht' by (intros; reflexivity).
      rewrite Ht in Ht'. cbn [option_map] in Ht'. rewrite Hid in Ht'.
      injection Ht' as <-. cbn in Hdone. discriminate.
  - intros now tid review s tsk Ht.
    pose proof (fetchone_some _ _ _ Ht) as [_ Hid].
    exists (set_t_completed now tsk). split; [|reflexivity].
    assert (E : tasks (snd (complete_task now tid (t_client_id tsk) None
                                          review s)) =
                update_where (fun t => t_id t =? tid) (set_t_completed now)
                             (tasks s)).
    { unfold complete_task. rewrite Ht. cbn zeta. rewrite Z.eqb_refl.
      cbn [orb negb]. split_matches; reflexivity. }
    rewrite E, (fetchone_update_where t_id) by (intros; reflexivity).
    rewrite Ht. cbn [option_map]. rewrite Hid. reflexivity.
Qed.

(** On the demo history: alice rates task 1 with 4. *)
Lemma complete_task_review_leaves_status_witness :
  let out := complete_task 90000 1 1 (Some 4) (Some "nice") demo_review in
  fst out = (true, "Task updated successfully!")
  /\ (exists t',
        fetchone (fun t => t_id t =? 1) (tasks (snd out)) = Some t'
        /\ t_status t' = "pending_review"
        /\ t_client_rating t' = Some 4
        /\ t_client_review t' = Some "nice")
  /\ List.map g_status (gigs (snd out)) = ["completed"]
  /\ List.map p_task_id (portfolio (snd out)) = [1].
Proof.
  destruct (proj1 complete_task_review_leaves_status
              90000 1 4 (Some "nice") demo_review
              (mkTask 1 1 1 1 2 90%Q "pending_review" None None None)
              eq_refl eq_refl ltac:(lia)) as [Hres [Htask _]].
  split; [exact Hres|]. split; [exact Htask|].
  vm_compute. split; reflexivity.
Defined.

(** C2, on the code.  When the client submits a review twice for a task
    that is pending_review, the second call succeeds like the first and the
    completion effects fire again: the freelancer's completed-task count is
    two higher instead of one, and the task amount is added to the total
    earnings twice. *)
Theorem complete_task_twice_rewards_twice
    now now' tid r r' review review' s tsk u :
  fetchone (fun t => t_id t =? tid) (tasks s) = Some tsk ->
  t_status tsk = "pending_review" -> 1 <= r <= 5 -> 1 <= r' <= 5 ->
  fetchone (fun u => u_id u =? t_freelancer_id tsk) (users s) = Some u ->
  let once :=
    snd (complete_task now tid (t_client_id tsk) (Some r) review s) in
  let again := complete_task now' tid (t_client_id tsk) (Some r') review' once in
  fst (fst again) = true
  /\ exists u1 u2,
      fetchone (fun u => u_id u =? t_freelancer_id tsk) (users once)
      = Some u1
      /\ fetchone (fun u => u_id u =? t_freelancer_id tsk)
                  (users (snd again)) = Some u2
      /\ u_completed_tasks u1 = u_completed_tasks u + 1
      /\ u_completed_tasks u2 = u_completed_tasks u + 2
      /\ u_total_earnings u1 = (u_total_earnings u + t_amount tsk)%Q
      /\ u_total_earnings u2 =
         (u_total_earnings u + t_amount tsk + t_amount tsk)%Q.
Proof.
  intros Ht Hst Hr Hr' Hu once again. subst again once.
  pose proof (fetchone_some _ _ _ Ht) as [Hin Hid]. apply Z.eqb_eq in Hid.
  rewrite (complete_task_client_review now tid r review s tsk Ht Hst Hr).
  cbn [snd].
  set (s1 := completion_effects tsk tid (Some r) _ s).
  assert (Ht1 : fetchone (fun t => t_id t =? tid) (tasks s1) =
                Some (set_t_review r review tsk)).
  { subst s1. unfold completion_effects. cbn [tasks].
    rewrite (fetchone_update_where t_id) by (intros; reflexivity).
    rewrite Ht. cbn [option_map]. rewrite Hid, Z.eqb_refl. reflexivity. }
  pose proof (complete_task_client_review now' tid r' review' s1
                (set_t_review r review tsk) Ht1 Hst Hr') as E2.
  cbn [t_client_id set_t_review] in E2. rewrite E2. cbn [fst snd].
  split; [reflexivity|].
  set (u1 := reward (t_amount tsk) (rating_or_5 (Some r)) u).
  assert (Hu1 : fetchone (fun u => u_id u =? t_freelancer_id tsk) (users s1)
                = Some u1).
  { subst s1. unfold completion_effects. cbn [users].
    apply fetch_rewarded. exact Hu. }
  exists u1, (reward (t_amount tsk) (rating_or_5 (Some r')) u1).
  split; [exact Hu1|]. split.
  { unfold completion_effects at 1. cbn [users t_freelancer_id set_t_review t_amount].
    apply fetch_rewarded. exact Hu1. }
  split; [reflexivity|]. split; [cbn; lia|]. split; reflexivity.
Qed.

(** On the demo history: alice submits the same review twice; bob ends with
    two completed tasks and two portfolio rows for the one task. *)
Lemma complete_task_twice_rewards_twice_witness :
  let once := snd (complete_task 90000 1 1 (Some 4) (Some "nice") demo_review) in
  let again := complete_task 90060 1 1 (Some 4) (Some "nice") once in
  fst (fst again) = true
  /\ List.map u_completed_tasks (users once) = [0; 1; 0]
  /\ List.map u_completed_tasks (users (snd again)) = [0; 2; 0]
  /\ List.length (portfolio once) = 1%nat
  /\ List.length (portfolio (snd again)) = 2%nat.
Proof.
  pose proof (complete_task_twice_rewards_twice
                90000 90060 1 4 4 (Some "nice") (Some "nice") demo_review
                (mkTask 1 1 1 1 2 90%Q "pending_review" None None None)
                (mkUser 2 "bob" (Some "python") (Some 0%Q) 0 0%Q)
                eq_refl eq_refl
                ltac:(lia) ltac:(lia)
                eq_refl) as [Hok _].
  split; [exact Hok|]. vm_compute. repeat split; reflexivity.
Defined.

(** C7.  [place_bid] returns a failure and leaves the store unchanged when
    the amount is not positive, when the bidder already has a bid on the gig,
    or when the gig has budget type fixed and the amount exceeds 1.5 times
    its budget amount; in particular a bid of 160 on a fixed-budget gig of
    100 is rejected. *)
Theorem place_bid_rejects :
  (forall gig_id bidder_id amount estimated_time proposal s,
      ((amount <= 0)%Q
       \/ (exists b, In b (bids s) /\ b_gig_id b = gig_id
                     /\ b_bidder_id b = bidder_id)
       \/ (exists g budget,
              fetchone (fun g => g_id g =? gig_id) (gigs s) = Some g
              /\ g_budget_type g = "fixed"
              /\ g_budget_amount g = Some budget
              /\ (budget * 1.5 < amount)%Q)) ->
      let out := place_bid gig_id bidder_id amount estimated_time proposal s in
      fst (fst out) = false /\ snd out = s)
  /\ (forall gig_id bidder_id estimated_time proposal s g budget,
         fetchone (fun g => g_id g =? gig_id) (gigs s) = Some g ->
         g_budget_type g = "fixed" ->
         g_budget_amount g = Some budget -> (budget == 100)%Q ->
         let out := place_bid gig_id bidder_id 160%Q estimated_time proposal s in
         fst (fst out) = false /\ snd out = s).
Proof.
  assert (General :
    forall gig_id bidder_id amount estimated_time proposal s,
      ((amount <= 0)%Q
       \/ (exists b, In b (bids s) /\ b_gig_id b = gig_id
                     /\ b_bidder_id b = bidder_id)
       \/ (exists g budget,
              fetchone (fun g => g_id g =? gig_id) (gigs s) = Some g
              /\ g_budget_type g = "fixed"
              /\ g_budget_amount g = Some budget
              /\ (budget * 1.5 < amount)%Q)) ->
      let out := place_bid gig_id bidder_id amount estimated_time proposal s in
      fst (fst out) = false /\ snd out = s).
  { intros gig_id bidder_id amount et prop s H out. subst out.
    unfold place_bid.
    destruct (Qle_bool amount 0) eqn:Hpos; [split; reflexivity|].
    destruct (fetchone (fun b => (b_gig_id b =? gig_id)
                                 && (b_bidder_id b =? bidder_id)) (bids s))
      as [b0|] eqn:Hdup; [split; reflexivity|].
    destruct H as [Hle|[[b [Hin [Hg Hb]]]|[g [budget [Hg [Hty [Hbud Hlt]]]]]]].
    - apply Qle_bool_iff in Hle. congruence.
    - pose proof (fetchone_none _ _ b Hdup Hin) as Hn. cbn in Hn.
      rewrite Hg, Hb, !Z.eqb_refl in Hn. discriminate.
    - rewrite Hg, Hty, String.eqb_refl, Hbud.
      destruct (Qle_bool amount (budget * 1.5)) eqn:Hle;
        [|split; reflexivity].
      apply Qle_bool_iff in Hle. exfalso.
      exact (Qlt_not_le _ _ Hlt Hle). }
  split; [exact General|].
  intros gig_id bidder_id et prop s g budget Hg Hty Hbud Hb.
  apply General. right. right. exists g, budget.
  repeat split; try assumption.
  rewrite Hb. reflexivity.
Qed.

(** On the demo history: bob bids a second time on gig 1, and a bid of 160
    on the fixed budget of 100. *)
Lemma place_bid_rejects_witness :
  (let out := place_bid 1 2 50%Q "1 day" "again" demo_bids in
   fst (fst out) = false /\ snd out = demo_bids)
  /\ (let out := place_bid 1 7 160%Q "1 day" "pricey" demo_gig in
      fst (fst out) = false /\ snd out = demo_gig).
Proof.
  split.
  - apply (proj1 place_bid_rejects). right. left.
    exists (mkBid 1 1 2 90%Q "2 days" "I can do it" "pending").
    split; [vm_compute; left; reflexivity|]. split; reflexivity.
  - apply (proj2 place_bid_rejects 1 7 "1 day" "pricey" demo_gig
                 (mkGig 1 1 "Logo" "Draw a logo" "Design" "fixed"
                        (Some 100%Q) "open") 100%Q);
      reflexivity.
Defined.

End SkillSwapProofs.

(** ** ShareStuff *)

Module ShareStuffProofs.
Import ShareStuff.

Lemma score_loop_ok it pool acc ms :
  score_loop it pool acc = inr ms ->
  ms = acc ++ List.flat_map (kept it) pool.
Proof.
  revert acc. induction pool as [|row pool IH]; intros acc; simpl.
  - intros [= <-]. rewrite List.app_nil_r. reflexivity.
  - unfold kept at 1.
    destruct (candidate_score it (fst row)) as [e|score]; [discriminate|].
    destruct (30 <=? score); intros H; apply IH in H; subst ms.
    + rewrite <- List.app_assoc. reflexivity.
    + reflexivity.
Qed.

Lemma score_loop_raises it pool acc row e :
  In row pool -> candidate_score it (fst row) = inl e ->
  score_loop it pool acc = inl ZeroDivisionError.
Proof.
  revert acc. induction pool as [|row' pool IH]; intros acc Hin He;
    [destruct Hin|].
  simpl. destruct Hin as [->|Hin].
  - rewrite He. destruct e. reflexivity.
  - destruct (candidate_score it (fst row')) as [[]|score]; [reflexivity|].
    destruct (30 <=? score); eapply IH; eauto.
Qed.

Lemma candidate_score_bounds it c score :
  candidate_score it c = inr score -> 0 <= score <= 100.
Proof.
  unfold candidate_score.
  destruct (price_diff (it_price it) (it_price c)) as [e|d]; [discriminate|].
  cbn zeta. intros [= <-].
  set (n := Z.of_nat (size _)).
  assert (0 <= n) by (subst n; lia).
  split_matches; lia.
Qed.

Lemma kept_spec it row m :
  In m (kept it row) ->
  30 <= match_score m <= 100 /\ m_id m = it_id (fst row).
Proof.
  unfold kept.
  destruct (candidate_score it (fst row)) as [e|score] eqn:Hs;
    [intros []|].
  apply candidate_score_bounds in Hs.
  destruct (Z.leb_spec 30 score); [|intros []].
  intros [<-|[]]. cbn. split; [lia|reflexivity].
Qed.

Lemma entries_scoring_filter it pool v :
  entries_scoring it pool v =
  List.filter (fun m => match_score m =? v) (List.flat_map (kept it) pool).
Proof.
  unfold entries_scoring.
  induction pool as [|row pool IH]; [reflexivity|].
  simpl. rewrite List.filter_app, IH. f_equal.
  unfold kept. destruct (candidate_score it (fst row)) as [e|score];
    [reflexivity|].
  destruct (30 <=? score); [|reflexivity].
  cbn. destruct (Z.min score 100 =? v); reflexivity.
Qed.

Lemma potential_items_in s owner_id uid row :
  In row (potential_items s owner_id uid) ->
  In (fst row) (items s)
  /\ it_user_id (fst row) <> owner_id
  /\ it_user_id (fst row) <> uid
  /\ it_status (fst row) = "available".
Proof.
  unfold potential_items. rewrite sorted_desc_in, List.in_flat_map.
  intros [i [Hi Hrow]]. apply List.in_map_iff in Hrow.
  destruct Hrow as [u [<- _]]. cbn [fst].
  apply List.filter_In in Hi. destruct Hi as [Hin Hc].
  apply andb_true_iff in Hc. destruct Hc as [Hc Hu].
  apply andb_true_iff in Hc. destruct Hc as [Ho Hst].
  apply negb_true_iff, Z.eqb_neq in Ho, Hu.
  apply String.eqb_eq in Hst. auto.
Qed.

Lemma find_matches_cases s item_id uid :
  find_matches s item_id uid = []
  \/ exists it,
      fetchone (fun i => it_id i =? item_id) (items s) = Some it
      /\ find_matches s item_id uid =
         List.firstn 5
           (sorted_desc match_score
              (List.flat_map (kept it)
                 (potential_items s (it_user_id it) uid))).
Proof.
  unfold find_matches, find_matches_body.
  destruct (fetchone (fun i => it_id i =? item_id) (items s)) as [it|];
    [|left; reflexivity].
  destruct (score_loop it (potential_items s (it_user_id it) uid) [])
    as [e|ms] eqn:Hloop; [left; reflexivity|].
  right. exists it. split; [reflexivity|].
  apply score_loop_ok in Hloop. subst ms. reflexivity.
Qed.

(** The example of the specification: listing A (Tools, 50, Boston, tags
    drill and cordless) against listing B (Tools, 55, Boston, tags drill and
    electric) scores 40 + 30 + 20 + 5. *)
Example spec_example_score :
  candidate_score
    (mkItem 1 1 "A" 50 "Tools" "good" (Some "Boston, MA")
            (Some "drill,cordless") "rental" "available" 0)
    (mkItem 2 2 "B" 55 "Tools" "good" (Some "Boston, MA")
            (Some "drill,electric") "rental" "available" 0)
  = inr 95.
Proof. vm_compute. reflexivity. Qed.

(** C5.  On a store whose item ids are unique, the list returned by
    [find_matches] has at most 5 entries, is sorted by descending score, keeps
    for every score the candidates of that score in candidate pool order (it
    holds a prefix of them), has only scores from 30 to 100, and has no entry
    for a listing of the source listing's owner, of the requesting user, or
    whose status is not available. *)
Theorem find_matches_ranked s item_id uid :
  items_keyed s ->
  let out := find_matches s item_id uid in
  (List.length out <= 5)%nat
  /\ StronglySorted (fun a b => match_score b <= match_score a) out
  /\ (forall it v,
         fetchone (fun i => it_id i =? item_id) (items s) = Some it ->
         exists rest,
           entries_scoring it (potential_items s (it_user_id it) uid) v =
           List.filter (fun m => match_score m =? v) out ++ rest)
  /\ (forall m, In m out -> 30 <= match_score m <= 100)
  /\ (forall m it c,
         In m out ->
         fetchone (fun i => it_id i =? item_id) (items s) = Some it ->
         In c (items s) -> it_id c = m_id m ->
         it_user_id c <> it_user_id it
         /\ it_user_id c <> uid
         /\ it_status c = "available").
Proof.
  intros Hk out. subst out.
  destruct (find_matches_cases s item_id uid) as [->|[it [Hit ->]]].
  { split; [simpl; lia|]. split; [constructor|]. split.
    - intros it v _.
      exists (entries_scoring it (potential_items s (it_user_id it) uid) v).
      reflexivity.
    - split.
      + intros m Hm. destruct Hm.
      + intros m it c Hm. destruct Hm. }
  set (pool := potential_items s (it_user_id it) uid).
  assert (Hmem : forall m,
             In m (List.firstn 5 (sorted_desc match_score
                                    (List.flat_map (kept it) pool))) ->
             exists row, In row pool /\ In m (kept it row)).
  { intros m Hm. apply firstn_in, sorted_desc_in in Hm.
    apply List.in_flat_map in Hm. exact Hm. }
  split; [apply List.firstn_le_length|].
  split; [apply (firstn_sorted match_score), sorted_desc_sorted|].
  split; [|split].
  - intros it' v Hit'. rewrite Hit in Hit'. injection Hit' as <-.
    rewrite entries_scoring_filter.
    rewrite <- (filter_sorted_desc match_score v).
    apply filter_firstn_prefix.
  - intros m Hm. destruct (Hmem m Hm) as [row [_ Hrow]].
    apply kept_spec in Hrow. tauto.
  - intros m it' c Hm Hit' Hc Hid. rewrite Hit in Hit'.
    injection Hit' as <-.
    destruct (Hmem m Hm) as [row [Hrow Hkept]].
    apply kept_spec in Hkept. destruct Hkept as [_ Hmid].
    apply potential_items_in in Hrow.
    destruct Hrow as [Hin [Ho [Hu Hst]]].
    assert (c = fst row) as ->.
    { apply (keyed_unique it_id (items s)); try assumption. congruence. }
    auto.
Qed.

(** In [demo_crowded] six listings score 30 or more: the best comes first,
    the four most recent of the five that score 70 follow, most recent
    first, and listing 2 is cut off. *)
Lemma find_matches_ranked_witness :
  (List.length (find_matches demo_crowded 1 1) <= 5)%nat
  /\ StronglySorted (fun a b => match_score b <= match_score a)
                    (find_matches demo_crowded 1 1)
  /\ List.map (fun m => (m_id m, match_score m))
              (find_matches demo_crowded 1 1)
     = [(4, 90); (8, 70); (7, 70); (5, 70); (3, 70)].
Proof.
  assert (Hk : items_keyed demo_crowded).
  { unfold items_keyed. cbn.
    repeat (constructor; [cbn; intuition discriminate|]). constructor. }
  destruct (find_matches_ranked demo_crowded 1 1 Hk) as [Hlen [Hsorted _]].
  split; [exact Hlen|]. split; [exact Hsorted|]. vm_compute. reflexivity.
Defined.

Lemma zero_max_raises p q :
  (p == 0)%Q -> (q == 0)%Q -> price_diff p q = inl ZeroDivisionError.
Proof.
  intros Hp Hq. unfold price_diff.
  assert (E : (Qmax p q == 0)%Q).
  { destruct (Q.max_spec p q) as [[_ ->]|[_ ->]]; assumption. }
  apply Qeq_bool_iff in E. rewrite E. reflexivity.
Qed.

(** When the source listing and a candidate of the pool both have price 0,
    the price factor divides by zero: the [try] block raises
    ZeroDivisionError and [find_matches] returns the empty list, whatever
    the other candidates are. *)
Lemma find_matches_zero_prices_abort s item_id uid it row :
  fetchone (fun i => it_id i =? item_id) (items s) = Some it ->
  In row (potential_items s (it_user_id it) uid) ->
  (it_price it == 0)%Q -> (it_price (fst row) == 0)%Q ->
  find_matches_body s item_id uid = inl ZeroDivisionError
  /\ find_matches s item_id uid = [].
Proof.
  intros Hit Hrow Hp Hq.
  assert (Hbody : find_matches_body s item_id uid = inl ZeroDivisionError).
  { unfold find_matches_body. rewrite Hit.
    rewrite (score_loop_raises it _ [] row ZeroDivisionError Hrow);
      [reflexivity|].
    unfold candidate_score. rewrite (zero_max_raises _ _ Hp Hq).
    reflexivity. }
  split; [exact Hbody|]. unfold find_matches. rewrite Hbody. reflexivity.
Qed.

(** C10.  When no item row has the given id, [find_matches] returns the
    empty list, and no exception is raised on the way. *)
Theorem find_matches_unknown_item s item_id uid :
  (forall i, In i (items s) -> it_id i <> item_id) ->
  find_matches_body s item_id uid = inr []
  /\ find_matches s item_id uid = [].
Proof.
  intros Hnone.
  assert (Hfetch : fetchone (fun i => it_id i =? item_id) (items s) = None).
  { destruct (fetchone (fun i => it_id i =? item_id) (items s)) as [i|] eqn:E;
      [|reflexivity].
    apply (fetchone_some (row:=item)) in E as [Hin Hid].
    apply Z.eqb_eq in Hid. exfalso. exact (Hnone i Hin Hid). }
  unfold find_matches, find_matches_body. rewrite Hfetch.
  split; reflexivity.
Qed.

(** In [demo] there is no item 99. *)
Lemma find_matches_unknown_item_witness :
  find_matches_body demo 99 4 = inr [] /\ find_matches demo 99 4 = [].
Proof.
  apply find_matches_unknown_item. cbn. intros i Hi.
  repeat (destruct Hi as [<-|Hi]; [discriminate|]). destruct Hi.
Defined.

(** C3 as stated does not hold: moving the completed transaction 1 of
    [demo] back to pending is not refused. *)
Lemma transition_claim_fails : ~ transition_claim.
Proof.
  intros H.
  destruct (H demo 1 (mkTransaction 1 6 1 "rental" "completed" None)
              "pending" eq_refl eq_refl) as [Hf _].
  discriminate Hf.
Qed.

Lemma legal_iff_offered from to :
  legal_transition from to = true <->
  exists is_owner, In to (offered_statuses from is_owner).
Proof.
  unfold legal_transition, offered_statuses, str_in. cbn [List.existsb].
  destruct (String.eqb_spec from "pending") as [->|Hp].
  - cbn [andb orb]. rewrite orb_false_r.
    destruct (String.eqb_spec to "accepted") as [->|Ha].
    + split; [intros _; exists true; left; reflexivity|reflexivity].
    + destruct (String.eqb_spec to "cancelled") as [->|Hc]; cbn.
      * split; [intros _; exists true; right; left; reflexivity|reflexivity].
      * split; [discriminate|].
        intros [[|] Hin]; cbn in Hin; intuition congruence.
  - cbn [andb orb].
    destruct (String.eqb_spec from "accepted") as [->|Ha]; cbn.
    + destruct (String.eqb_spec to "completed") as [->|Hc].
      * split; [intros _; exists true; left; reflexivity|reflexivity].
      * split; [discriminate|]. intros [_ [E|[]]]. congruence.
    + split; [discriminate|]. intros [_ []].
Qed.

(** C3, as amended.  [update_transaction_status] applies every requested
    status: it returns [True] and every transaction row with the given id has
    the requested status afterwards, whether or not the transition is one of
    pending to accepted, pending to cancelled and accepted to completed.
    These three are exactly the transitions the buttons of the transactions
    page request. *)
Theorem update_transaction_status_unconditional :
  (forall s tid st,
      let out := update_transaction_status tid st s in
      fst out = true
      /\ (forall t,
             fetchone (fun t => tr_id t =? tid) (transactions s) = Some t ->
             fetchone (fun t => tr_id t =? tid) (transactions (snd out))
             = Some (set_tr_status st t))
      /\ (forall t', In t' (transactions (snd out)) -> tr_id t' = tid ->
                     tr_status t' = st))
  /\ (forall from to,
         legal_transition from to = true <->
         exists is_owner, In to (offered_statuses from is_owner)).
Proof.
  split; [|exact legal_iff_offered].
  intros s tid st out. subst out. unfold update_transaction_status.
  cbn [fst snd transactions]. split; [reflexivity|]. split.
  - intros t Ht.
    rewrite (fetchone_update_where tr_id) by (intros; reflexivity).
    rewrite Ht. cbn [option_map].
    apply (fetchone_some (row:=transaction)) in Ht as [_ ->]. reflexivity.
  - intros t' Hin Hid. apply in_update_where in Hin.
    destruct Hin as [t [_ ->]].
    destruct (tr_id t =? tid) eqn:E; [reflexivity|].
    apply Z.eqb_neq in E. contradiction.
Qed.

(** In [demo] the completed transaction 1 is moved back to pending. *)
Lemma update_transaction_status_unconditional_witness :
  fst (update_transaction_status 1 "pending" demo) = true
  /\ fetchone (fun t => tr_id t =? 1)
              (transactions (snd (update_transaction_status 1 "pending" demo)))
     = Some (mkTransaction 1 6 1 "rental" "pending" None)
  /\ legal_transition "pending" "accepted" = true.
Proof.
  destruct (proj1 update_transaction_status_unconditional demo 1 "pending")
    as [Hok [Hset _]].
  split; [exact Hok|]. split.
  - exact (Hset (mkTransaction 1 6 1 "rental" "completed" None) eq_refl).
  - apply (proj2 update_transaction_status_unconditional).
    exists true. left. reflexivity.
Defined.

End ShareStuffProofs.

(** ** Further facts about lists, sorting and tables *)

Lemma insert_desc_perm {A} (key : A -> Z) x l :
  Permutation (insert_desc key x l) (x :: l).
Proof.
  induction l as [|y l IH]; simpl; [reflexivity|].
  destruct (key x <? key y); [|reflexivity].
  rewrite IH. apply perm_swap.
Qed.

Lemma sorted_desc_perm {A} (key : A -> Z) l :
  Permutation (sorted_desc key l) l.
Proof.
  induction l as [|x l IH]; simpl; [reflexivity|].
  rewrite insert_desc_perm, IH. reflexivity.
Qed.

Lemma sorted_split {A} (key : A -> Z) n l :
  StronglySorted (desc key) l ->
  forall m d, In m (List.firstn n l) -> In d (List.skipn n l) ->
              key d <= key m.
Proof.
  intros Hs. revert n.
  induction Hs as [|x l Hs IH Hall]; intros [|n] m d Hm Hd; simpl in *;
    try contradiction.
  destruct Hm as [<-|Hm].
  - rewrite List.Forall_forall in Hall. apply Hall.
    rewrite <- (List.firstn_skipn n l). apply List.in_or_app. right. exact Hd.
  - exact (IH n m d Hm Hd).
Qed.

Lemma filter_nothing {A} (p : A -> bool) l :
  (forall x, In x l -> p x = false) -> List.filter p l = [].
Proof.
  induction l as [|x l IH]; intros H; [reflexivity|]. simpl.
  rewrite (H x (or_introl eq_refl)). apply IH.
  intros y Hy. apply H. right. exact Hy.
Qed.

Lemma fetchone_absent {row} (p : row -> bool) t :
  (forall r, In r t -> p r = false) -> fetchone p t = None.
Proof.
  intros H. destruct (fetchone p t) as [r|] eqn:E; [|reflexivity].
  apply (fetchone_some (row:=row)) in E as [Hin Hp].
  rewrite (H r Hin) in Hp. discriminate.
Qed.

Lemma fetchone_fresh_insert {row} (key : row -> Z) (t : list row) (r : row) :
  key r = next_id key t ->
  fetchone (fun x => key x =? key r) (t ++ [r]) = Some r.
Proof.
  intros Hk. rewrite fetchone_app.
  rewrite fetchone_absent.
  - unfold fetchone. simpl. rewrite Z.eqb_refl. reflexivity.
  - intros x Hx. apply Z.eqb_neq. pose proof (next_id_above key t x Hx). lia.
Qed.

Lemma fetchone_old_insert {row} (p : row -> bool) (t : list row) r x :
  fetchone p t = Some x -> fetchone p (t ++ [r]) = Some x.
Proof. intros H. rewrite fetchone_app, H. reflexivity. Qed.

Lemma fetchone_map_pred {row} (p : row -> bool) (g : row -> row) t :
  (forall r, p (g r) = p r) ->
  fetchone p (List.map g t) = option_map g (fetchone p t).
Proof.
  intros Hg. induction t as [|r t IH]; simpl; [reflexivity|].
  rewrite Hg. destruct (p r); [reflexivity|exact IH].
Qed.

Lemma existsb_false_forall {A} (p : A -> bool) l :
  List.existsb p l = false -> forall x, In x l -> p x = false.
Proof.
  intros H x Hx. destruct (p x) eqn:E; [|reflexivity].
  assert (List.existsb p l = true) by (apply List.existsb_exists; eauto).
  congruence.
Qed.

Lemma fetchone_exists {row} (p : row -> bool) t r :
  In r t -> p r = true -> exists r', fetchone p t = Some r'.
Proof.
  intros Hin Hp. destruct (fetchone p t) as [r'|] eqn:E; [eauto|].
  rewrite (fetchone_none p t r E Hin) in Hp. discriminate.
Qed.

Lemma Forall_update_where {row} (P : row -> Prop) q f (t : list row) :
  List.Forall P t -> (forall r, In r t -> P r -> P (f r)) ->
  List.Forall P (update_where q f t).
Proof.
  intros Ht Hf. unfold update_where. apply List.Forall_forall.
  intros r' Hr'. apply List.in_map_iff in Hr'. destruct Hr' as [r [<- Hr]].
  rewrite List.Forall_forall in Ht.
  destruct (q r); [apply Hf; auto|auto].
Qed.

Lemma Forall_snoc {A} (P : A -> Prop) l x :
  List.Forall P l -> P x -> List.Forall P (l ++ [x]).
Proof.
  intros Hl Hx. apply List.Forall_app. split; [exact Hl|].
  constructor; [exact Hx|constructor].
Qed.

Lemma existsb_in {A} (p : A -> bool) l :
  List.existsb p l = true <-> exists x, In x l /\ p x = true.
Proof. apply List.existsb_exists. Qed.

(** ** ShareStuff: the match score *)

Module ShareStuffScoringProofs.
Import ShareStuff ShareStuffProofs.

Lemma price_diff_positive p q :
  (0 < p)%Q -> exists d, price_diff p q = inr d.
Proof.
  intros Hp. unfold price_diff.
  destruct (Qeq_bool (Qmax p q) 0) eqn:E; [|eexists; reflexivity].
  apply Qeq_bool_iff in E. pose proof (Q.le_max_l p q) as Hle.
  rewrite E in Hle. exfalso. exact (Qlt_not_le _ _ Hp Hle).
Qed.

Lemma candidate_score_positive it c :
  (0 < it_price it)%Q -> exists score, candidate_score it c = inr score.
Proof.
  intros Hp. unfold candidate_score.
  destruct (price_diff_positive (it_price it) (it_price c) Hp) as [d ->].
  eexists. reflexivity.
Qed.

Lemma score_loop_total it pool acc :
  (forall row, In row pool -> exists score, candidate_score it (fst row) = inr score) ->
  score_loop it pool acc = inr (acc ++ List.flat_map (kept it) pool).
Proof.
  revert acc. induction pool as [|row pool IH]; intros acc Hall; simpl.
  - rewrite List.app_nil_r. reflexivity.
  - destruct (Hall row (or_introl eq_refl)) as [score Hs].
    unfold kept at 1. rewrite Hs.
    destruct (30 <=? score); rewrite IH by (intros r Hr; apply Hall; right; exact Hr).
    + rewrite <- List.app_assoc. reflexivity.
    + reflexivity.
Qed.

(** X1.  When the source item exists and its price is positive, find_matches
    scores the whole pool without raising and returns a top-five selection:
    the returned matches together with the dropped ones are a permutation of
    the candidates scoring at least 30, no dropped candidate scores higher
    than a returned one, and candidates are dropped only when five are
    returned. *)
Theorem find_matches_keeps_the_best s item_id uid it :
  fetchone (fun i => it_id i =? item_id) (items s) = Some it ->
  (0 < it_price it)%Q ->
  let out := find_matches s item_id uid in
  find_matches_body s item_id uid = inr out
  /\ exists dropped,
      Permutation (out ++ dropped)
        (List.flat_map (kept it) (potential_items s (it_user_id it) uid))
      /\ (forall m d, In m out -> In d dropped ->
                      match_score d <= match_score m)
      /\ (dropped <> [] -> List.length out = 5%nat).
Proof.
  intros Hit Hp out. subst out.
  set (pool := potential_items s (it_user_id it) uid).
  assert (Hbody : find_matches_body s item_id uid =
                  inr (List.firstn 5 (sorted_desc match_score
                                        (List.flat_map (kept it) pool)))).
  { unfold find_matches_body. rewrite Hit. fold pool.
    rewrite score_loop_total; [reflexivity|].
    intros row _. apply candidate_score_positive. exact Hp. }
  unfold find_matches. rewrite Hbody. split; [reflexivity|].
  set (L := sorted_desc match_score (List.flat_map (kept it) pool)).
  exists (List.skipn 5 L). split; [|split].
  - rewrite List.firstn_skipn. apply sorted_desc_perm.
  - apply sorted_split. apply sorted_desc_sorted.
  - intros Hne. apply List.firstn_length_le.
    destruct (Nat.le_gt_cases 5 (List.length L)) as [Hle|Hgt]; [exact Hle|].
    exfalso. apply Hne. apply List.skipn_all2. lia.
Qed.

Lemma find_matches_keeps_the_best_witness :
  List.map m_id (find_matches demo_crowded 1 1) = [4; 8; 7; 5; 3]
  /\ find_matches_body demo_crowded 1 1 = inr (find_matches demo_crowded 1 1)
  /\ exists dropped,
      Permutation (find_matches demo_crowded 1 1 ++ dropped)
        (List.flat_map
           (kept (mkItem 1 1 "Drill" 50 "Tools" "good" (Some "Boston, MA")
                         None "rental" "available" 10))
           (potential_items demo_crowded 1 1))
      /\ (forall m d, In m (find_matches demo_crowded 1 1) -> In d dropped ->
                      match_score d <= match_score m)
      /\ (dropped <> [] ->
          List.length (find_matches demo_crowded 1 1) = 5%nat).
Proof.
  split; [vm_compute; reflexivity|].
  apply (find_matches_keeps_the_best demo_crowded 1 1
           (mkItem 1 1 "Drill" 50 "Tools" "good" (Some "Boston, MA")
                   None "rental" "available" 10)).
  - reflexivity.
  - reflexivity.
Defined.

Lemma Qle_bool_eq_compat a b c : (a == b)%Q -> Qle_bool a c = Qle_bool b c.
Proof.
  intros E. destruct (Qle_bool a c) eqn:Ha; symmetry.
  - apply Qle_bool_iff. apply Qle_bool_iff in Ha. rewrite <- E. exact Ha.
  - destruct (Qle_bool b c) eqn:Hb; [|reflexivity].
    apply Qle_bool_iff in Hb. rewrite <- E in Hb.
    apply Qle_bool_iff in Hb. congruence.
Qed.

Lemma price_diff_sym p q :
  match price_diff p q, price_diff q p with
  | inl _, inl _ => True
  | inr d, inr d' => (d == d')%Q
  | _, _ => False
  end.
Proof.
  unfold price_diff.
  assert (Hmax : (Qmax p q == Qmax q p)%Q) by apply Q.max_comm.
  assert (Hz : Qeq_bool (Qmax p q) 0 = Qeq_bool (Qmax q p) 0).
  { destruct (Qeq_bool (Qmax p q) 0) eqn:E; symmetry.
    - apply Qeq_bool_iff. apply Qeq_bool_iff in E. rewrite <- Hmax. exact E.
    - destruct (Qeq_bool (Qmax q p) 0) eqn:E'; [|reflexivity].
      apply Qeq_bool_iff in E'. rewrite <- Hmax in E'.
      apply Qeq_bool_iff in E'. congruence. }
  rewrite <- Hz. destruct (Qeq_bool (Qmax p q) 0); [exact I|].
  rewrite Hmax.
  assert (Habs : (Qabs (p - q) == Qabs (q - p))%Q).
  { rewrite <- (Qabs_opp (p - q)). apply Qabs_wd. ring. }
  rewrite Habs. reflexivity.
Qed.

(** X2.  The match score is symmetric: scoring item b as a candidate for item
    a gives the same score, or the same ZeroDivisionError, as scoring a as a
    candidate for b. *)
Theorem candidate_score_symmetric a b :
  candidate_score a b = candidate_score b a.
Proof.
  unfold candidate_score.
  pose proof (price_diff_sym (it_price a) (it_price b)) as Hpd.
  destruct (price_diff (it_price a) (it_price b)) as [[]|d],
           (price_diff (it_price b) (it_price a)) as [[]|d'];
    try contradiction; [reflexivity|].
  cbn zeta.
  rewrite (Qle_bool_eq_compat d d' 0.2 Hpd), (Qle_bool_eq_compat d d' 0.5 Hpd).
  rewrite (String.eqb_sym (it_category a)).
  rewrite (andb_comm (text_truthy (it_location a))).
  rewrite (String.eqb_sym (first_token (text (it_location a)))).
  rewrite (andb_comm (text_truthy (it_tags a))).
  rewrite (comm_L (∩) (tag_set (text (it_tags a)))).
  reflexivity.
Qed.

Lemma trans_type_values a b :
  trans_type a b = "rental" \/ trans_type a b = "barter".
Proof. unfold trans_type. split_matches; auto. Qed.

(** X3.  On ASCII text: a candidate can score 100 only if its category equals
    the item's, both locations are non-empty with the same first comma-
    separated part (stripped, lower-cased) and both tag strings are non-empty
    and share at least two normalised tags; when all this holds the score is
    70, 85 or 100, the price factor deciding; a candidate of the same category
    never scores below 40, one of another category never above 60. *)
Theorem candidate_score_full_marks it c :
  (candidate_score it c = inr 100 ->
   it_category it = it_category c
   /\ (text_truthy (it_location it) = true
       /\ text_truthy (it_location c) = true
       /\ first_token (text (it_location it))
          = first_token (text (it_location c)))
   /\ (text_truthy (it_tags it) = true
       /\ text_truthy (it_tags c) = true
       /\ (2 <= size (tag_set (text (it_tags it))
                      ∩ tag_set (text (it_tags c))))%nat))
  /\ (forall score,
         candidate_score it c = inr score ->
         it_category it = it_category c ->
         text_truthy (it_location it) = true ->
         text_truthy (it_location c) = true ->
         first_token (text (it_location it))
         = first_token (text (it_location c)) ->
         text_truthy (it_tags it) = true ->
         text_truthy (it_tags c) = true ->
         (2 <= size (tag_set (text (it_tags it))
                     ∩ tag_set (text (it_tags c))))%nat ->
         score = 70 \/ score = 85 \/ score = 100)
  /\ (forall score,
         candidate_score it c = inr score ->
         (it_category it = it_category c -> 40 <= score)
         /\ (it_category it <> it_category c -> score <= 60)).
Proof.
  unfold candidate_score.
  destruct (price_diff (it_price it) (it_price c)) as [e|d].
  { split; [discriminate|]. split; intros score; discriminate. }
  cbn zeta.
  set (n := size _).
  destruct (String.eqb_spec (it_category it) (it_category c)) as [Hc|Hc];
  destruct (Qle_bool d 0.2);
  destruct (Qle_bool d 0.5);
  destruct (text_truthy (it_location it));
  destruct (text_truthy (it_location c));
  destruct (String.eqb_spec (first_token (text (it_location it)))
                            (first_token (text (it_location c)))) as [Hl|Hl];
  destruct (text_truthy (it_tags it));
  destruct (text_truthy (it_tags c));
  cbn [andb negb];
  destruct (Nat.eqb_spec n 0) as [Hn|Hn]; cbn [negb];
  (split;
   [ intros [= Hs]; try lia;
     (repeat split; try reflexivity; try assumption; try lia)
   | split;
     [ intros score [= <-] Hc' Ha Hb Hl' Ht Ht' Hn';
       try contradiction; try discriminate; try lia
     | intros score [= <-]; split; intros Hc'; try contradiction; lia ] ]).
Qed.

End ShareStuffScoringProofs.

(** ** ShareStuff: listings and requests *)

Module ShareStuffListingsProofs.
Import ShareStuff ShareStuffProofs ShareStuffListings.

Lemma in_join_owner s rows row :
  In row (join_owner s rows) <->
  In (fst row) rows /\ In (snd row) (users s)
  /\ u_id (snd row) = it_user_id (fst row).
Proof.
  unfold join_owner. rewrite List.in_flat_map. split.
  - intros [i [Hi Hrow]]. apply List.in_map_iff in Hrow.
    destruct Hrow as [u [<- Hu]]. apply List.filter_In in Hu.
    destruct Hu as [Hu Hid]. apply Z.eqb_eq in Hid. cbn. auto.
  - intros [Hi [Hu Hid]]. exists (fst row). split; [exact Hi|].
    apply List.in_map_iff. exists (snd row). split; [destruct row; reflexivity|].
    apply List.filter_In. split; [exact Hu|]. apply Z.eqb_eq. exact Hid.
Qed.

(** X4.  For an existing transaction, setting its status to 'completed' or
    'cancelled' makes the transaction's item 'available' again, keeps the item
    ids and leaves every other item row as it was; any other status leaves the
    items table untouched. Users are never changed. *)
Theorem update_transaction_status_frees_item s tid st t :
  fetchone (fun t => tr_id t =? tid) (transactions s) = Some t ->
  let s' := snd (update_transaction_status tid st s) in
  users s' = users s
  /\ (str_in st ["completed"; "cancelled"] = true ->
      List.map it_id (items s') = List.map it_id (items s)
      /\ (forall i, In i (items s') -> it_id i = tr_item_id t ->
                    it_status i = "available")
      /\ (forall i, In i (items s) -> it_id i <> tr_item_id t ->
                    In i (items s')))
  /\ (str_in st ["completed"; "cancelled"] = false -> items s' = items s).
Proof.
  intros Ht s'. subst s'. unfold update_transaction_status.
  cbn [snd users items]. split; [reflexivity|].
  assert (Ht' : fetchone (fun t => tr_id t =? tid)
                  (update_where (fun t => tr_id t =? tid) (set_tr_status st)
                                (transactions s)) = Some (set_tr_status st t)).
  { rewrite (fetchone_update_where tr_id) by (intros; reflexivity).
    rewrite Ht. cbn [option_map].
    apply (fetchone_some (row:=transaction)) in Ht as [_ ->]. reflexivity. }
  rewrite Ht'. cbn [tr_item_id set_tr_status].
  split; intros ->; [|reflexivity].
  split; [|split].
  - apply (keys_update_where it_id). intros; reflexivity.
  - intros i Hi Hid. apply in_update_where in Hi.
    destruct Hi as [i0 [_ ->]].
    destruct (it_id i0 =? tr_item_id t) eqn:E; [reflexivity|].
    apply Z.eqb_neq in E. contradiction.
  - intros i Hi Hid. unfold update_where. apply List.in_map_iff.
    exists i. apply Z.eqb_neq in Hid. rewrite Hid. auto.
Qed.

Lemma update_transaction_status_frees_item_witness :
  List.map it_status
           (items (snd (update_transaction_status 1 "cancelled" demo)))
  = ["available"; "available"; "available"; "available"; "available";
     "available"]
  /\ forall i,
      In i (items (snd (update_transaction_status 1 "cancelled" demo))) ->
      it_id i = 6 -> it_status i = "available".
Proof.
  split; [vm_compute; reflexivity|].
  destruct (update_transaction_status_frees_item demo 1 "cancelled"
              (mkTransaction 1 6 1 "rental" "completed" None) eq_refl)
    as [_ [Hfree _]].
  destruct (Hfree eq_refl) as [_ [Hav _]]. exact Hav.
Defined.

(** X5.  After delete_item the item can no longer be fetched with
    get_item_by_id and find_matches on it returns []; exactly the rows with
    that id are gone from items, and users and transactions (including those
    that reference the deleted item) are unchanged. *)
Theorem delete_item_forgets s item_id :
  let s' := snd (delete_item item_id s) in
  get_item_by_id s' item_id = None
  /\ (forall uid, find_matches s' item_id uid = [])
  /\ (forall i, In i (items s') <-> In i (items s) /\ it_id i <> item_id)
  /\ transactions s' = transactions s
  /\ users s' = users s.
Proof.
  cbn zeta. unfold delete_item. cbn [snd items transactions users].
  assert (Hgone : forall i,
             In i (List.filter (fun i => negb (it_id i =? item_id)) (items s)) <->
             In i (items s) /\ it_id i <> item_id).
  { intros i. rewrite List.filter_In, negb_true_iff, Z.eqb_neq. reflexivity. }
  split; [|split; [|split; [exact Hgone|split; reflexivity]]].
  - unfold get_item_by_id. cbn [items].
    rewrite (filter_nothing (fun i => it_id i =? item_id));
      [reflexivity|].
    intros i Hi. apply Hgone in Hi. apply Z.eqb_neq. tauto.
  - intros uid. unfold find_matches, find_matches_body. cbn [items].
    rewrite fetchone_absent; [reflexivity|].
    intros i Hi. apply Hgone in Hi. apply Z.eqb_neq. tauto.
Qed.

Lemma in_get_all_items s exclude row :
  In row (get_all_items s exclude) <->
  In (fst row) (items s)
  /\ it_status (fst row) = "available"
  /\ (forall n, exclude = Some n -> n <> 0 -> it_user_id (fst row) <> n)
  /\ In (snd row) (users s)
  /\ u_id (snd row) = it_user_id (fst row).
Proof.
  unfold get_all_items.
  destruct exclude as [n|]; [destruct (Z.eqb_spec n 0) as [->|Hn]|];
    cbn [negb]; rewrite sorted_desc_in, in_join_owner, List.filter_In.
  - rewrite String.eqb_eq. split.
    + intros [[Hi Hst] [Hu Hid]]. repeat split; try assumption.
      intros n [= <-] Hn. contradiction.
    + intros [Hi [Hst [_ [Hu Hid]]]]. auto.
  - rewrite andb_true_iff, negb_true_iff, Z.eqb_neq, String.eqb_eq. split.
    + intros [[Hi [Hex Hst]] [Hu Hid]]. repeat split; try assumption.
      intros n' [= <-] _. exact Hex.
    + intros [Hi [Hst [Hex [Hu Hid]]]]. repeat split; try assumption.
      exact (Hex n eq_refl Hn).
  - rewrite String.eqb_eq. split.
    + intros [[Hi Hst] [Hu Hid]]. repeat split; try assumption.
      intros n [=].
    + intros [Hi [Hst [_ [Hu Hid]]]]. auto.
Qed.

(** X6.  get_all_items returns exactly the available items joined with their
    owner's user row, without the items of a non-zero exclude_user_id, newest
    first; exclude_user_id = 0 is falsy and behaves like None. *)
Theorem get_all_items_lists_available s exclude :
  (forall row,
      In row (get_all_items s exclude) <->
      In (fst row) (items s)
      /\ it_status (fst row) = "available"
      /\ (forall n, exclude = Some n -> n <> 0 -> it_user_id (fst row) <> n)
      /\ In (snd row) (users s)
      /\ u_id (snd row) = it_user_id (fst row))
  /\ StronglySorted
       (fun a b => it_created_at (fst b) <= it_created_at (fst a))
       (get_all_items s exclude)
  /\ get_all_items s (Some 0) = get_all_items s None.
Proof.
  split; [intros row; apply in_get_all_items|]. split; [|reflexivity].
  unfold get_all_items.
  destruct exclude as [n|]; [destruct (negb (n =? 0))|];
    apply (sorted_desc_sorted (fun row : item * user => it_created_at (fst row))).
Qed.

(** X7.  For a non-zero current user, every match find_matches returns is an
    item that get_all_items(current_user_id) lists: matches are always
    available items of other users. *)
Theorem find_matches_are_browsable s item_id uid m :
  uid <> 0 -> In m (find_matches s item_id uid) ->
  exists row,
    In row (get_all_items s (Some uid)) /\ it_id (fst row) = m_id m.
Proof.
  intros Huid Hm.
  destruct (find_matches_cases s item_id uid) as [E|[it [_ E]]];
    rewrite E in Hm; [destruct Hm|].
  apply firstn_in, sorted_desc_in, List.in_flat_map in Hm.
  destruct Hm as [row [Hrow Hkept]].
  apply kept_spec in Hkept. destruct Hkept as [_ Hid].
  exists row. split; [|symmetry; exact Hid].
  unfold potential_items in Hrow. apply sorted_desc_in in Hrow.
  apply (proj1 (in_join_owner s _ row)) in Hrow.
  destruct Hrow as [Hi [Hu Hown]]. apply List.filter_In in Hi.
  destruct Hi as [Hi Hc].
  apply andb_true_iff in Hc. destruct Hc as [Hc Hme].
  apply andb_true_iff in Hc. destruct Hc as [_ Hst].
  apply in_get_all_items.
  apply negb_true_iff, Z.eqb_neq in Hme. apply String.eqb_eq in Hst.
  repeat split; try assumption.
  intros n [= <-] _. exact Hme.
Qed.

Lemma find_matches_are_browsable_witness :
  exists row,
    In row (get_all_items demo_crowded (Some 1)) /\ it_id (fst row) = 4.
Proof.
  apply (find_matches_are_browsable demo_crowded 1 1
           (mkMatch 4 "Drill" 52 "Tools" "good" "ben" 4.5 90 "rental"
                    "rental")).
  - lia.
  - vm_compute. left. reflexivity.
Defined.

(** X8.  get_item_by_id returns a stored item with the requested id together
    with the user row of its owner; it returns None exactly when no item with
    that id has an owner row in users (so also for an item whose owner row is
    missing). *)
Theorem get_item_by_id_finds_joined_row s item_id :
  (forall row,
      get_item_by_id s item_id = Some row ->
      In (fst row) (items s) /\ it_id (fst row) = item_id
      /\ In (snd row) (users s) /\ u_id (snd row) = it_user_id (fst row))
  /\ (get_item_by_id s item_id = None <->
      forall i u, In i (items s) -> it_id i = item_id -> In u (users s) ->
                  u_id u <> it_user_id i).
Proof.
  unfold get_item_by_id.
  set (rows := join_owner s _).
  assert (Hrows : forall row,
             In row rows <->
             (In (fst row) (items s) /\ it_id (fst row) = item_id)
             /\ In (snd row) (users s)
             /\ u_id (snd row) = it_user_id (fst row)).
  { intros row. subst rows.
    rewrite in_join_owner, List.filter_In, Z.eqb_eq. reflexivity. }
  split.
  - intros row Hrow.
    assert (Hin : In row rows).
    { destruct rows as [|r rows']; [discriminate|].
      injection Hrow as ->. left. reflexivity. }
    apply Hrows in Hin. tauto.
  - split.
    + intros Hnone i u Hi Hid Hu Hown.
      assert (Hin : In (i, u) rows) by (apply Hrows; cbn; auto).
      destruct rows; [destruct Hin|discriminate].
    + intros Hnone. destruct rows as [|r rows'] eqn:E; [reflexivity|].
      exfalso.
      assert (Hin : In r rows) by (rewrite E; left; reflexivity).
      rewrite <- E in Hrows.
      apply Hrows in Hin. destruct Hin as [[Hi Hid] [Hu Hown]].
      exact (Hnone (fst r) (snd r) Hi Hid Hu Hown).
Qed.

(** X9.  The transaction type find_matches attaches to a match is 'rental' or
    'barter' and does not depend on which of the two items is the source; when
    the two listings share a transaction type that request_item offers, the
    attached type is offered for both, and when they share none it is
    'rental'. *)
Theorem trans_type_is_offered_by_both a b :
  (trans_type a b = "rental" \/ trans_type a b = "barter")
  /\ trans_type a b = trans_type b a
  /\ ((exists t, In t (available_types (it_available_for a))
                 /\ In t (available_types (it_available_for b))) ->
      In (trans_type a b) (available_types (it_available_for a))
      /\ In (trans_type a b) (available_types (it_available_for b)))
  /\ ((forall t, In t (available_types (it_available_for a)) ->
                 ~ In t (available_types (it_available_for b))) ->
      trans_type a b = "rental").
Proof.
  unfold trans_type, available_types.
  destruct (str_in (it_available_for a) ["rental"; "both"]),
           (str_in (it_available_for a) ["barter"; "both"]),
           (str_in (it_available_for b) ["rental"; "both"]),
           (str_in (it_available_for b) ["barter"; "both"]);
    cbn;
    (split; [auto|split; [reflexivity|split;
      [ intros [t [Ha Hb]]; cbn in *; intuition (subst; try discriminate; auto)
      | intros Hnone; try reflexivity; exfalso;
        first [ apply (Hnone "rental"); cbn; auto; fail
              | apply (Hnone "barter"); cbn; auto ] ]]]).
Qed.

(** X10.  create_transaction adds a 'pending' transaction under a fresh id and
    leaves items and earlier transactions alone; accepting it changes only its
    status; completing it sets the status to 'completed' and leaves every item
    with the requested id 'available'. *)
Theorem request_lifecycle_frees_item s item_id requested_by trans_type matched :
  let tid := next_id tr_id (transactions s) in
  let s1 := snd (create_transaction item_id requested_by trans_type matched s) in
  let s2 := snd (update_transaction_status tid "accepted" s1) in
  let s3 := snd (update_transaction_status tid "completed" s2) in
  fetchone (fun t => tr_id t =? tid) (transactions s1)
  = Some (mkTransaction tid item_id requested_by trans_type "pending" matched)
  /\ items s1 = items s
  /\ (forall t, In t (transactions s) -> In t (transactions s1))
  /\ fetchone (fun t => tr_id t =? tid) (transactions s2)
     = Some (mkTransaction tid item_id requested_by trans_type "accepted" matched)
  /\ items s2 = items s
  /\ fetchone (fun t => tr_id t =? tid) (transactions s3)
     = Some (mkTransaction tid item_id requested_by trans_type "completed" matched)
  /\ (forall i, In i (items s3) -> it_id i = item_id ->
                it_status i = "available").
Proof.
  intros tid s1 s2 s3.
  assert (H1 : fetchone (fun t => tr_id t =? tid) (transactions s1)
               = Some (mkTransaction tid item_id requested_by trans_type
                                     "pending" matched)).
  { subst s1. unfold create_transaction. cbn [snd transactions].
    exact (fetchone_fresh_insert tr_id (transactions s)
             (mkTransaction tid item_id requested_by trans_type "pending"
                            matched) eq_refl). }
  assert (H2 : fetchone (fun t => tr_id t =? tid) (transactions s2)
               = Some (mkTransaction tid item_id requested_by trans_type
                                     "accepted" matched)).
  { subst s2. unfold update_transaction_status. cbn [snd transactions].
    rewrite (fetchone_update_where tr_id) by (intros; reflexivity).
    rewrite H1. cbn. rewrite Z.eqb_refl. reflexivity. }
  split; [exact H1|]. split; [reflexivity|].
  split; [intros t Ht; subst s1; cbn; apply List.in_or_app; left; exact Ht|].
  split; [exact H2|]. split; [reflexivity|].
  assert (H3 : fetchone (fun t => tr_id t =? tid)
                 (update_where (fun t => tr_id t =? tid)
                               (set_tr_status "completed") (transactions s2))
               = Some (mkTransaction tid item_id requested_by trans_type
                                     "completed" matched)).
  { rewrite (fetchone_update_where tr_id) by (intros; reflexivity).
    rewrite H2. cbn. rewrite Z.eqb_refl. reflexivity. }
  split.
  - subst s3. unfold update_transaction_status. cbn [snd transactions].
    exact H3.
  - subst s3. unfold update_transaction_status. cbn [snd items str_in
                                                     List.existsb].
    change (String.eqb "completed" "completed") with true. cbn [orb].
    rewrite H3. cbn [tr_item_id].
    intros i Hi Hid. apply in_update_where in Hi.
    destruct Hi as [i0 [_ ->]].
    destruct (it_id i0 =? item_id) eqn:E; [reflexivity|].
    apply Z.eqb_neq in E. contradiction.
Qed.

End ShareStuffListingsProofs.

(** ** ShareStuff: the forms that write the items table *)

Module ShareStuffFormsProofs.
Import ShareStuff ShareStuffProofs ShareStuffScoringProofs ShareStuffListings
       ShareStuffForms.

Definition prices_positive (c : catalogue) : Prop :=
  List.Forall (fun i => (0 < it_price i)%Q) (items (shop c)).

Lemma required_fields_price title description price category condition
      location :
  required_fields title description price category condition location = true ->
  ~ (price == 0)%Q.
Proof.
  unfold required_fields. rewrite !andb_true_iff, negb_true_iff.
  intros [[[[[_ _] Hp] _] _] _] E. apply Qeq_bool_iff in E. congruence.
Qed.

Lemma accepted_price_positive title description price category condition
      location :
  (0 <= price)%Q ->
  required_fields title description price category condition location = true ->
  (0 < price)%Q.
Proof.
  intros Hge Hreq. apply required_fields_price in Hreq.
  apply Qle_lt_or_eq in Hge. destruct Hge as [Hlt|Heq]; [exact Hlt|].
  exfalso. apply Hreq. symmetry. exact Heq.
Qed.

Lemma step_prices_positive c c' :
  step c c' -> prices_positive c -> prices_positive c'.
Proof.
  unfold prices_positive.
  intros Hstep Hc. destruct Hstep as
      [c now user title description price category condition location tags
         available_for Hge
      |c item_id title description price category condition location tags
         available_for status Hge
      |c item_id|c tid st|c us ts].
  - unfold list_item.
    destruct (required_fields _ _ _ _ _ _) eqn:Hreq; cbn [negb];
      [|exact Hc].
    destruct user as [uid|]; [|exact Hc]. cbn.
    apply Forall_snoc; [exact Hc|]. cbn.
    exact (accepted_price_positive _ _ _ _ _ _ Hge Hreq).
  - unfold edit_item.
    destruct (get_item_by_id _ _); [|exact Hc].
    destruct (required_fields _ _ _ _ _ _) eqn:Hreq; cbn [negb];
      [|exact Hc].
    cbn. apply Forall_update_where; [exact Hc|].
    intros r _ _. cbn.
    exact (accepted_price_positive _ _ _ _ _ _ Hge Hreq).
  - cbn. rewrite List.Forall_forall in *. intros i Hi.
    apply List.filter_In in Hi. apply Hc. tauto.
  - unfold update_transaction_status. cbn [snd shop items].
    destruct (str_in st _); [|exact Hc].
    destruct (fetchone _ _); [|exact Hc].
    apply Forall_update_where; [exact Hc|].
    intros r _ Hr. exact Hr.
  - exact Hc.
Qed.

Lemma reachable_prices_positive c : reachable c -> prices_positive c.
Proof.
  induction 1 as [|c c' _ IH Hstep].
  - constructor.
  - exact (step_prices_positive c c' Hstep IH).
Qed.

Lemma demo_listed_reachable : reachable demo_listed.
Proof.
  eapply reachable_step.
  - eapply reachable_step.
    + eapply reachable_step; [exact reachable_init|].
      exact (step_other_tables empty_catalogue
               [mkUser 1 "ann" 0; mkUser 2 "ben" 4.5] []).
    + apply (step_list_item _ 10 (Some 1) "Drill" "Cordless drill" 50 "Tools"
                            "Good" "Boston, MA" "drill,cordless" "rental").
      discriminate.
  - apply (step_list_item _ 20 (Some 2) "Power drill" "Corded, 800 W" 55
                          "Tools" "New" "Boston, MA" "drill,electric" "both").
    discriminate.
Qed.

(** C4, as amended.  The guard against a division by zero is in the forms,
    not in the scorer.  In every store the application can build, the
    listing and the edit form having refused a price of 0, all prices are
    positive, [find_matches] raises nothing and every candidate of the pool
    gets its score.  [find_matches] itself has no guard: given a source
    listing and a candidate of the pool that both have price 0 (rows that
    only [add_item] called directly would store), the division raises
    ZeroDivisionError and the empty list is returned. *)
Theorem find_matches_guard_is_in_the_forms :
  (forall c item_id uid,
      reachable c ->
      (forall i, In i (items (shop c)) -> (0 < it_price i)%Q)
      /\ find_matches_body (shop c) item_id uid
         = inr (find_matches (shop c) item_id uid)
      /\ (forall it row,
             fetchone (fun i => it_id i =? item_id) (items (shop c))
             = Some it ->
             In row (potential_items (shop c) (it_user_id it) uid) ->
             exists d score,
               price_diff (it_price it) (it_price (fst row)) = inr d
               /\ candidate_score it (fst row) = inr score))
  /\ (forall s item_id uid it row,
         fetchone (fun i => it_id i =? item_id) (items s) = Some it ->
         In row (potential_items s (it_user_id it) uid) ->
         (it_price it == 0)%Q -> (it_price (fst row) == 0)%Q ->
         find_matches_body s item_id uid = inl ZeroDivisionError
         /\ find_matches s item_id uid = []).
Proof.
  split; [|exact find_matches_zero_prices_abort].
  intros c item_id uid Hr.
  pose proof (reachable_prices_positive c Hr) as Hpos.
  unfold prices_positive in Hpos. rewrite List.Forall_forall in Hpos.
  split; [exact Hpos|].
  assert (Hsrc : forall it,
             fetchone (fun i => it_id i =? item_id) (items (shop c)) = Some it ->
             (0 < it_price it)%Q).
  { intros it Hit. apply (fetchone_some (row:=item)) in Hit as [Hin _].
    exact (Hpos it Hin). }
  split.
  - unfold find_matches.
    destruct (find_matches_body (shop c) item_id uid) as [e|out] eqn:Hb;
      [|reflexivity].
    exfalso. unfold find_matches_body in Hb.
    destruct (fetchone (fun i => it_id i =? item_id) (items (shop c)))
      as [it|] eqn:Hit; [|discriminate].
    rewrite score_loop_total in Hb; [discriminate|].
    intros row _. apply candidate_score_positive. exact (Hsrc it eq_refl).
  - intros it row Hit _.
    destruct (price_diff_positive (it_price it) (it_price (fst row))
                                  (Hsrc it Hit)) as [d Hd].
    destruct (candidate_score_positive it (fst row) (Hsrc it Hit))
      as [score Hs].
    exists d, score. split; assumption.
Qed.

(** Ann looks for matches of her drill.  In [demo_listed], built through the
    listing form, ben's drill is found with score 95; in [demo_free], where
    both rows have price 0, nothing is. *)
Lemma find_matches_guard_is_in_the_forms_witness :
  List.map (fun m => (m_id m, match_score m))
           (find_matches (shop demo_listed) 1 1) = [(2, 95)]
  /\ find_matches_body (shop demo_listed) 1 1
     = inr (find_matches (shop demo_listed) 1 1)
  /\ find_matches_body (shop demo_free) 1 1 = inl ZeroDivisionError
  /\ find_matches (shop demo_free) 1 1 = [].
Proof.
  destruct find_matches_guard_is_in_the_forms as [Hforms Hraw].
  split; [vm_compute; reflexivity|].
  split; [exact (proj1 (proj2 (Hforms demo_listed 1 1
                                      demo_listed_reachable)))|].
  apply (Hraw (shop demo_free) 1 1
              (mkItem 1 1 "Free hammer" 0 "Tools" "Good" (Some "Boston")
                      (Some "") "rental" "available" 10)
              (mkItem 2 2 "Old saw" 0 "Tools" "Fair" (Some "Boston")
                      (Some "") "barter" "available" 20, mkUser 2 "ben" 4.5)).
  - reflexivity.
  - vm_compute. left. reflexivity.
  - reflexivity.
  - reflexivity.
Defined.

(** C4 as stated does not hold: [add_item] stores the price it is given,
    and on the two rows of [demo_free], both of price 0, the scorer raises
    ZeroDivisionError instead of leaving the price factor out. *)
Lemma zero_price_guard_claim_fails : ~ zero_price_guard_claim.
Proof.
  intros H.
  destruct (H (shop demo_free) 1 1
              (mkItem 1 1 "Free hammer" 0 "Tools" "Good" (Some "Boston")
                      (Some "") "rental" "available" 10)
              (mkItem 2 2 "Old saw" 0 "Tools" "Fair" (Some "Boston")
                      (Some "") "barter" "available" 20, mkUser 2 "ben" 4.5))
    as [out Hout].
  - reflexivity.
  - vm_compute. left. reflexivity.
  - reflexivity.
  - reflexivity.
  - vm_compute in Hout. discriminate Hout.
Qed.

End ShareStuffFormsProofs.

(** ** ShareStuff: accounts and reviews *)

Module ShareStuffReviewsProofs.
Import ShareStuffReviews.

Section WithHash.
Variable hash_password : string -> string.

(** X11.  After a successful register_user, login_user with the same e-mail
    and password returns the new account, get_user_id_by_username finds its
    id, its rating is 0, earlier accounts are kept, and no earlier account has
    the new id, username or e-mail. *)
Theorem register_then_login username email password location bio s :
  fst (register_user hash_password username email password location bio s)
  = true ->
  let s' :=
    snd (register_user hash_password username email password location bio s) in
  let fresh :=
    mkAccount (next_id a_id (accounts s)) username email
              (hash_password password) location bio 0 0 in
  login_user hash_password email password s' = Some fresh
  /\ get_user_id_by_username username s' = Some (a_id fresh)
  /\ get_user_rating (a_id fresh) s' = 0%Q
  /\ (forall a, In a (accounts s) -> In a (accounts s'))
  /\ (forall a, In a (accounts s) ->
                a_id a <> a_id fresh /\ a_username a <> username
                /\ a_email a <> email).
Proof.
  unfold register_user.
  destruct (List.existsb _ (accounts s)) eqn:Hdup; [discriminate|].
  intros _. cbn [snd]. cbn zeta.
  pose proof (existsb_false_forall _ _ Hdup) as Hnone.
  assert (Hold : forall a, In a (accounts s) ->
                           a_username a <> username /\ a_email a <> email).
  { intros a Ha. specialize (Hnone a Ha). cbn in Hnone.
    apply orb_false_iff in Hnone. destruct Hnone as [Hu He].
    apply String.eqb_neq in Hu, He. auto. }
  split; [|split; [|split; [|split]]].
  - unfold login_user. cbn [accounts]. rewrite fetchone_app.
    rewrite fetchone_absent.
    + unfold fetchone. cbn. rewrite !String.eqb_refl. reflexivity.
    + intros a Ha. destruct (Hold a Ha) as [_ He].
      apply String.eqb_neq in He. rewrite He. reflexivity.
  - unfold get_user_id_by_username. cbn [accounts]. rewrite fetchone_app.
    rewrite fetchone_absent.
    + unfold fetchone. cbn. rewrite String.eqb_refl. reflexivity.
    + intros a Ha. destruct (Hold a Ha) as [Hu _].
      apply String.eqb_neq in Hu. exact Hu.
  - unfold get_user_rating. cbn [accounts a_id].
    pose proof (fetchone_fresh_insert a_id (accounts s)
                  (mkAccount (next_id a_id (accounts s)) username email
                             (hash_password password) location bio 0 0)
                  eq_refl) as Hf.
    cbn [a_id] in Hf. rewrite Hf. reflexivity.
  - intros a Ha. cbn. apply List.in_or_app. left. exact Ha.
  - intros a Ha. destruct (Hold a Ha) as [Hu He].
    split; [|split; assumption]. cbn.
    pose proof (next_id_above a_id (accounts s) a Ha). lia.
Qed.

(** X12.  register_user returns False exactly when some account already has
    the username or the e-mail, and then changes nothing; in every case
    uniqueness of usernames, of e-mails and of ids is preserved. *)
Theorem register_user_refuses_duplicates
    username email password location bio s :
  let out :=
    register_user hash_password username email password location bio s in
  (fst out = false <->
   exists a, In a (accounts s)
             /\ (a_username a = username \/ a_email a = email))
  /\ (fst out = false -> snd out = s)
  /\ (List.NoDup (List.map a_username (accounts s)) ->
      List.NoDup (List.map a_username (accounts (snd out))))
  /\ (List.NoDup (List.map a_email (accounts s)) ->
      List.NoDup (List.map a_email (accounts (snd out))))
  /\ (List.NoDup (List.map a_id (accounts s)) ->
      List.NoDup (List.map a_id (accounts (snd out)))).
Proof.
  cbn zeta. unfold register_user.
  destruct (List.existsb _ (accounts s)) eqn:Hdup; cbn [fst snd].
  - split; [|repeat split; auto].
    split; [intros _|reflexivity].
    apply List.existsb_exists in Hdup. destruct Hdup as [a [Ha Hor]].
    exists a. split; [exact Ha|].
    apply orb_true_iff in Hor. rewrite !String.eqb_eq in Hor. exact Hor.
  - pose proof (existsb_false_forall _ _ Hdup) as Hnone.
    assert (Hold : forall a, In a (accounts s) ->
                             a_username a <> username /\ a_email a <> email).
    { intros a Ha. specialize (Hnone a Ha). cbn in Hnone.
      apply orb_false_iff in Hnone. destruct Hnone as [Hu He].
      apply String.eqb_neq in Hu, He. auto. }
    split; [|split; [discriminate|]].
    { split; [discriminate|]. intros [a [Ha Hor]].
      destruct (Hold a Ha) as [Hu He]. tauto. }
    cbn [accounts]. rewrite !List.map_app. cbn [List.map].
    assert (Happ : forall (B : Type) (l : list B) (x : B),
               ~ In x l -> List.NoDup l -> List.NoDup (l ++ [x])).
    { intros B l x Hx Hl. apply List.NoDup_app; [exact Hl| |].
      - constructor; [intros []|constructor].
      - intros y Hy [<-|[]]. exact (Hx Hy). }
    split; [|split].
    + apply Happ. cbn. intros Hin. apply List.in_map_iff in Hin.
      destruct Hin as [a [E Ha]]. destruct (Hold a Ha). contradiction.
    + apply Happ. cbn. intros Hin. apply List.in_map_iff in Hin.
      destruct Hin as [a [E Ha]]. destruct (Hold a Ha). contradiction.
    + apply Happ. cbn. intros Hin. apply List.in_map_iff in Hin.
      destruct Hin as [a [E Ha]].
      pose proof (next_id_above a_id (accounts s) a Ha). lia.
Qed.

End WithHash.

Lemma register_then_login_witness :
  let s' := snd (register_user demo_hash "cat" "cat@x.org" "pw3" "Lynn" ""
                               demo_accounts) in
  let fresh := mkAccount 3 "cat" "cat@x.org" "sha256:pw3" "Lynn" "" 0 0 in
  login_user demo_hash "cat@x.org" "pw3" s' = Some fresh
  /\ get_user_id_by_username "cat" s' = Some 3
  /\ get_user_rating 3 s' = 0%Q
  /\ (forall a, In a (accounts demo_accounts) -> In a (accounts s'))
  /\ (forall a, In a (accounts demo_accounts) ->
                a_id a <> 3 /\ a_username a <> "cat"
                /\ a_email a <> "cat@x.org").
Proof.
  apply (register_then_login demo_hash "cat" "cat@x.org" "pw3" "Lynn" ""
                             demo_accounts).
  reflexivity.
Defined.

(** The review table after [add_review]. *)
Lemma add_review_reviews u r t x c s :
  let key := fun rv => (r_user_id rv =? u) && (r_reviewer_id rv =? r)
                       && (r_transaction_id rv =? t) in
  (exists e, fetchone key (reviews s) = Some e
             /\ reviews (snd (add_review u r t x c s)) =
                update_where (fun rv => r_id rv =? r_id e) (set_r_rating x c)
                             (reviews s))
  \/ (fetchone key (reviews s) = None
      /\ reviews (snd (add_review u r t x c s)) =
         reviews s ++ [mkReview (next_id r_id (reviews s)) u r t x c]).
Proof.
  cbn zeta. unfold add_review. cbn [snd reviews].
  destruct (fetchone _ (reviews s)) as [e|]; [left; eauto|right; auto].
Qed.

Lemma add_review_keeps_key u r t x c s :
  exists rv,
    fetchone (fun rv => (r_user_id rv =? u) && (r_reviewer_id rv =? r)
                        && (r_transaction_id rv =? t))
             (reviews (snd (add_review u r t x c s))) = Some rv
    /\ r_rating rv = x /\ r_comment rv = c.
Proof.
  destruct (add_review_reviews u r t x c s) as [[e [He ->]]|[Hn ->]].
  - unfold update_where. rewrite fetchone_map_pred.
    + rewrite He. cbn [option_map]. rewrite Z.eqb_refl.
      eexists. split; [reflexivity|]. split; reflexivity.
    + intros rv. destruct (r_id rv =? r_id e); reflexivity.
  - rewrite fetchone_app, Hn. unfold fetchone. cbn.
    rewrite !Z.eqb_refl. cbn. eexists. split; [reflexivity|].
    split; reflexivity.
Qed.

(** X13.  After add_review on an existing user, has_user_reviewed is true for
    that transaction and reviewer, and the user's row holds the number of
    reviews of the user and a rating equal to the mean of their ratings;
    username and e-mail are unchanged. *)
Theorem add_review_records_mean u r t x c s a :
  fetchone (fun a => a_id a =? u) (accounts s) = Some a ->
  let s' := snd (add_review u r t x c s) in
  has_user_reviewed t r s' = true
  /\ (1 <= List.length (reviews_of u s'))%nat
  /\ exists a',
      fetchone (fun a => a_id a =? u) (accounts s') = Some a'
      /\ a_total_ratings a' = Z.of_nat (List.length (reviews_of u s'))
      /\ (a_rating a' ==
          inject_Z (sum_ratings (reviews_of u s'))
          / inject_Z (a_total_ratings a'))%Q
      /\ a_username a' = a_username a /\ a_email a' = a_email a.
Proof.
  intros Ha s'.
  destruct (add_review_keeps_key u r t x c s) as [rv [Hrv _]].
  fold s' in Hrv.
  apply (fetchone_some (row:=review)) in Hrv as [Hin Hkey].
  apply andb_true_iff in Hkey. destruct Hkey as [Hkey Ht].
  apply andb_true_iff in Hkey. destruct Hkey as [Hu Hr].
  assert (Hmine : In rv (reviews_of u s')).
  { unfold reviews_of. apply List.filter_In. auto. }
  assert (Hlen : (1 <= List.length (reviews_of u s'))%nat).
  { destruct (reviews_of u s'); [destruct Hmine|simpl; lia]. }
  split; [|split; [exact Hlen|]].
  - unfold has_user_reviewed.
    destruct (fetchone_exists
                (fun r0 => (r_transaction_id r0 =? t) && (r_reviewer_id r0 =? r))
                (reviews s') rv Hin) as [r' ->]; [|reflexivity].
    rewrite Ht, Hr. reflexivity.
  - assert (Hs' : accounts s' =
                  update_where (fun a => a_id a =? u)
                    (set_a_rating
                       (match fst (rating_aggregate u (reviews s')) with
                        | Some q => if Qeq_bool q 0 then 0%Q else q
                        | None => 0%Q
                        end)
                       (snd (rating_aggregate u (reviews s'))))
                    (accounts s)).
    { reflexivity. }
    rewrite Hs'. rewrite (fetchone_update_where a_id) by (intros; reflexivity).
    rewrite Ha. cbn [option_map].
    apply (fetchone_some (row:=account)) in Ha as [_ ->].
    eexists. split; [reflexivity|].
    unfold rating_aggregate. fold (reviews_of u s').
    cbn [fst snd set_a_rating a_total_ratings a_rating a_username a_email].
    split; [reflexivity|]. split; [|split; reflexivity].
    destruct (Z.eqb_spec (Z.of_nat (List.length (reviews_of u s'))) 0);
      [lia|].
    destruct (Qeq_bool _ 0) eqn:E; [|reflexivity].
    apply Qeq_bool_iff in E. symmetry. exact E.
Qed.

Lemma add_review_records_mean_witness :
  let s' := snd (add_review 2 1 7 2 "late" demo_accounts) in
  (get_user_rating 2 s' == 3)%Q
  /\ has_user_reviewed 7 1 s' = true
  /\ (1 <= List.length (reviews_of 2 s'))%nat
  /\ exists a',
      fetchone (fun a => a_id a =? 2) (accounts s') = Some a'
      /\ a_total_ratings a' = Z.of_nat (List.length (reviews_of 2 s'))
      /\ (a_rating a' ==
          inject_Z (sum_ratings (reviews_of 2 s'))
          / inject_Z (a_total_ratings a'))%Q
      /\ a_username a' = "ben" /\ a_email a' = "ben@x.org".
Proof.
  split; [vm_compute; reflexivity|].
  apply (add_review_records_mean 2 1 7 2 "late" demo_accounts
           (mkAccount 2 "ben" "ben@x.org" (demo_hash "pw2") "Salem" "" 4.5 2)).
  reflexivity.
Defined.

(** X14.  Reviewing the same user for the same transaction by the same
    reviewer a second time adds no row: the review ids and the number of
    reviews stay the same, and the stored review carries the new rating and
    comment. *)
Theorem add_review_upserts u r t x c y c' s :
  let s1 := snd (add_review u r t x c s) in
  let s2 := snd (add_review u r t y c' s1) in
  List.length (reviews s2) = List.length (reviews s1)
  /\ List.map r_id (reviews s2) = List.map r_id (reviews s1)
  /\ List.length (reviews_of u s2) = List.length (reviews_of u s1)
  /\ exists rv,
      fetchone (fun rv => (r_user_id rv =? u) && (r_reviewer_id rv =? r)
                          && (r_transaction_id rv =? t)) (reviews s2)
      = Some rv
      /\ r_rating rv = y /\ r_comment rv = c'.
Proof.
  intros s1 s2.
  destruct (add_review_keeps_key u r t x c s) as [e [He _]]. fold s1 in He.
  assert (Hs2 : reviews s2 =
                update_where (fun rv => r_id rv =? r_id e) (set_r_rating y c')
                             (reviews s1)).
  { destruct (add_review_reviews u r t y c' s1) as [[e' [He' E]]|[Hn _]].
    - rewrite He in He'. injection He' as <-. exact E.
    - rewrite He in Hn. discriminate. }
  split; [|split; [|split]].
  - rewrite Hs2. unfold update_where. apply List.length_map.
  - rewrite Hs2. apply (keys_update_where r_id). intros; reflexivity.
  - unfold reviews_of. rewrite Hs2. unfold update_where.
    fold (count_where (fun r0 => r_user_id r0 =? u)
                      (List.map (fun r0 => if r_id r0 =? r_id e
                                           then set_r_rating y c' r0 else r0)
                                (reviews s1))).
    rewrite count_where_map. apply count_where_ext.
    intros rv _. destruct (r_id rv =? r_id e); reflexivity.
  - exact (add_review_keeps_key u r t y c' s1).
Qed.

End ShareStuffReviewsProofs.

(** ** SkillSwap: invariants of the reachable stores *)

Module SkillSwapInvariantsProofs.
Import SkillSwap SkillSwapProofs SkillSwapInvariants.

Lemma complete_task_cases now tid uid rating review s :
  snd (complete_task now tid uid rating review s) = s
  \/ exists tsk f,
      fetchone (fun t => t_id t =? tid) (tasks s) = Some tsk
      /\ task_change now review f
      /\ (uid = t_client_id tsk \/ uid = t_freelancer_id tsk)
      /\ (snd (complete_task now tid uid rating review s) =
          mkStore (users s) (gigs s) (bids s)
                  (update_where (fun t => t_id t =? tid) f (tasks s))
                  (portfolio s)
          \/ (1 <= rating_or_5 rating <= 5
              /\ uid = t_client_id tsk
              /\ t_status tsk = "pending_review"
              /\ snd (complete_task now tid uid rating review s) =
                 completion_effects tsk tid rating
                   (update_where (fun t => t_id t =? tid) f (tasks s)) s)).
Proof.
  unfold complete_task.
  destruct (fetchone (fun t => t_id t =? tid) (tasks s)) as [tsk|] eqn:Ht;
    [|left; reflexivity].
  cbn zeta.
  destruct (Z.eqb_spec uid (t_client_id tsk)) as [Hc|Hc].
  - cbn [orb negb]. destruct rating as [r|].
    + destruct (Z.ltb_spec r 1) as [H1|H1]; [left; reflexivity|].
      destruct (Z.gtb_spec r 5) as [H5|H5]; [left; reflexivity|].
      cbn [orb]. right. exists tsk, (set_t_review r review).
      split; [reflexivity|]. split; [left; eexists; reflexivity|].
      split; [left; exact Hc|].
      destruct (String.eqb_spec (t_status tsk) "pending_review") as [Hs|Hs];
        cbn [andb snd]; [right|left; reflexivity].
      split; [|split; [exact Hc|split; [exact Hs|reflexivity]]].
      unfold rating_or_5. destruct (Z.eqb_spec r 0); lia.
    + right. exists tsk, (set_t_completed now).
      split; [reflexivity|]. split; [right; left; reflexivity|].
      split; [left; exact Hc|].
      destruct (String.eqb_spec (t_status tsk) "pending_review") as [Hs|Hs];
        cbn [andb snd]; [right|left; reflexivity].
      split; [cbn; lia|split; [exact Hc|split; [exact Hs|reflexivity]]].
  - cbn [orb].
    destruct (Z.eqb_spec uid (t_freelancer_id tsk)) as [Hf|Hf]; cbn [negb];
      [|left; reflexivity].
    right. exists tsk, (set_t_status "pending_review").
    split; [reflexivity|]. split; [right; right; reflexivity|].
    split; [right; exact Hf|].
    rewrite andb_false_r. left. reflexivity.
Qed.

Lemma bids_carried_refl bs : bids_carried bs bs.
Proof. intros b Hb. exists b. repeat split; auto. Qed.

Lemma gigs_carried_refl gs : gigs_carried gs gs.
Proof. intros g Hg. exists g. repeat split; auto. Qed.

Lemma bids_carried_snoc bs b : bids_carried bs (bs ++ [b]).
Proof.
  intros x Hx. exists x. repeat split; auto. apply List.in_or_app. auto.
Qed.

Lemma gigs_carried_snoc gs g : gigs_carried gs (gs ++ [g]).
Proof.
  intros x Hx. exists x. repeat split; auto. apply List.in_or_app. auto.
Qed.

Lemma gigs_carried_status q st gs :
  gigs_carried gs (update_where q (set_g_status st) gs).
Proof.
  intros g Hg. exists (if q g then set_g_status st g else g). split.
  - unfold update_where. apply List.in_map_iff. exists g. auto.
  - destruct (q g); split; reflexivity.
Qed.

Lemma settle_status B G b :
  b_status (settle B G b) = b_status b
  \/ b_status (settle B G b) = "accepted"
  \/ b_status (settle B G b) = "rejected".
Proof. unfold settle. split_matches; cbn; auto. Qed.

Lemma settle_bidder B G b : b_bidder_id (settle B G b) = b_bidder_id b.
Proof. unfold settle. split_matches; reflexivity. Qed.

Lemma settle_amount B G b : b_amount (settle B G b) = b_amount b.
Proof. unfold settle. split_matches; reflexivity. Qed.

Lemma bids_carried_settle B G bs :
  bids_carried bs (List.map (settle B G) bs).
Proof.
  intros b Hb. exists (settle B G b).
  split; [apply List.in_map; exact Hb|].
  rewrite settle_id, settle_gig, settle_bidder, settle_amount.
  repeat split; try reflexivity.
  intros Hp. destruct (settle_status B G b) as [->|[->| ->]];
    [exact Hp|discriminate|discriminate].
Qed.

Lemma task_ok_carried s s' t :
  bids_carried (bids s) (bids s') -> gigs_carried (gigs s) (gigs s') ->
  task_ok s t -> task_ok s' t.
Proof.
  intros Hb Hg [Hst [Ham [b [g [Hbin [Hgin [H1 [H2 [H3 [H4 [H5 [H6 H7]]]]]]]]]]]].
  split; [exact Hst|]. split; [exact Ham|].
  destruct (Hb b Hbin) as [b' [Hb' [E1 [E2 [E3 [E4 E5]]]]]].
  destruct (Hg g Hgin) as [g' [Hg' [F1 F2]]].
  exists b', g'. repeat split; try assumption; try congruence.
  apply E5. exact H7.
Qed.

Lemma task_ok_change s now review f t :
  task_change now review f -> task_ok s t -> task_ok s (f t).
Proof.
  intros Hf [Hst [Ham Hrest]].
  destruct Hf as [[r ->]|[->| ->]]; (split; [|split; [exact Ham|exact Hrest]]);
    cbn; auto.
Qed.

Lemma task_change_id now review f t :
  task_change now review f -> t_id (f t) = t_id t.
Proof. intros [[r ->]|[->| ->]]; reflexivity. Qed.

Lemma reward_ok amount n u :
  (0 < amount)%Q -> 1 <= n <= 5 -> user_ok u -> user_ok (reward amount n u).
Proof.
  intros Ha Hn [[q [Hq [Hq0 Hq5]]] [Hc He]].
  split; [|split].
  - exists ((q * inject_Z (u_completed_tasks u) + inject_Z n)
            / inject_Z (u_completed_tasks u + 1))%Q.
    split; [apply reward_rating; assumption|].
    assert (HC : (0 <= inject_Z (u_completed_tasks u))%Q).
    { change 0%Q with (inject_Z 0). rewrite <- Zle_Qle. exact Hc. }
    assert (HD : (inject_Z (u_completed_tasks u + 1)
                  == inject_Z (u_completed_tasks u) + 1)%Q).
    { rewrite inject_Z_plus. reflexivity. }
    assert (HN1 : (1 <= inject_Z n)%Q).
    { change 1%Q with (inject_Z 1). rewrite <- Zle_Qle. lia. }
    assert (HN5 : (inject_Z n <= 5)%Q).
    { change 5%Q with (inject_Z 5). rewrite <- Zle_Qle. lia. }
    set (C := inject_Z (u_completed_tasks u)) in *.
    set (N := inject_Z n) in *.
    assert (Hpos : (0 < inject_Z (u_completed_tasks u + 1))%Q)
      by (rewrite HD; lra).
    assert (HqC : (0 <= q * C)%Q) by (apply Qmult_le_0_compat; assumption).
    assert (HqC5 : (q * C <= 5 * C)%Q)
      by (apply Qmult_le_compat_r; assumption).
    split.
    + apply Qle_shift_div_l; [exact Hpos|]. lra.
    + apply Qle_shift_div_r; [exact Hpos|]. rewrite HD. lra.
  - cbn. lia.
  - cbn. lra.
Qed.

Lemma gigs_status_ok q st gs :
  List.Forall gig_ok gs ->
  List.Forall gig_ok (update_where q (set_g_status st) gs).
Proof. intros H. apply Forall_update_where; [exact H|]. intros g _ Hg. exact Hg. Qed.

Lemma gigs_status_keyed q st gs :
  List.NoDup (List.map g_id gs) ->
  List.NoDup (List.map g_id (update_where q (set_g_status st) gs)).
Proof.
  intros H. rewrite (keys_update_where g_id); [exact H|]. intros; reflexivity.
Qed.

Lemma tasks_ok_moved s s' :
  bids_carried (bids s) (bids s') -> gigs_carried (gigs s) (gigs s') ->
  List.Forall (task_ok s) (tasks s) -> List.Forall (task_ok s') (tasks s).
Proof.
  intros Hb Hg H. eapply List.Forall_impl; [|exact H].
  intros t. apply task_ok_carried; assumption.
Qed.

Lemma insert_portfolio_keyed rows tbl :
  (forall mk pid, In mk rows -> p_id (mk pid) = pid) ->
  List.NoDup (List.map p_id tbl) ->
  List.NoDup (List.map p_id (insert_portfolio rows tbl)).
Proof.
  unfold insert_portfolio. revert tbl.
  induction rows as [|mk rows IH]; intros tbl Hmk Hk; [exact Hk|].
  cbn [List.fold_left]. apply IH.
  - intros mk' pid Hin. apply Hmk. right. exact Hin.
  - apply keyed_insert; [exact Hk|]. apply Hmk. left. reflexivity.
Qed.

Lemma portfolio_rows_ids fid tid us gs ts mk pid :
  In mk (portfolio_rows fid tid us gs ts) -> p_id (mk pid) = pid.
Proof.
  unfold portfolio_rows. intros Hin. apply List.in_flat_map in Hin.
  destruct Hin as [t [_ Hin]]. apply List.in_map_iff in Hin.
  destruct Hin as [g [<- _]]. reflexivity.
Qed.

Lemma insert_user_ok username skills s :
  store_ok s -> store_ok (insert_user username skills s).
Proof.
  intros [[Ku [Kg [Kb [Kt Kp]]]] [Hb [H1 [Hg [Ht Hu]]]]].
  unfold insert_user, store_ok, keys_ok, one_bid_per_bidder.
  cbn [users gigs bids tasks portfolio].
  repeat split; try assumption.
  - apply keyed_insert; [exact Ku|reflexivity].
  - apply Forall_snoc; [exact Hu|].
    unfold user_ok. cbn.
    split; [exists 0%Q; split; [reflexivity|split; lra]|split; [lia|lra]].
Qed.

Lemma create_gig_ok uid title descr cat bt ba urg s :
  store_ok s -> store_ok (snd (create_gig uid title descr cat bt ba urg s)).
Proof.
  intros Hok. unfold create_gig.
  destruct (negb _); [exact Hok|].
  destruct (String.eqb_spec bt "fixed") as [Hbt|Hbt]; cbn [andb].
  - destruct ba as [a|]; [|exact Hok].
    destruct (Qle_bool a 0) eqn:Ha; [exact Hok|].
    destruct Hok as [[Ku [Kg [Kb [Kt Kp]]]] [Hb [H1 [Hg [Ht Hu]]]]].
    unfold store_ok, keys_ok, one_bid_per_bidder.
    cbn [snd users gigs bids tasks portfolio].
    repeat split; try assumption.
    + apply keyed_insert; [exact Kg|reflexivity].
    + apply Forall_snoc; [exact Hg|]. intros _. exists a. split; [reflexivity|].
      apply Qnot_le_lt. intros Hle. apply Qle_bool_iff in Hle. congruence.
    + eapply List.Forall_impl; [|exact Ht]. intros t.
      apply task_ok_carried; [apply bids_carried_refl|apply gigs_carried_snoc].
  - destruct Hok as [[Ku [Kg [Kb [Kt Kp]]]] [Hb [H1 [Hg [Ht Hu]]]]].
    unfold store_ok, keys_ok, one_bid_per_bidder.
    cbn [snd users gigs bids tasks portfolio].
    repeat split; try assumption.
    + apply keyed_insert; [exact Kg|reflexivity].
    + apply Forall_snoc; [exact Hg|]. intros Hfix. cbn in Hfix. contradiction.
    + eapply List.Forall_impl; [|exact Ht]. intros t.
      apply task_ok_carried; [apply bids_carried_refl|apply gigs_carried_snoc].
Qed.

Lemma update_gig_status_ok gid st s :
  store_ok s -> store_ok (snd (update_gig_status gid st s)).
Proof.
  intros [[Ku [Kg [Kb [Kt Kp]]]] [Hb [H1 [Hg [Ht Hu]]]]].
  unfold update_gig_status, store_ok, keys_ok, one_bid_per_bidder.
  cbn [snd users gigs bids tasks portfolio].
  repeat split; try assumption.
  - apply gigs_status_keyed. exact Kg.
  - apply gigs_status_ok. exact Hg.
  - eapply List.Forall_impl; [|exact Ht]. intros t.
    apply task_ok_carried; [apply bids_carried_refl|apply gigs_carried_status].
Qed.

Lemma place_bid_ok gid bidder amount et prop s :
  store_ok s -> store_ok (snd (place_bid gid bidder amount et prop s)).
Proof.
  intros Hok. unfold place_bid.
  destruct (Qle_bool amount 0) eqn:Hpos; [exact Hok|].
  destruct (fetchone _ (bids s)) as [b0|] eqn:Hdup; [exact Hok|].
  assert (Hins : store_ok
                   (mkStore (users s) (gigs s)
                      (bids s ++ [mkBid (next_id b_id (bids s)) gid bidder
                                        amount et prop "pending"])
                      (tasks s) (portfolio s))).
  { destruct Hok as [[Ku [Kg [Kb [Kt Kp]]]] [Hb [H1 [Hg [Ht Hu]]]]].
    unfold store_ok, keys_ok, one_bid_per_bidder.
    cbn [users gigs bids tasks portfolio].
    repeat split; try assumption.
    - apply keyed_insert; [exact Kb|reflexivity].
    - apply Forall_snoc; [exact Hb|]. split; [|cbn; auto].
      cbn. apply Qnot_le_lt. intros Hle. apply Qle_bool_iff in Hle. congruence.
    - rewrite List.map_app. cbn [List.map].
      apply List.NoDup_app; [exact H1|constructor; [intros []|constructor]|].
      intros k Hk [<-|[]]. apply List.in_map_iff in Hk.
      destruct Hk as [b [[= Eg Eb] Hin]].
      pose proof (fetchone_none _ _ b Hdup Hin) as Hn. cbn in Hn.
      rewrite Eg, Eb, !Z.eqb_refl in Hn. discriminate.
    - eapply List.Forall_impl; [|exact Ht]. intros t.
      apply task_ok_carried; [apply bids_carried_snoc|apply gigs_carried_refl]. }
  split_matches; cbn [snd]; assumption.
Qed.

Lemma accept_bid_ok B s : store_ok s -> store_ok (snd (accept_bid B s)).
Proof.
  intros Hok.
  destruct (fst (fst (accept_bid B s))) eqn:Hacc.
  2:{ unfold accept_bid in *. split_matches; cbn in *; try discriminate;
      exact Hok. }
  destruct (accept_bid_inv B s Hacc) as [bid [gig [Hbid [Hgig ->]]]].
  cbn [snd].
  destruct Hok as [[Ku [Kg [Kb [Kt Kp]]]] [Hb [H1 [Hg [Ht Hu]]]]].
  pose proof (fetchone_some _ _ _ Hbid) as [Hbin HB]. apply Z.eqb_eq in HB.
  pose proof (fetchone_some _ _ _ Hgig) as [Hgin HG]. apply Z.eqb_eq in HG.
  unfold store_ok, keys_ok, one_bid_per_bidder.
  cbn [users gigs bids tasks portfolio].
  assert (Hbok : bid_ok bid).
  { rewrite List.Forall_forall in Hb. exact (Hb bid Hbin). }
  repeat split; try assumption.
  - apply gigs_status_keyed. exact Kg.
  - rewrite List.map_map. erewrite List.map_ext; [exact Kb|].
    intros b. apply settle_id.
  - apply keyed_insert; [exact Kt|reflexivity].
  - apply List.Forall_forall. intros b' Hb'. apply List.in_map_iff in Hb'.
    destruct Hb' as [b [<- Hin]]. rewrite List.Forall_forall in Hb.
    destruct (Hb b Hin) as [Ham Hst]. split.
    + rewrite settle_amount. exact Ham.
    + destruct (settle_status B (b_gig_id bid) b) as [->|[->| ->]];
        cbn; auto.
  - rewrite List.map_map. erewrite List.map_ext; [exact H1|].
    intros b. cbn. rewrite settle_gig, settle_bidder. reflexivity.
  - apply gigs_status_ok. exact Hg.
  - apply Forall_snoc.
    + eapply List.Forall_impl; [|exact Ht]. intros t.
      apply task_ok_carried; cbn [bids gigs];
        [apply bids_carried_settle|apply gigs_carried_status].
    + split; [cbn; auto|]. split; [exact (proj1 Hbok)|].
      exists (settle B (b_gig_id bid) bid),
             (if g_id gig =? b_gig_id bid
              then set_g_status "in_progress" gig else gig).
      cbn [bids gigs t_bid_id t_gig_id t_freelancer_id t_client_id t_amount].
      split; [apply List.in_map; exact Hbin|].
      split; [unfold update_where; apply List.in_map_iff; exists gig; auto|].
      rewrite settle_id, settle_gig, settle_bidder, settle_amount.
      rewrite HG, Z.eqb_refl. cbn.
      repeat split; try assumption; try reflexivity.
      rewrite settle_at_bid by auto. cbn. discriminate.
Qed.

Lemma complete_task_ok now tid uid rating review s :
  store_ok s -> store_ok (snd (complete_task now tid uid rating review s)).
Proof.
  intros Hok.
  destruct (complete_task_cases now tid uid rating review s)
    as [->|[tsk [f [Htsk [Hf [_ Hcase]]]]]]; [exact Hok|].
  destruct Hok as [[Ku [Kg [Kb [Kt Kp]]]] [Hb [H1 [Hg [Ht Hu]]]]].
  pose proof (fetchone_some _ _ _ Htsk) as [Htin _].
  assert (Htsk_ok : task_ok s tsk).
  { rewrite List.Forall_forall in Ht. exact (Ht tsk Htin). }
  assert (Kt' : List.NoDup
                  (List.map t_id (update_where (fun t => t_id t =? tid) f
                                               (tasks s)))).
  { rewrite (keys_update_where t_id); [exact Kt|].
    intros t. exact (task_change_id now review f t Hf). }
  assert (Ht' : List.Forall (task_ok s)
                  (update_where (fun t => t_id t =? tid) f (tasks s))).
  { apply Forall_update_where; [exact Ht|].
    intros t _. exact (task_ok_change s now review f t Hf). }
  destruct Hcase as [->|[Hn [_ [_ ->]]]].
  - unfold store_ok, keys_ok, one_bid_per_bidder.
    cbn [users gigs bids tasks portfolio].
    repeat split; try assumption.
  - unfold completion_effects, store_ok, keys_ok, one_bid_per_bidder.
    cbn [users gigs bids tasks portfolio].
    set (gigs1 := match fetchone _ _ with Some _ => _ | None => _ end).
    assert (Hgigs1 : List.NoDup (List.map g_id gigs1)
                     /\ List.Forall gig_ok gigs1
                     /\ gigs_carried (gigs s) gigs1).
    { subst gigs1. destruct (fetchone _ (update_where _ _ _)).
      - split; [apply gigs_status_keyed; exact Kg|].
        split; [apply gigs_status_ok; exact Hg|apply gigs_carried_status].
      - split; [exact Kg|]. split; [exact Hg|apply gigs_carried_refl]. }
    destruct Hgigs1 as [Kg1 [Hg1 Hcar]].
    repeat split; try assumption.
    + rewrite (keys_update_where u_id); [exact Ku|]. intros; reflexivity.
    + apply insert_portfolio_keyed; [|exact Kp].
      intros mk pid Hin. exact (portfolio_rows_ids _ _ _ _ _ mk pid Hin).
    + eapply List.Forall_impl; [|exact Ht']. intros t.
      apply task_ok_carried; cbn [bids gigs];
        [apply bids_carried_refl|exact Hcar].
    + apply Forall_update_where; [exact Hu|].
      intros u _. apply reward_ok; [|exact Hn].
      exact (proj1 (proj2 Htsk_ok)).
Qed.

Lemma step_store_ok s s' : step s s' -> store_ok s -> store_ok s'.
Proof.
  intros Hstep Hok. destruct Hstep.
  - apply insert_user_ok; exact Hok.
  - apply create_gig_ok; exact Hok.
  - apply update_gig_status_ok; exact Hok.
  - apply place_bid_ok; exact Hok.
  - apply accept_bid_ok; exact Hok.
  - apply complete_task_ok; exact Hok.
Qed.

Lemma reachable_store_ok s : reachable s -> store_ok s.
Proof.
  induction 1 as [|s s' _ IH Hstep].
  - unfold store_ok, keys_ok, one_bid_per_bidder. cbn.
    repeat split; constructor.
  - exact (step_store_ok s s' Hstep IH).
Qed.

Lemma demo_review_reachable : reachable demo_review.
Proof.
  eapply reachable_step; [exact demo_accepted_reachable|constructor].
Qed.

Lemma demo_rated_reachable : reachable demo_rated.
Proof.
  eapply reachable_step; [exact demo_review_reachable|constructor].
Qed.

(** X15.  In every store reachable through register, create_gig,
    update_gig_status, place_bid, accept_bid and complete_task, the ids of
    users, gigs, bids, tasks and portfolio rows are unique within their table.
    *)
Theorem reachable_keys_unique s : reachable s -> keys_ok s.
Proof. intros H. exact (proj1 (reachable_store_ok s H)). Qed.

Lemma reachable_keys_unique_witness : keys_ok demo_review.
Proof. exact (reachable_keys_unique demo_review demo_review_reachable). Defined.

(** X16.  In every reachable store a bidder has at most one bid per gig, every
    bid amount is positive and every bid status is 'pending', 'accepted' or
    'rejected'. *)
Theorem reachable_one_bid_per_bidder s :
  reachable s ->
  one_bid_per_bidder s
  /\ (forall b, In b (bids s) ->
                (0 < b_amount b)%Q
                /\ In (b_status b) ["pending"; "accepted"; "rejected"])
  /\ (forall b b', In b (bids s) -> In b' (bids s) ->
                   b_gig_id b = b_gig_id b' -> b_bidder_id b = b_bidder_id b' ->
                   b = b').
Proof.
  intros H. destruct (reachable_store_ok s H) as [_ [Hb [H1 _]]].
  split; [exact H1|]. split.
  - intros b Hin. rewrite List.Forall_forall in Hb. exact (Hb b Hin).
  - intros b b' Hin Hin' Eg Eb. unfold one_bid_per_bidder in H1.
    revert H1 Hin Hin'. generalize (bids s) as l.
    induction l as [|x l IH]; intros Hnd Hin Hin'; [destruct Hin|].
    cbn in Hnd. inversion Hnd as [|k ks Hnot Hnd']; subst.
    assert (Hout : forall y, In y l ->
                     (b_gig_id y, b_bidder_id y) <> (b_gig_id x, b_bidder_id x)).
    { intros y Hy E. apply Hnot. rewrite <- E.
      apply (List.in_map (fun b => (b_gig_id b, b_bidder_id b))). exact Hy. }
    destruct Hin as [->|Hin], Hin' as [->|Hin'].
    + reflexivity.
    + exfalso. apply (Hout b' Hin'). congruence.
    + exfalso. apply (Hout b Hin). congruence.
    + exact (IH Hnd' Hin Hin').
Qed.

Lemma reachable_one_bid_per_bidder_witness : one_bid_per_bidder demo_review.
Proof.
  exact (proj1 (reachable_one_bid_per_bidder demo_review
                  demo_review_reachable)).
Defined.

(** X17.  In every reachable store each fixed-budget gig has a positive budget
    amount, so place_bid never fails on comparing with a NULL budget: its
    message is always one of the three validation messages or 'Bid placed
    successfully!'. *)
Theorem reachable_fixed_gigs_have_budget s :
  reachable s ->
  (forall g, In g (gigs s) -> g_budget_type g = "fixed" ->
             exists a, g_budget_amount g = Some a /\ (0 < a)%Q)
  /\ (forall gid bidder amount et prop,
         In (snd (fst (place_bid gid bidder amount et prop s)))
            ["Please enter a valid bid amount";
             "You have already placed a bid on this gig";
             "Your bid exceeds the maximum allowed amount (150% of budget)";
             "Bid placed successfully!"]).
Proof.
  intros H. destruct (reachable_store_ok s H) as [_ [_ [_ [Hg _]]]].
  rewrite List.Forall_forall in Hg. split; [exact Hg|].
  intros gid bidder amount et prop. unfold place_bid.
  destruct (Qle_bool amount 0); [cbn; auto|].
  destruct (fetchone _ (bids s)); [cbn; auto|].
  destruct (fetchone (fun g => g_id g =? gid) (gigs s)) as [g|] eqn:Hf;
    [|cbn; auto 6].
  apply (fetchone_some (row:=gig)) in Hf as [Hin _].
  destruct (String.eqb_spec (g_budget_type g) "fixed") as [Hfix|Hfix];
    [|cbn; auto 6].
  destruct (Hg g Hin Hfix) as [a [-> _]].
  destruct (negb _); cbn; auto 6.
Qed.

Lemma reachable_fixed_gigs_have_budget_witness :
  exists a, Some 100%Q = Some a /\ (0 < a)%Q.
Proof.
  apply (proj1 (reachable_fixed_gigs_have_budget demo_review
                  demo_review_reachable)
           (mkGig 1 1 "Logo" "Draw a logo" "Design" "fixed" (Some 100%Q)
                  "in_progress")).
  - vm_compute. left. reflexivity.
  - reflexivity.
Defined.

(** X18.  In every reachable store each task has status 'in_progress',
    'pending_review' or 'completed' and a positive amount, and refers to a
    stored non-pending bid and its stored gig: the freelancer is the bidder,
    the client is the gig's owner and the amount is the bid's amount. *)
Theorem reachable_tasks_grounded s t :
  reachable s -> In t (tasks s) -> task_ok s t.
Proof.
  intros H Hin. destruct (reachable_store_ok s H) as [_ [_ [_ [_ [Ht _]]]]].
  rewrite List.Forall_forall in Ht. exact (Ht t Hin).
Qed.

Lemma reachable_tasks_grounded_witness :
  task_ok demo_review
          (mkTask 1 1 1 1 2 90%Q "pending_review" None None None).
Proof.
  apply (reachable_tasks_grounded demo_review _ demo_review_reachable).
  vm_compute. left. reflexivity.
Defined.

(** X19.  In every reachable store each user's rating is a number between 0
    and 5 (never NULL), and completed_tasks and total_earnings are non-
    negative. *)
Theorem reachable_user_statistics s u :
  reachable s -> In u (users s) ->
  (exists q, u_rating u = Some q /\ (0 <= q)%Q /\ (q <= 5)%Q)
  /\ 0 <= u_completed_tasks u
  /\ (0 <= u_total_earnings u)%Q.
Proof.
  intros H Hin. destruct (reachable_store_ok s H) as [_ [_ [_ [_ [_ Hu]]]]].
  rewrite List.Forall_forall in Hu. exact (Hu u Hin).
Qed.

Lemma reachable_user_statistics_witness :
  (exists q, Some 4%Q = Some q /\ (0 <= q)%Q /\ (q <= 5)%Q)
  /\ 0 <= 1 /\ (0 <= 90)%Q.
Proof.
  apply (reachable_user_statistics demo_rated
           (mkUser 2 "bob" (Some "python") (Some 4%Q) 1 90%Q)
           demo_rated_reachable).
  vm_compute. right. left. reflexivity.
Defined.

End SkillSwapInvariantsProofs.

(** ** SkillSwap: outcomes of single operations *)

Module SkillSwapLifecycleProofs.
Import SkillSwap SkillSwapProofs SkillSwapInvariants.

(** X20.  place_bid succeeds only if the amount is positive and the bidder has
    no bid on the gig yet; when the gig is missing or not fixed-budget these
    two conditions are also sufficient (the gig's existence and status are not
    checked), and a positive first bid that does not exceed the posted budget
    always succeeds; on success one 'pending' bid with a fresh id is appended
    and nothing else changes, on failure the store is unchanged. *)
Theorem place_bid_stores_pending_bid gid bidder amount et prop s :
  let out := place_bid gid bidder amount et prop s in
  let first_bid :=
    forall b, In b (bids s) ->
              ~ (b_gig_id b = gid /\ b_bidder_id b = bidder) in
  (fst (fst out) = true -> (0 < amount)%Q /\ first_bid)
  /\ ((forall g, fetchone (fun g => g_id g =? gid) (gigs s) = Some g ->
                 g_budget_type g <> "fixed") ->
      (fst (fst out) = true <-> (0 < amount)%Q /\ first_bid))
  /\ (forall g budget,
         fetchone (fun g => g_id g =? gid) (gigs s) = Some g ->
         g_budget_amount g = Some budget ->
         (0 < amount)%Q -> (amount <= budget)%Q -> first_bid ->
         fst (fst out) = true)
  /\ (fst (fst out) = true ->
      out = ((true, "Bid placed successfully!"),
             mkStore (users s) (gigs s)
                     (bids s ++ [mkBid (next_id b_id (bids s)) gid bidder
                                       amount et prop "pending"])
                     (tasks s) (portfolio s)))
  /\ (fst (fst out) = false -> snd out = s).
Proof.
  cbn zeta. unfold place_bid.
  destruct (Qle_bool amount 0) eqn:Hpos.
  { apply Qle_bool_iff in Hpos. cbn [fst snd].
    split; [discriminate|].
    split; [intros _; split; [discriminate|];
            intros [Hlt _]; exfalso; exact (Qlt_not_le _ _ Hlt Hpos)|].
    split; [intros g budget _ _ Hlt; exfalso;
            exact (Qlt_not_le _ _ Hlt Hpos)|].
    split; [discriminate|reflexivity]. }
  assert (Hlt : (0 < amount)%Q).
  { apply Qnot_le_lt. intros Hle. apply Qle_bool_iff in Hle. congruence. }
  destruct (fetchone (fun b => (b_gig_id b =? gid) && (b_bidder_id b =? bidder))
                     (bids s)) as [b0|] eqn:Hdup.
  { apply (fetchone_some (row:=bid)) in Hdup as [Hin Hk].
    apply andb_true_iff in Hk. rewrite !Z.eqb_eq in Hk. cbn [fst snd].
    split; [discriminate|].
    split; [intros _; split; [discriminate|];
            intros [_ Hno]; exfalso; exact (Hno b0 Hin Hk)|].
    split; [intros g budget _ _ _ _ Hno; exfalso; exact (Hno b0 Hin Hk)|].
    split; [discriminate|reflexivity]. }
  assert (Hno : forall b, In b (bids s) ->
                          ~ (b_gig_id b = gid /\ b_bidder_id b = bidder)).
  { intros b Hin [Eg Eb]. pose proof (fetchone_none _ _ b Hdup Hin) as Hn.
    cbn in Hn. rewrite Eg, Eb, !Z.eqb_refl in Hn. discriminate. }
  destruct (fetchone (fun g => g_id g =? gid) (gigs s)) as [g|] eqn:Hg.
  2:{ cbn [fst snd]. split; [intros _; split; assumption|].
      split; [intros _; split; [intros _; split; assumption|reflexivity]|].
      split; [reflexivity|]. split; [reflexivity|discriminate]. }
  destruct (String.eqb_spec (g_budget_type g) "fixed") as [Hfix|Hfix].
  2:{ cbn [fst snd]. split; [intros _; split; assumption|].
      split; [intros _; split; [intros _; split; assumption|reflexivity]|].
      split; [reflexivity|]. split; [reflexivity|discriminate]. }
  destruct (g_budget_amount g) as [budget|] eqn:Hbud.
  2:{ cbn [fst snd]. split; [discriminate|].
      split; [intros Hnf; exfalso; exact (Hnf g eq_refl Hfix)|].
      split; [intros g' budget [= <-] Hb; rewrite Hbud in Hb; discriminate|].
      split; [discriminate|reflexivity]. }
  destruct (Qle_bool amount (budget * 1.5)) eqn:Hle; cbn [negb fst snd].
  - split; [intros _; split; assumption|].
    split; [intros Hnf; exfalso; exact (Hnf g eq_refl Hfix)|].
    split; [reflexivity|]. split; [reflexivity|discriminate].
  - split; [discriminate|].
    split; [intros Hnf; exfalso; exact (Hnf g eq_refl Hfix)|].
    split; [|split; [discriminate|reflexivity]].
    intros g' budget' [= <-] Hb _ Hab _. rewrite Hbud in Hb.
    injection Hb as <-. exfalso.
    assert (Hle' : (amount <= budget * 1.5)%Q).
    { assert (0 < budget)%Q by (eapply Qlt_le_trans; eassumption). lra. }
    apply Qle_bool_iff in Hle'. congruence.
Qed.

(** X21.  create_gig succeeds exactly when title, description, category,
    budget type and urgency are non-empty and a fixed budget has a positive
    amount; on success one 'open' gig with a fresh id is added and earlier
    gigs are kept, on failure the store is unchanged. *)
Theorem create_gig_opens_gig uid title descr cat bt ba urg s :
  let out := create_gig uid title descr cat bt ba urg s in
  (fst (fst out) = true <->
   (title <> "" /\ descr <> "" /\ cat <> "" /\ bt <> "" /\ urg <> "")
   /\ (bt = "fixed" -> exists a, ba = Some a /\ (0 < a)%Q))
  /\ (fst (fst out) = true ->
      fetchone (fun g => g_id g =? next_id g_id (gigs s)) (gigs (snd out))
      = Some (mkGig (next_id g_id (gigs s)) uid title descr cat bt ba "open")
      /\ (forall g, In g (gigs s) -> In g (gigs (snd out)))
      /\ List.length (gigs (snd out)) = S (List.length (gigs s)))
  /\ (fst (fst out) = false -> snd out = s).
Proof.
  cbn zeta. unfold create_gig, truthy.
  destruct (String.eqb_spec title "") as [Ht|Ht];
    [cbn; split; [split; [discriminate|tauto]|split; [discriminate|reflexivity]]|].
  destruct (String.eqb_spec descr "") as [Hd|Hd];
    [cbn; split; [split; [discriminate|tauto]|split; [discriminate|reflexivity]]|].
  destruct (String.eqb_spec cat "") as [Hc|Hc];
    [cbn; split; [split; [discriminate|tauto]|split; [discriminate|reflexivity]]|].
  destruct (String.eqb_spec bt "") as [Hb|Hb];
    [cbn; split; [split; [discriminate|tauto]|split; [discriminate|reflexivity]]|].
  destruct (String.eqb_spec urg "") as [Hu|Hu];
    [cbn; split; [split; [discriminate|tauto]|split; [discriminate|reflexivity]]|].
  cbn [negb andb].
  assert (Hins :
    fetchone (fun g => g_id g =? next_id g_id (gigs s))
      (gigs s ++ [mkGig (next_id g_id (gigs s)) uid title descr cat bt ba "open"])
    = Some (mkGig (next_id g_id (gigs s)) uid title descr cat bt ba "open")
    /\ (forall g, In g (gigs s) ->
                  In g (gigs s ++ [mkGig (next_id g_id (gigs s)) uid title descr
                                         cat bt ba "open"]))
    /\ List.length (gigs s ++ [mkGig (next_id g_id (gigs s)) uid title descr
                                     cat bt ba "open"])
       = S (List.length (gigs s))).
  { split; [|split].
    - pose proof (fetchone_fresh_insert g_id (gigs s)
                    (mkGig (next_id g_id (gigs s)) uid title descr cat bt ba
                           "open") eq_refl) as Hf.
      cbn [g_id] in Hf. exact Hf.
    - intros g Hg. apply List.in_or_app. left. exact Hg.
    - rewrite List.length_app. cbn. lia. }
  destruct (String.eqb_spec bt "fixed") as [Hfix|Hfix]; cbn [andb].
  - destruct ba as [a|].
    + destruct (Qle_bool a 0) eqn:Ha; cbn [fst snd gigs].
      * split; [|split; [discriminate|reflexivity]].
        split; [discriminate|]. intros [_ Hbud].
        destruct (Hbud Hfix) as [a' [[= <-] Hlt]].
        apply Qle_bool_iff in Ha. exfalso. exact (Qlt_not_le _ _ Hlt Ha).
      * split; [|split; [intros _; exact Hins|discriminate]].
        split; [intros _|reflexivity]. split; [tauto|].
        intros _. exists a. split; [reflexivity|].
        apply Qnot_le_lt. intros Hle. apply Qle_bool_iff in Hle. congruence.
    + cbn [fst snd]. split; [|split; [discriminate|reflexivity]].
      split; [discriminate|]. intros [_ Hbud].
      destruct (Hbud Hfix) as [a' [[=] _]].
  - cbn [fst snd gigs].
    split; [|split; [intros _; exact Hins|discriminate]].
    split; [intros _|reflexivity]. split; [tauto|]. intros E. contradiction.
Qed.

(** X22.  complete_task fails exactly when the task does not exist, the caller
    is neither its client nor its freelancer, or the client passes a rating
    outside 1..5; a failed call changes nothing, and a missing task gives
    'Task not found'. *)
Theorem complete_task_refusals now tid uid rating review s :
  let out := complete_task now tid uid rating review s in
  (fst (fst out) = false <->
   fetchone (fun t => t_id t =? tid) (tasks s) = None
   \/ exists tsk,
       fetchone (fun t => t_id t =? tid) (tasks s) = Some tsk
       /\ ((uid <> t_client_id tsk /\ uid <> t_freelancer_id tsk)
           \/ (uid = t_client_id tsk
               /\ exists r, rating = Some r /\ (r < 1 \/ 5 < r))))
  /\ (fst (fst out) = false -> snd out = s)
  /\ (fetchone (fun t => t_id t =? tid) (tasks s) = None ->
      snd (fst out) = "Task not found").
Proof.
  cbn zeta. unfold complete_task.
  destruct (fetchone (fun t => t_id t =? tid) (tasks s)) as [tsk|] eqn:Ht.
  2:{ cbn. split; [split; auto|split; auto]. }
  cbn zeta.
  destruct (Z.eqb_spec uid (t_client_id tsk)) as [Hc|Hc].
  - cbn [orb negb]. destruct rating as [r|].
    + destruct (Z.ltb_spec r 1) as [H1|H1]; cbn [orb].
      { cbn. split; [|split; [reflexivity|discriminate]].
        split; [intros _|reflexivity]. right. exists tsk.
        split; [reflexivity|]. right. split; [exact Hc|]. exists r. auto. }
      destruct (Z.gtb_spec r 5) as [H5|H5].
      { cbn. split; [|split; [reflexivity|discriminate]].
        split; [intros _|reflexivity]. right. exists tsk.
        split; [reflexivity|]. right. split; [exact Hc|]. exists r.
        split; [reflexivity|]. right. lia. }
      destruct (String.eqb (t_status tsk) "pending_review" && true); cbn;
        (split; [|split; discriminate]);
        (split; [discriminate|]);
        intros [[=]|[tsk' [[= <-] [[Hn _]|[_ [r' [[= <-] Hr]]]]]]];
        [contradiction|lia|contradiction|lia].
    + destruct (String.eqb (t_status tsk) "pending_review" && true); cbn;
        (split; [|split; discriminate]);
        (split; [discriminate|]);
        intros [[=]|[tsk' [[= <-] [[Hn _]|[_ [r' [[=] _]]]]]]];
        contradiction.
  - cbn [orb].
    destruct (Z.eqb_spec uid (t_freelancer_id tsk)) as [Hf|Hf]; cbn [negb].
    + rewrite andb_false_r. cbn.
      split; [|split; discriminate]. split; [discriminate|].
      intros [[=]|[tsk' [[= <-] [[_ Hn]|[Hn _]]]]]; contradiction.
    + cbn. split; [|split; [reflexivity|discriminate]].
      split; [intros _|reflexivity]. right. exists tsk.
      split; [reflexivity|]. left. split; assumption.
Qed.

(** X23.  When the freelancer (who is not also the client) calls
    complete_task, the call succeeds and the task's status becomes
    'pending_review' whatever it was before, even 'completed'; users, gigs,
    bids and portfolio are untouched. *)
Theorem complete_task_freelancer_resubmits now tid rating review s tsk :
  fetchone (fun t => t_id t =? tid) (tasks s) = Some tsk ->
  t_freelancer_id tsk <> t_client_id tsk ->
  let out := complete_task now tid (t_freelancer_id tsk) rating review s in
  fst out = (true, "Task updated successfully!")
  /\ fetchone (fun t => t_id t =? tid) (tasks (snd out))
     = Some (set_t_status "pending_review" tsk)
  /\ users (snd out) = users s
  /\ gigs (snd out) = gigs s
  /\ bids (snd out) = bids s
  /\ portfolio (snd out) = portfolio s.
Proof.
  intros Ht Hne out. subst out. unfold complete_task. rewrite Ht. cbn zeta.
  apply Z.eqb_neq in Hne. rewrite Hne, Z.eqb_refl. cbn [orb negb].
  rewrite andb_false_r. cbn [fst snd tasks users gigs bids portfolio].
  split; [reflexivity|]. split; [|repeat split].
  rewrite (fetchone_update_where t_id) by (intros; reflexivity).
  rewrite Ht. cbn [option_map].
  apply (fetchone_some (row:=task)) in Ht as [_ ->]. reflexivity.
Qed.

Lemma complete_task_freelancer_resubmits_witness :
  let out := complete_task 95000 1 2 None None demo_done in
  fst out = (true, "Task updated successfully!")
  /\ fetchone (fun t => t_id t =? 1) (tasks (snd out))
     = Some (mkTask 1 1 1 1 2 90 "pending_review" (Some 90000) None None)
  /\ users (snd out) = users demo_done
  /\ gigs (snd out) = gigs demo_done
  /\ bids (snd out) = bids demo_done
  /\ portfolio (snd out) = portfolio demo_done.
Proof.
  apply (complete_task_freelancer_resubmits 95000 1 None None demo_done
           (mkTask 1 1 1 1 2 90 "completed" (Some 90000) None None)).
  - reflexivity.
  - cbn. lia.
Defined.

(** X24.  A client confirming a task without a rating twice rewards the
    freelancer at most once: the second call succeeds, leaves users, gigs,
    bids and portfolio as the first call left them, and only refreshes
    completed_at. *)
Theorem complete_task_confirm_once now now' tid review review' s tsk :
  fetchone (fun t => t_id t =? tid) (tasks s) = Some tsk ->
  let s1 := snd (complete_task now tid (t_client_id tsk) None review s) in
  let again := complete_task now' tid (t_client_id tsk) None review' s1 in
  fst again = (true, "Task updated successfully!")
  /\ users (snd again) = users s1
  /\ gigs (snd again) = gigs s1
  /\ bids (snd again) = bids s1
  /\ portfolio (snd again) = portfolio s1
  /\ fetchone (fun t => t_id t =? tid) (tasks (snd again))
     = Some (set_t_completed now' tsk).
Proof.
  intros Ht s1 again.
  pose proof (fetchone_some _ _ _ Ht) as [_ Hid].
  assert (Ht1 : fetchone (fun t => t_id t =? tid) (tasks s1)
                = Some (set_t_completed now tsk)).
  { subst s1. unfold complete_task. rewrite Ht. cbn zeta.
    rewrite Z.eqb_refl. cbn [orb negb].
    destruct (String.eqb (t_status tsk) "pending_review" && true);
      cbn [snd tasks];
      rewrite (fetchone_update_where t_id) by (intros; reflexivity);
      rewrite Ht; cbn [option_map]; rewrite Hid; reflexivity. }
  subst again. unfold complete_task at 1 2 3 4 5 6. rewrite Ht1. cbn zeta.
  cbn [t_client_id set_t_completed t_status t_freelancer_id t_amount].
  rewrite Z.eqb_refl. cbn [orb negb].
  change (String.eqb "completed" "pending_review") with false.
  cbn [andb fst snd users gigs bids portfolio tasks].
  repeat split.
  rewrite (fetchone_update_where t_id) by (intros; reflexivity).
  rewrite Ht1. cbn. rewrite Hid. reflexivity.
Qed.

Lemma complete_task_confirm_once_witness :
  let again := complete_task 99000 1 1 None None demo_done in
  fst again = (true, "Task updated successfully!")
  /\ users (snd again) = users demo_done
  /\ gigs (snd again) = gigs demo_done
  /\ bids (snd again) = bids demo_done
  /\ portfolio (snd again) = portfolio demo_done
  /\ fetchone (fun t => t_id t =? 1) (tasks (snd again))
     = Some (mkTask 1 1 1 1 2 90 "completed" (Some 99000) None None).
Proof.
  apply (complete_task_confirm_once 90000 99000 1 None None demo_review
           (mkTask 1 1 1 1 2 90 "pending_review" None None None)).
  reflexivity.
Defined.

End SkillSwapLifecycleProofs.

(** ** Regular expressions *)

Module RegexProofs.

Lemma nullable_lang r : nullable r = true <-> lang r [].
Proof.
  induction r as [|p|r1 IH1 r2 IH2|r1 IH1 r2 IH2|r IH]; cbn.
  - split; [constructor|reflexivity].
  - split; [discriminate|]. intros H. inversion H.
  - rewrite andb_true_iff, IH1, IH2. split.
    + intros [H1 H2]. exact (lang_seq r1 r2 [] [] H1 H2).
    + intros H. inversion H; subst.
      match goal with
      | E : _ ++ _ = [] |- _ =>
        apply List.app_eq_nil in E; destruct E as [-> ->]
      end. auto.
  - rewrite orb_true_iff, IH1, IH2. split.
    + intros [H|H]; [apply lang_alt_l|apply lang_alt_r]; exact H.
    + intros H. inversion H; subst; auto.
  - split; [constructor|reflexivity].
Qed.

Lemma lang_star_cons_inv r c s :
  lang (Star r) (c :: s) ->
  exists s1 s2, s = s1 ++ s2 /\ lang r (c :: s1) /\ lang (Star r) s2.
Proof.
  intros H. remember (Star r) as sr eqn:Er. remember (c :: s) as cs eqn:Ec.
  revert s Ec.
  induction H as [| | | | | |r0 s1 s2 H1 _ H2 IH2]; intros s' Ec;
    try discriminate.
  injection Er as ->.
  destruct s1 as [|c1 s1].
  - cbn in Ec. exact (IH2 eq_refl s' Ec).
  - cbn in Ec. injection Ec as -> <-. exists s1, s2. auto.
Qed.

Lemma deriv_lang r c s :
  lang r (c :: s) <-> exists d, In d (deriv c r) /\ lang d s.
Proof.
  revert c s.
  induction r as [|p|r1 IH1 r2 IH2|r1 IH1 r2 IH2|r IH]; intros c s; cbn.
  - split; [intros H; inversion H|intros [d [[] _]]].
  - split.
    + intros H. inversion H; subst. rewrite H2. exists Eps.
      split; [left; reflexivity|constructor].
    + intros [d [Hd Hl]]. destruct (p c) eqn:E; [|destruct Hd].
      destruct Hd as [<-|[]]. inversion Hl; subst. constructor. exact E.
  - split.
    + intros H. remember (c :: s) as cs eqn:Ecs.
      inversion H as [| |r1' r2' s1 s2 H1 H2 Er Es| | | |]; subst.
      destruct s1 as [|c1 s1]; cbn in Es.
      * subst s2. apply IH2 in H2. destruct H2 as [d [Hd Hl]].
        exists d. split; [|exact Hl]. apply List.in_or_app. right.
        apply nullable_lang in H1. rewrite H1. exact Hd.
      * injection Es as -> <-. apply IH1 in H1. destruct H1 as [d [Hd Hl]].
        exists (Seq d r2). split; [|constructor; assumption].
        apply List.in_or_app. left. apply List.in_map_iff. exists d. auto.
    + intros [d [Hd Hl]]. apply List.in_app_or in Hd. destruct Hd as [Hd|Hd].
      * apply List.in_map_iff in Hd. destruct Hd as [d1 [<- Hd1]].
        inversion Hl as [| |r1' r2' s1 s2 H1 H2 Er Es| | | |]; subst.
        change (c :: s1 ++ s2) with ((c :: s1) ++ s2).
        constructor; [|exact H2]. apply IH1. eauto.
      * destruct (nullable r1) eqn:E; [|destruct Hd].
        apply nullable_lang in E.
        change (c :: s) with ([] ++ c :: s). constructor; [exact E|].
        apply IH2. eauto.
  - split.
    + intros H. inversion H; subst.
      * apply IH1 in H3. destruct H3 as [d [Hd Hl]].
        exists d. split; [apply List.in_or_app; left; exact Hd|exact Hl].
      * apply IH2 in H3. destruct H3 as [d [Hd Hl]].
        exists d. split; [apply List.in_or_app; right; exact Hd|exact Hl].
    + intros [d [Hd Hl]]. apply List.in_app_or in Hd. destruct Hd as [Hd|Hd].
      * apply lang_alt_l. apply IH1. eauto.
      * apply lang_alt_r. apply IH2. eauto.
  - split.
    + intros H. apply lang_star_cons_inv in H.
      destruct H as [s1 [s2 [-> [H1 H2]]]].
      apply IH in H1. destruct H1 as [d [Hd Hl]].
      exists (Seq d (Star r)). split; [|constructor; assumption].
      apply List.in_map_iff. exists d. auto.
    + intros [d [Hd Hl]]. apply List.in_map_iff in Hd.
      destruct Hd as [d1 [<- Hd1]].
      inversion Hl as [| |r1' r2' s1 s2 H1 H2 Er Es| | | |]; subst.
      change (c :: s1 ++ s2) with ((c :: s1) ++ s2).
      constructor; [|exact H2]. apply IH. eauto.
Qed.

Lemma re_match_any_lang rs s :
  re_match_any rs s = true <-> exists r, In r rs /\ lang r s.
Proof.
  revert rs. induction s as [|c s IH]; intros rs; cbn.
  - rewrite List.existsb_exists. split; intros [r [Hr H]]; exists r;
      (split; [exact Hr|]); apply nullable_lang; exact H.
  - rewrite IH. split.
    + intros [d [Hd Hl]]. apply List.in_flat_map in Hd.
      destruct Hd as [r [Hr Hd]]. exists r. split; [exact Hr|].
      apply deriv_lang. eauto.
    + intros [r [Hr Hl]]. apply deriv_lang in Hl. destruct Hl as [d [Hd Hl]].
      exists d. split; [|exact Hl]. apply List.in_flat_map. eauto.
Qed.

(** [re_match] decides the language of the pattern. *)
Lemma re_match_lang r s : re_match r s = true <-> lang r s.
Proof.
  unfold re_match. rewrite re_match_any_lang. split.
  - intros [r' [[<-|[]] H]]. exact H.
  - intros H. exists r. split; [left; reflexivity|exact H].
Qed.

Lemma lang_star_cls p s :
  lang (Star (Cls p)) s <-> List.Forall (fun c => p c = true) s.
Proof.
  split.
  - intros H. remember (Star (Cls p)) as sr eqn:E.
    induction H as [| | | | | |r0 s1 s2 H1 _ H2 IH2]; try discriminate.
    + constructor.
    + injection E as ->. inversion H1; subst. cbn.
      constructor; [assumption|]. apply IH2. reflexivity.
  - intros H. induction H as [|c s Hc _ IH]; [constructor|].
    change (c :: s) with ([c] ++ s). constructor; [|exact IH].
    constructor. exact Hc.
Qed.

End RegexProofs.

(** ** SkillSwap: registration *)

Module SkillSwapAccountsProofs.
Import SkillSwapAccounts RegexProofs.

(** X25.  On ASCII text, validate_password accepts exactly the passwords of at
    least 8 characters containing an upper-case letter, a lower-case letter, a
    digit and one of the listed special characters; every rejection carries a
    non- empty message, and the length is the first rule checked. *)
Theorem validate_password_rules password :
  let chars := list_ascii_of_string password in
  (validate_password password = (true, "") <->
   (8 <= String.length password)%nat
   /\ (exists c, In c chars /\ is_upper c = true)
   /\ (exists c, In c chars /\ is_lower c = true)
   /\ (exists c, In c chars /\ is_digit c = true)
   /\ (exists c, In c chars /\ is_special c = true))
  /\ (fst (validate_password password) = false ->
      snd (validate_password password) <> "")
  /\ ((String.length password < 8)%nat ->
      validate_password password
      = (false, "Password must be at least 8 characters long")).
Proof.
  cbn zeta. unfold validate_password, re_search_class.
  destruct (Nat.ltb_spec (String.length password) 8) as [Hlen|Hlen].
  { split; [split; [discriminate|intros [H _]; lia]|].
    split; [discriminate|reflexivity]. }
  destruct (List.existsb is_upper _) eqn:Hu; cbn [negb].
  2:{ split; [split; [discriminate|]|split; [discriminate|lia]].
      intros [_ [H _]]. apply existsb_in in H. congruence. }
  destruct (List.existsb is_lower _) eqn:Hl; cbn [negb].
  2:{ split; [split; [discriminate|]|split; [discriminate|lia]].
      intros [_ [_ [H _]]]. apply existsb_in in H. congruence. }
  destruct (List.existsb is_digit _) eqn:Hd; cbn [negb].
  2:{ split; [split; [discriminate|]|split; [discriminate|lia]].
      intros [_ [_ [_ [H _]]]]. apply existsb_in in H. congruence. }
  destruct (List.existsb is_special _) eqn:Hs; cbn [negb].
  2:{ split; [split; [discriminate|]|split; [discriminate|lia]].
      intros [_ [_ [_ [_ H]]]]. apply existsb_in in H. congruence. }
  split; [|split; [discriminate|lia]].
  split; [intros _|reflexivity].
  rewrite <- !existsb_in. auto.
Qed.

Lemma lang_seq_iff r1 r2 s :
  lang (Seq r1 r2) s <->
  exists s1 s2, s = s1 ++ s2 /\ lang r1 s1 /\ lang r2 s2.
Proof.
  split.
  - intros H. inversion H; subst. eauto.
  - intros [s1 [s2 [-> [H1 H2]]]]. constructor; assumption.
Qed.

Lemma lang_cls_iff p s :
  lang (Cls p) s <-> exists c, s = [c] /\ p c = true.
Proof.
  split.
  - intros H. inversion H; subst. eauto.
  - intros [c [-> H]]. constructor. exact H.
Qed.

Lemma lang_char_iff a s : lang (Cls (Ascii.eqb a)) s <-> s = [a].
Proof.
  rewrite lang_cls_iff. split.
  - intros [c [-> H]]. apply Ascii.eqb_eq in H. congruence.
  - intros ->. exists a. split; [reflexivity|apply Ascii.eqb_refl].
Qed.

Lemma lang_plus_cls p s :
  lang (plus (Cls p)) s <->
  s <> [] /\ List.Forall (fun c => p c = true) s.
Proof.
  unfold plus. rewrite lang_seq_iff. split.
  - intros [s1 [s2 [-> [H1 H2]]]]. apply lang_cls_iff in H1.
    destruct H1 as [c [-> Hc]]. apply lang_star_cls in H2.
    split; [discriminate|]. constructor; assumption.
  - intros [Hne H]. destruct s as [|c s]; [contradiction|].
    inversion H; subst. exists [c], s.
    split; [reflexivity|]. split; [constructor; assumption|].
    apply lang_star_cls. assumption.
Qed.

Lemma lang_alt_iff r1 r2 s : lang (Alt r1 r2) s <-> lang r1 s \/ lang r2 s.
Proof.
  split.
  - intros H. inversion H; subst; auto.
  - intros [H|H]; [apply lang_alt_l|apply lang_alt_r]; exact H.
Qed.

Lemma lang_eps_iff s : lang Eps s <-> s = [].
Proof.
  split; [intros H; inversion H; reflexivity|intros ->; constructor].
Qed.

Lemma lang_dollar s : lang dollar s <-> s = [] \/ s = [newline].
Proof.
  unfold dollar. rewrite lang_alt_iff, lang_eps_iff, lang_char_iff.
  reflexivity.
Qed.

(** X26.  validate_email accepts exactly the strings local@domain.tld with a
    non-empty local part over [a-zA-Z0-9._%+-], a non-empty domain over
    [a-zA-Z0-9.-] and at least two letters after its last accepted dot,
    optionally followed by one trailing newline (which $ tolerates). *)
Theorem validate_email_shape email :
  validate_email email = true <->
  exists local domain tld tail,
    list_ascii_of_string email
    = local ++ "@"%char :: domain ++ "."%char :: tld ++ tail
    /\ (tail = [] \/ tail = [newline])
    /\ local <> [] /\ List.Forall (fun c => local_class c = true) local
    /\ domain <> [] /\ List.Forall (fun c => domain_class c = true) domain
    /\ (2 <= List.length tld)%nat
    /\ List.Forall (fun c => is_letter c = true) tld.
Proof.
  unfold validate_email. rewrite re_match_lang. unfold email_pattern.
  split.
  - intros H.
    apply lang_seq_iff in H. destruct H as [local [s1 [E1 [Hlocal H]]]].
    apply lang_seq_iff in H. destruct H as [at_ [s2 [E2 [Hat H]]]].
    apply lang_seq_iff in H. destruct H as [domain [s3 [E3 [Hdom H]]]].
    apply lang_seq_iff in H. destruct H as [dot [s4 [E4 [Hdot H]]]].
    apply lang_seq_iff in H. destruct H as [l1 [s5 [E5 [Hl1 H]]]].
    apply lang_seq_iff in H. destruct H as [l2 [s6 [E6 [Hl2 H]]]].
    apply lang_seq_iff in H. destruct H as [rest [tail [E7 [Hrest Htail]]]].
    apply lang_char_iff in Hat, Hdot. subst at_ dot.
    apply lang_cls_iff in Hl1, Hl2.
    destruct Hl1 as [c1 [-> Hc1]]. destruct Hl2 as [c2 [-> Hc2]].
    apply lang_plus_cls in Hlocal, Hdom. apply lang_star_cls in Hrest.
    apply lang_dollar in Htail.
    exists local, domain, (c1 :: c2 :: rest), tail.
    subst. split; [rewrite E1; reflexivity|].
    repeat split; try tauto.
    + cbn. lia.
    + constructor; [exact Hc1|]. constructor; assumption.
  - intros [local [domain [tld [tail [E [Htail [Hl [Hlc [Hd [Hdc [Hlen Htld]]]]]]]]]]].
    rewrite E.
    destruct tld as [|c1 [|c2 rest]]; cbn in Hlen; try lia.
    inversion Htld as [|? ? Hc1 Htld']; subst.
    inversion Htld' as [|? ? Hc2 Hrest]; subst.
    apply lang_seq_iff. exists local, ("@"%char :: domain ++ "."%char :: (c1 :: c2 :: rest) ++ tail).
    split; [reflexivity|]. split; [apply lang_plus_cls; auto|].
    apply lang_seq_iff. exists ["@"%char], (domain ++ "."%char :: (c1 :: c2 :: rest) ++ tail).
    split; [reflexivity|]. split; [apply lang_char_iff; reflexivity|].
    apply lang_seq_iff. exists domain, ("."%char :: (c1 :: c2 :: rest) ++ tail).
    split; [reflexivity|]. split; [apply lang_plus_cls; auto|].
    apply lang_seq_iff. exists ["."%char], ((c1 :: c2 :: rest) ++ tail).
    split; [reflexivity|]. split; [apply lang_char_iff; reflexivity|].
    apply lang_seq_iff. exists [c1], (c2 :: rest ++ tail).
    split; [reflexivity|]. split; [apply lang_cls_iff; eauto|].
    apply lang_seq_iff. exists [c2], (rest ++ tail).
    split; [reflexivity|]. split; [apply lang_cls_iff; eauto|].
    apply lang_seq_iff. exists rest, tail.
    split; [reflexivity|]. split; [apply lang_star_cls; assumption|].
    apply lang_dollar. exact Htail.
Qed.

Section WithHash.
Variable hash_password : string -> string.

(** X27.  SkillSwap's register_user succeeds exactly when the e-mail and the
    password validate and neither username nor e-mail is taken; on success it
    appends one account with zero statistics with which login_user succeeds,
    on failure the table is unchanged, and an invalid e-mail is reported
    before anything else. *)
Theorem register_user_validates
    username email password university major skills bio accounts :
  let out := register_user hash_password username email password university
                           major skills bio accounts in
  let fresh := mkAccount (next_id a_id accounts) username email
                         (hash_password password) university major skills
                         bio 0 0 0 0 in
  (fst (fst out) = true <->
   validate_email email = true
   /\ validate_password password = (true, "")
   /\ forall a, In a accounts ->
                a_username a <> username /\ a_email a <> email)
  /\ (fst (fst out) = true ->
      snd out = accounts ++ [fresh]
      /\ login_user hash_password email password (snd out) = Some fresh
      /\ List.map to_user (snd out)
         = SkillSwap.users
             (SkillSwap.insert_user username (Some skills)
                (SkillSwap.mkStore (List.map to_user accounts) [] [] [] [])))
  /\ (fst (fst out) = false -> snd out = accounts)
  /\ (validate_email email = false ->
      fst out = (false, "Invalid email format")).
Proof.
  cbn zeta. unfold register_user.
  destruct (validate_email email) eqn:Hmail; cbn [negb].
  2:{ cbn. split; [split; [discriminate|intros [H _]; discriminate]|].
      split; [discriminate|]. split; reflexivity. }
  destruct (validate_password password) as [[|] msg] eqn:Hpw; cbn [negb].
  2:{ cbn. split; [split; [discriminate|intros [_ [H _]]; discriminate]|].
      split; [discriminate|]. split; [reflexivity|discriminate]. }
  assert (Hmsg' : msg = "").
  { unfold validate_password in Hpw. revert Hpw.
    repeat (match goal with
            | |- context [if ?b then _ else _] => destruct b
            end; try discriminate).
    intros [= <-]. reflexivity. }
  subst msg.
  destruct (fetchone _ accounts) as [a0|] eqn:Hdup.
  { cbn. split; [|split; [discriminate|split; [reflexivity|discriminate]]].
    split; [discriminate|]. intros [_ [_ Hno]].
    apply (fetchone_some (row:=account)) in Hdup as [Hin Hk].
    apply orb_true_iff in Hk. rewrite !String.eqb_eq in Hk.
    destruct (Hno a0 Hin). tauto. }
  assert (Hno : forall a, In a accounts ->
                          a_username a <> username /\ a_email a <> email).
  { intros a Ha. pose proof (fetchone_none _ _ a Hdup Ha) as Hn.
    cbn in Hn. apply orb_false_iff in Hn. destruct Hn as [Hu He].
    apply String.eqb_neq in Hu, He. auto. }
  cbn [fst snd].
  split; [split; [intros _; auto|reflexivity]|].
  split; [intros _|split; discriminate].
  split; [reflexivity|]. split.
  - unfold login_user. rewrite fetchone_app.
    rewrite fetchone_absent.
    + unfold fetchone. cbn. rewrite !String.eqb_refl. reflexivity.
    + intros a Ha. destruct (Hno a Ha) as [_ He].
      apply String.eqb_neq in He. rewrite He. reflexivity.
  - unfold SkillSwap.insert_user. cbn [SkillSwap.users].
    rewrite List.map_app. cbn [List.map to_user a_id a_username a_skills
                               a_rating a_completed_tasks a_total_earnings].
    f_equal. f_equal. f_equal.
    unfold next_id. rewrite List.map_map. reflexivity.
Qed.

End WithHash.

Example validate_email_examples :
  List.map validate_email
           ["ann@uni.edu"; "a.b+c@mail.uni-x.org"; "ann@uni"; "ann@uni.e";
            "ann uni@x.org"; "@uni.edu"; "ann@@uni.edu"]
  = [true; true; false; false; false; false; false].
Proof. vm_compute. reflexivity. Qed.

End SkillSwapAccountsProofs.

(** ** SkillSwap: messages *)

Module SkillSwapMessagesProofs.
Import SkillSwap SkillSwapMessages ShareStuffProofs.

(** X28.  send_message refuses a message that is empty after stripping and
    changes nothing; otherwise it appends one unread message with a fresh id,
    which raises the receiver's unread count by one and nobody else's. *)
Theorem send_message_delivers now sender receiver task_id text mb :
  let out := send_message now sender receiver task_id text mb in
  (py_strip text = "" -> out = ((false, "Message cannot be empty"), mb))
  /\ (py_strip text <> "" ->
      fst out = (true, "Message sent!")
      /\ messages (snd out)
         = messages mb ++ [mkMessage (next_id msg_id (messages mb)) sender
                                     receiver task_id text 0 now]
      /\ get_unread_message_count receiver (snd out)
         = get_unread_message_count receiver mb + 1
      /\ (forall u, u <> receiver ->
                    get_unread_message_count u (snd out)
                    = get_unread_message_count u mb)).
Proof.
  cbn zeta. unfold send_message, truthy.
  destruct (String.eqb_spec (py_strip text) "") as [E|E]; cbn [negb].
  - split; [reflexivity|contradiction].
  - split; [contradiction|]. intros _. cbn [fst snd messages].
    split; [reflexivity|]. split; [reflexivity|].
    unfold get_unread_message_count. cbn [messages].
    split.
    + rewrite count_where_app. unfold count_where at 2. cbn.
      rewrite Z.eqb_refl. cbn. lia.
    + intros u Hu. rewrite count_where_app. unfold count_where at 2. cbn.
      apply Z.eqb_neq in Hu. rewrite Z.eqb_sym, Hu. cbn. lia.
Qed.

(** X29.  get_user_messages returns only messages the user sent or received;
    when the result is non-empty it marks every unread message addressed to
    the user as read, also those outside the requested conversation or task,
    so the user's unread count becomes 0, other users' counts and all message
    texts are unchanged; an empty result changes nothing. *)
Theorem get_user_messages_marks_all_read user_id other task_id mb :
  let out := get_user_messages user_id other task_id mb in
  fst out = message_rows user_id other task_id mb
  /\ (forall r, In r (fst out) ->
                msg_sender_id (row_message r) = user_id
                \/ msg_receiver_id (row_message r) = user_id)
  /\ (fst out = [] -> snd out = mb)
  /\ (fst out <> [] ->
      get_unread_message_count user_id (snd out) = 0
      /\ (forall u, u <> user_id ->
                    get_unread_message_count u (snd out)
                    = get_unread_message_count u mb)
      /\ List.map msg_id (messages (snd out)) = List.map msg_id (messages mb)
      /\ List.map msg_text (messages (snd out))
         = List.map msg_text (messages mb)).
Proof.
  cbn zeta. unfold get_user_messages.
  split; [destruct (message_rows _ _ _ _); reflexivity|].
  split.
  { intros r Hr.
    assert (Hin : In r (message_rows user_id other task_id mb))
      by (destruct (message_rows _ _ _ _); exact Hr).
    unfold message_rows in Hin. apply sorted_desc_in in Hin.
    apply List.in_flat_map in Hin. destruct Hin as [m [Hm Hin]].
    apply List.in_flat_map in Hin. destruct Hin as [s [_ Hin]].
    apply List.in_flat_map in Hin. destruct Hin as [r' [_ Hin]].
    apply List.in_map_iff in Hin. destruct Hin as [title [<- _]].
    cbn. apply List.filter_In in Hm. destruct Hm as [_ Hsel].
    unfold message_selected in Hsel.
    apply andb_true_iff in Hsel. destruct Hsel as [Hsel _].
    apply andb_true_iff in Hsel. destruct Hsel as [Hsel _].
    apply orb_true_iff in Hsel. rewrite !Z.eqb_eq in Hsel. exact Hsel. }
  destruct (message_rows _ _ _ _) as [|r rows]; cbn [fst snd].
  { split; [reflexivity|contradiction]. }
  split; [discriminate|]. intros _. cbn [messages].
  unfold get_unread_message_count. cbn [messages].
  split; [|split; [|split]].
  - unfold update_where. rewrite count_where_map.
    rewrite count_where_none; [reflexivity|].
    intros m _.
    destruct ((msg_receiver_id m =? user_id) && (msg_is_read m =? 0)) eqn:E;
      [cbn; apply andb_false_r|exact E].
  - intros u Hu. f_equal. unfold update_where. rewrite count_where_map.
    apply count_where_ext. intros m _.
    destruct ((msg_receiver_id m =? user_id) && (msg_is_read m =? 0)) eqn:E;
      [|reflexivity].
    apply andb_true_iff in E. destruct E as [Er _]. apply Z.eqb_eq in Er.
    cbn. assert (Hne : (msg_receiver_id m =? u) = false)
      by (apply Z.eqb_neq; congruence).
    rewrite Hne. reflexivity.
  - unfold update_where. rewrite List.map_map. apply List.map_ext.
    intros m. destruct (_ && _); reflexivity.
  - unfold update_where. rewrite List.map_map. apply List.map_ext.
    intros m. destruct (_ && _); reflexivity.
Qed.

End SkillSwapMessagesProofs.
